(** * DolphinUpdater: a shallow embedding of [dolphin_updater/__main__.py]

    The program scrapes a listing page for the latest build, reads the
    version marker of the installed binary, compares the two strings and,
    when they differ, downloads an archive and moves its files over the
    installation directory.

    Layout of the development:
    - [Py]      Python values the program handles: exceptions, results,
                string and byte helpers;
    - [Re]      the fragment of [re] the four patterns of the source need;
    - [Soup]    the document tree of the HTML parser and its searches;
    - [Fs]      a tree-shaped file system with the [os]/[shutil] calls;
    - [Updater] the classes and functions of the source, name for name;
    - [Spec]    what the specification says where it departs from the
                source, and [Worlds], concrete inputs and the predicates
                the statements are written with;
    - the properties of the specification, numbered C1 to C10, each with
      the lemmas it rests on. *)

From Stdlib Require Import ZArith Ascii String.
From Stdlib.Strings Require Import Byte.
From stdpp Require Import gmap strings list fin_maps pretty.

Local Open Scope Z_scope.
Set Warnings "-register-all".

(* ===================================================================== *)
(** * Python values                                                        *)
(* ===================================================================== *)

Module Py.

(** Exception classes.  The first group is what the interpreter and the
    libraries raise on the paths of this program.  The last four are the
    names of the specification's error taxonomy: no statement of the source
    raises them; they are here so that a property can speak about them. *)
Inductive exn : Type :=
  | AttributeError        (* attribute access on [None] *)
  | TypeError             (* [x in None], [None[:-1]] *)
  | ZeroDivisionError
  | RecursionError        (* the interpreter's bound on nested calls *)
  | FileNotFoundError
  | NotADirectoryError
  | PermissionError       (* [os.remove] of a directory and the like *)
  | FileExistsError
  | ShutilError           (* [shutil.Error] *)
  | URLError              (* [urllib.error.URLError], host unreachable *)
  | ContentTooShortError
  | UnicodeDecodeError
  | EOFError              (* [input()] at end of input *)
  | SystemExit (code : Z) (* [sys.exit(code)] *)
  | NetworkError | ParseError | NotFoundError | IOError.

(** A call either returns or raises. *)
Inductive result (A : Type) : Type :=
  | Ok (a : A)
  | Raise (e : exn).
Arguments Ok {A} a.
Arguments Raise {A} e.

Global Instance result_ret : MRet result := fun _ a => Ok a.
Global Instance result_bind : MBind result := fun _ _ f r =>
  match r with Ok a => f a | Raise e => Raise e end.

Global Instance result_fmap : FMap result := fun _ _ f r =>
  match r with Ok a => Ok (f a) | Raise e => Raise e end.

Definition is_ok {A} (r : result A) : bool :=
  match r with Ok _ => true | Raise _ => false end.

(** [for a in l: body(a)] over a state threaded through the iterations;
    the first exception ends the loop. *)
Fixpoint for_each {A S : Type} (l : list A) (body : A → S → result S) (s : S)
    : result S :=
  match l with
  | [] => Ok s
  | a :: l' => body a s ≫= for_each l' body
  end.

(** ** [str] *)

(** [s.endswith(t)] *)
Definition endswith (s t : string) : bool :=
  let n := String.length s in
  let k := String.length t in
  if (k <=? n)%nat then String.eqb (substring (n - k) k s) t else false.

(** [needle in hay] for two [str] *)
Fixpoint str_in (needle hay : string) : bool :=
  if String.prefix needle hay then true
  else match hay with
       | EmptyString => false
       | String _ hay' => str_in needle hay'
       end.

(** [s[:-1]]: everything but the last character; the empty string
    stays empty. *)
Fixpoint drop_last (s : string) : string :=
  match s with
  | EmptyString => EmptyString
  | String c EmptyString => EmptyString
  | String c s' => String c (drop_last s')
  end.

(** [sep.join(l)] *)
Fixpoint join (sep : string) (l : list string) : string :=
  match l with
  | [] => EmptyString
  | [s] => s
  | s :: l' => s +:+ sep +:+ join sep l'
  end.

(** [str(n)] for an [int] *)
Definition str_of_int (n : Z) : string := pretty n.

(** [a == b] where either side may be [None]. *)
Definition py_eqb (a b : option string) : bool :=
  match a, b with
  | Some x, Some y => String.eqb x y
  | None, None => true
  | _, _ => false
  end.

(** ** [bytes] *)

Definition bytes := list byte.

Definition b (s : string) : bytes := list_byte_of_string s.

(** [m.decode("utf-8")].  Every byte below 128 decodes to the character of
    the same code; the model stops with [None] at a byte above 127, which
    the patterns of this program never match. *)
Fixpoint decode_utf8 (l : bytes) : option string :=
  match l with
  | [] => Some EmptyString
  | x :: l' =>
      if (Byte.to_nat x <? 128)%nat
      then String (ascii_of_byte x) <$> decode_utf8 l'
      else None
  end.

End Py.

(* ===================================================================== *)
(** * The fragment of [re] the program uses                                *)
(* ===================================================================== *)

(** The four patterns of the source are built from character classes,
    a greedy [+] over a class, concatenation and a lookahead [(?=...)].
    [re.search] is the backtracking matcher: leftmost start, and at each
    start the longest run of a greedy [+] that lets the rest succeed. *)
Module Re.

Section Matcher.
Context {A : Type}.

Inductive re : Type :=
  | Class (f : A → bool)        (* [...] or a literal character *)
  | Plus (f : A → bool)         (* [...]+, greedy *)
  | Cat (r1 r2 : re)
  | Ahead (r : re).             (* (?=r) *)

(** Zero or more elements of the class, longest first; [k] is what is
    left of the pattern. *)
Fixpoint greedy {R : Type} (f : A → bool) (s : list A)
    (k : list A → option R) : option R :=
  match s with
  | x :: s' =>
      if f x then
        match greedy f s' k with
        | Some r => Some r
        | None => k s
        end
      else k s
  | [] => k []
  end.

(** [run r s k]: match [r] at the head of [s], then hand the rest of
    the input to [k]; backtrack into [r] when [k] fails. *)
Fixpoint run {R : Type} (r : re) (s : list A) (k : list A → option R) : option R :=
  match r with
  | Class f =>
      match s with
      | x :: s' => if f x then k s' else None
      | [] => None
      end
  | Plus f =>
      match s with
      | x :: s' => if f x then greedy f s' k else None
      | [] => None
      end
  | Cat r1 r2 => run r1 s (fun s' => run r2 s' k)
  | Ahead r' =>
      match run r' s (fun _ => Some tt) with
      | Some _ => k s
      | None => None
      end
  end.

(** The text matched at the head of [s], if any. *)
Definition match_at (r : re) (s : list A) : option (list A) :=
  match run r s Some with
  | Some rest => Some (take (length s - length rest)%nat s)
  | None => None
  end.

(** [re.search(r, s)], as the matched text ([m.group()]) or [None]. *)
Fixpoint search (r : re) (s : list A) : option (list A) :=
  match match_at r s with
  | Some m => Some m
  | None =>
      match s with
      | [] => None
      | _ :: s' => search r s'
      end
  end.

(** A literal string of the pattern, element by element. *)
Fixpoint lits (eqb : A → A → bool) (l : list A) (r : re) : re :=
  match l with
  | [] => r
  | c :: l' => Cat (Class (eqb c)) (lits eqb l' r)
  end.

End Matcher.

Arguments re : clear implicits.

(** Classes over bytes and over characters. *)
Definition byte_in (l : string) (x : byte) : bool :=
  existsb (Byte.eqb x) (list_byte_of_string l).
Definition char_in (l : string) (c : ascii) : bool :=
  existsb (Ascii.eqb c) (list_ascii_of_string l).

Definition digits : string := "0123456789".

(** [re.search] over [str]. *)
Definition search_str (r : re ascii) (s : string) : option string :=
  string_of_list_ascii <$> search r (list_ascii_of_string s).

End Re.

(* ===================================================================== *)
(** * The document tree ([bs4])                                            *)
(* ===================================================================== *)

Module Soup.

(** A parsed document: tags with a name, the tokens of their [class]
    attribute (the parser keeps [class] as the list of its
    whitespace-separated values), their other attributes as a dictionary
    of strings, and their children; and the strings between tags. *)
Inductive element : Type :=
  | Tag (name : string) (classes : list string)
        (attrs : gmap string string) (contents : list element)
  | NavigableString (text : string).

(** Everything below an element, in document order. *)
Fixpoint descendants (e : element) : list element :=
  match e with
  | Tag _ _ _ cs =>
      (fix below (l : list element) : list element :=
         match l with
         | [] => []
         | c :: l' => c :: descendants c ++ below l'
         end) cs
  | NavigableString _ => []
  end.

(** [attrs={"class": cls}]: one of the tag's class tokens is [cls], or the
    tokens joined by single spaces are. *)
Definition class_matches (cls : string) (classes : list string) : bool :=
  existsb (String.eqb cls) classes || String.eqb (Py.join " " classes) cls.

Definition tag_matches (name : string) (cls : option string) (e : element) : bool :=
  match e with
  | Tag n classes _ _ =>
      String.eqb n name &&
      match cls with
      | Some c => class_matches c classes
      | None => true
      end
  | NavigableString _ => false
  end.

(** [e.findAll(name, attrs={"class": cls})] *)
Definition findAll (name : string) (cls : option string) (e : element) : list element :=
  filter (fun d => Is_true (tag_matches name cls d)) (descendants e).

(** [e.find(name, attrs={"class": cls})]: the first hit or [None]. *)
Definition find (name : string) (cls : option string) (e : element) : option element :=
  head (findAll name cls e).

(** [e.get_text()] and [e.text]: the strings below [e], concatenated. *)
Definition get_text (e : element) : string :=
  match e with
  | NavigableString s => s
  | Tag _ _ _ _ =>
      fold_right (fun d acc =>
                    match d with
                    | NavigableString s => s +:+ acc
                    | Tag _ _ _ _ => acc
                    end) EmptyString (descendants e)
  end.

(** [e.get(key)] for an attribute other than [class]. *)
Definition get (key : string) (e : element) : option string :=
  match e with
  | Tag _ _ attrs _ => attrs !! key
  | NavigableString _ => None
  end.

End Soup.

(* ===================================================================== *)
(** * The file system                                                      *)
(* ===================================================================== *)

(** One tree holds every file: the installation directory, the archive and
    the extraction folder live in the same store, so that deleting or
    moving one entry shows in every path that runs through it.  A path is
    the list of its components, the root first; [os.path.join(p, name)] is
    [p ++ [name]].  The component [".."] is resolved on the text of the
    path, as Windows does, before the tree is consulted.  An operation that
    raises leaves the tree as it was: the program installs no handler, so
    nothing runs after the exception. *)
Module Fs.

Import Py.

Inductive node : Type :=
  | File (data : bytes)
  | Dir (entries : gmap string node).

Definition path := list string.

(** ** Paths *)

Definition norm_step (stack : path) (c : string) : path :=
  if String.eqb c ".." then tail stack
  else if String.eqb c "." || String.eqb c EmptyString then stack
  else c :: stack.

(** The components of a path with empty ones, ["."] and [".."] resolved. *)
Definition norm (p : path) : path := reverse (fold_left norm_step p []).

(** A component that names an entry. *)
Definition plain (c : string) : Prop := c ≠ ".." ∧ c ≠ "." ∧ c ≠ EmptyString.

Global Instance plain_dec (c : string) : Decision (plain c).
Proof. unfold plain. apply _. Defined.

(** Two paths part ways: after a common start, each goes on with a
    component of its own. *)
Definition diverge (p q : path) : Prop :=
  ∃ c a b p' q', p = c ++ a :: p' ∧ q = c ++ b :: q' ∧ a ≠ b.

(** [os.path.dirname] *)
Definition dirname (p : path) : path := removelast p.

Definition is_sep (c : ascii) : bool :=
  Ascii.eqb c "\"%char || Ascii.eqb c "/"%char.

Fixpoint parse_from (cur : string) (s : string) : path :=
  match s with
  | EmptyString => [cur]
  | String c s' =>
      if is_sep c then cur :: parse_from EmptyString s'
      else parse_from (cur +:+ String c EmptyString) s'
  end.

(** The components of a path given as text; both separators of Windows
    are accepted.  Paths are read from the root of the tree, and a drive
    name is a component like any other.  A relative path is read from the
    root as well, whatever the working directory is, and a [..] at its
    start is dropped: a path is used as the program was given it, and no
    statement below compares a relative path with its absolute form. *)
Definition parse (s : string) : path := norm (parse_from EmptyString s).

(** The text of a path. *)
Definition render (p : path) : string := join "\" p.

(** [p.endswith(suffix)] on the text of a path: the test reads the end of
    its last component. *)
Definition path_endswith (p : path) (suffix : string) : bool :=
  match last p with
  | Some c => endswith c suffix
  | None => false
  end.

(** ** Reading and writing the tree *)

Fixpoint get (p : path) (n : node) : option node :=
  match p with
  | [] => Some n
  | c :: p' =>
      match n with
      | Dir m => m !! c ≫= get p'
      | File _ => None
      end
  end.

(** [put p o n]: the entry at [p] becomes [o] ([None] removes it, with all
    that is below).  Nothing changes when the directory that should hold
    the entry is missing. *)
Fixpoint put (p : path) (o : option node) (n : node) : node :=
  match p with
  | [] => default n o
  | c :: p' =>
      match n with
      | Dir m =>
          match p' with
          | [] => Dir (partial_alter (fun _ => o) c m)
          | _ :: _ =>
              match m !! c with
              | Some child => Dir (<[c := put p' o child]> m)
              | None => n
              end
          end
      | File _ => n
      end
  end.

(** What [put (c :: p) o] makes of the entry [c] of a directory, given
    what the entry was. *)
Definition entry_after (p : path) (o : option node) (old : option node)
    : option node :=
  match p with
  | [] => o
  | _ :: _ => put p o <$> old
  end.

(** ** [os] and [shutil] *)

Definition exists_ (p : path) (fs : node) : bool :=
  match get (norm p) fs with Some _ => true | None => false end.

Definition isdir (p : path) (fs : node) : bool :=
  match get (norm p) fs with Some (Dir _) => true | _ => false end.

(** [os.listdir]: the names of a directory, each once, in the order the
    dictionary enumerates them. *)
Definition listdir (p : path) (fs : node) : result (list string) :=
  match get (norm p) fs with
  | Some (Dir m) => Ok (map_to_list m).*1
  | Some (File _) => Raise NotADirectoryError
  | None => Raise FileNotFoundError
  end.

(** [open(p, "rb").read()] *)
Definition read (p : path) (fs : node) : result bytes :=
  match get (norm p) fs with
  | Some (File data) => Ok data
  | Some (Dir _) => Raise PermissionError
  | None => Raise FileNotFoundError
  end.

(** [open(p, "wb")] followed by [write(data)] *)
Definition write (p : path) (data : bytes) (fs : node) : result node :=
  match get (norm p) fs, get (removelast (norm p)) fs with
  | Some (Dir _), _ => Raise PermissionError
  | _, Some (Dir _) => Ok (put (norm p) (Some (File data)) fs)
  | _, _ => Raise FileNotFoundError
  end.

(** [os.remove] *)
Definition remove (p : path) (fs : node) : result node :=
  match get (norm p) fs with
  | Some (File _) => Ok (put (norm p) None fs)
  | Some (Dir _) => Raise PermissionError
  | None => Raise FileNotFoundError
  end.

(** [shutil.rmtree]; the root itself cannot be removed. *)
Definition rmtree (p : path) (fs : node) : result node :=
  match norm p, get (norm p) fs with
  | [], _ => Raise PermissionError
  | _, Some (Dir _) => Ok (put (norm p) None fs)
  | _, Some (File _) => Raise NotADirectoryError
  | _, None => Raise FileNotFoundError
  end.

(** [os.rename(s, t)] with the fallbacks of [shutil.move] for a target
    that is not an existing directory: a file replaces a file, a directory
    cannot go below itself, and the target's directory has to exist. *)
Definition rename (s t : path) (n : node) (fs : node) : result node :=
  if bool_decide (s = t) then Ok fs
  else if bool_decide (s `prefix_of` t) then Raise ShutilError
  else
    match get t fs, n with
    | Some _, Dir _ => Raise FileExistsError
    | _, _ =>
        match get (removelast t) (put s None fs) with
        | Some (Dir _) => Ok (put t (Some n) (put s None fs))
        | _ => Raise FileNotFoundError
        end
    end.

(** [shutil.move(src, dst)]: into [dst] when it is an existing directory,
    onto [dst] otherwise. *)
Definition move (src dst : path) (fs : node) : result node :=
  let s := norm src in
  let t := norm dst in
  match get s fs with
  | None => Raise FileNotFoundError
  | Some n =>
      match get t fs, last s with
      | Some (Dir _), Some name =>
          if bool_decide (s = t) then Ok fs
          else if exists_ (t ++ [name]) fs then Raise ShutilError
          else rename s (t ++ [name]) n fs
      | _, _ => rename s t n fs
      end
  end.

End Fs.

(* ===================================================================== *)
(** * The program                                                          *)
(* ===================================================================== *)

Module Updater.

Import Py Soup.

(** ** The world the program runs in *)

(** What a server answers: the body and the [Content-Length] header when
    it sends one. *)
Record response : Type := {
  body : bytes;
  content_length : option Z
}.

(** What an observer sees of a run. *)
Inductive event : Type :=
  | Printed (text : string)          (* console output *)
  | Requested (url : string)         (* an HTTP request *)
  | Spawned (command : string).      (* a child process *)

Record world : Type := {
  fs : Fs.node;
  cwd : string;                                    (* [os.getcwd()] *)
  resource_dir : Fs.path;                          (* where [7zr.exe] lies *)
  web : nat → string → option response;            (* answer to the k-th request;
                                                      [None]: unreachable *)
  html_parser : bytes → element;                   (* [bs4.BeautifulSoup] *)
  archiver : bytes → option (gmap string Fs.node); (* what [7zr x] unpacks *)
  stdin : list string;                             (* lines typed *)
  recursion_limit : nat;                           (* nested calls still admitted *)
  trace : list event                               (* events so far, oldest first *)
}.

Definition with_fs (f : Fs.node) (w : world) : world :=
  {| fs := f; cwd := cwd w; resource_dir := resource_dir w; web := web w;
     html_parser := html_parser w; archiver := archiver w; stdin := stdin w;
     recursion_limit := recursion_limit w; trace := trace w |}.

Definition with_stdin (l : list string) (w : world) : world :=
  {| fs := fs w; cwd := cwd w; resource_dir := resource_dir w; web := web w;
     html_parser := html_parser w; archiver := archiver w; stdin := l;
     recursion_limit := recursion_limit w; trace := trace w |}.

Definition log (e : event) (w : world) : world :=
  {| fs := fs w; cwd := cwd w; resource_dir := resource_dir w; web := web w;
     html_parser := html_parser w; archiver := archiver w; stdin := stdin w;
     recursion_limit := recursion_limit w; trace := trace w ++ [e] |}.

Definition is_request (e : event) : bool :=
  match e with Requested _ => true | _ => false end.

(** How many requests the run has made. *)
Definition requests (w : world) : nat :=
  length (List.filter is_request (trace w)).

(** A statement: it runs in a world, returns or raises, and leaves a world. *)
Definition M (A : Type) : Type := world → result A * world.

Definition ret {A} (a : A) : M A := fun w => (Ok a, w).

Definition bind {A B} (c : M A) (f : A → M B) : M B := fun w =>
  match c w with
  | (Ok a, w') => f a w'
  | (Raise e, w') => (Raise e, w')
  end.

Notation "x <- c ;; k" := (bind c (fun x => k))
  (at level 20, c at level 99, k at level 200, only parsing).

Definition raise {A} (e : exn) : M A := fun w => (Raise e, w).

(** A pure computation that may raise. *)
Definition lift {A} (r : result A) : M A := fun w => (r, w).

(** A query of the file system. *)
Definition ask {A} (f : Fs.node → A) : M A := fun w => (Ok (f (fs w)), w).

(** A file-system call that may raise. *)
Definition query {A} (f : Fs.node → result A) : M A := fun w => (f (fs w), w).

(** A file-system call that changes the tree.  A call that raises leaves
    the tree as it was before the call. *)
Definition change (f : Fs.node → result Fs.node) : M unit := fun w =>
  match f (fs w) with
  | Ok fs' => (Ok tt, with_fs fs' w)
  | Raise e => (Raise e, w)
  end.

Definition emit (e : event) : M unit := fun w => (Ok tt, log e w).

Definition nl : string := String (ascii_of_nat 10) EmptyString.
Definition cr : string := String (ascii_of_nat 13) EmptyString.
Definition tab : string := String (ascii_of_nat 9) EmptyString.

(** [print] with explicit [sep] and [end] *)
Definition print_with (sep end_ : string) (args : list string) : M unit :=
  emit (Printed (join sep args +:+ end_)).

(** [print] with the default separator and line end *)
Definition print (args : list string) : M unit := print_with " " nl args.

(** [input(prompt)] *)
Definition input (prompt : string) : M string := fun w =>
  let w' := log (Printed prompt) w in
  match stdin w' with
  | line :: rest => (Ok line, with_stdin rest w')
  | [] => (Raise EOFError, w')
  end.

(** [str(x)] where [x] may be [None] *)
Definition str_of (x : option string) : string :=
  match x with Some s => s | None => "None" end.

(** [urllib.request.urlopen(url).read()] *)
Definition urlopen_read (url : string) : M bytes := fun w =>
  let k := requests w in
  let w' := log (Requested url) w in
  match web w k url with
  | Some r => (Ok (body r), w')
  | None => (Raise URLError, w')
  end.

(** ** colorama *)

Definition ESC : string := String (ascii_of_nat 27) EmptyString.
Definition END : string := ESC +:+ "[0m".
Definition CYAN : string := ESC +:+ "[36m".
Definition GREEN : string := ESC +:+ "[32m".

(** ** [fetch_html_from_website] *)

Definition fetch_html_from_website (url : string) : M element :=
  html <- urlopen_read url ;;
  fun w => (Ok (html_parser w html), w).

(** ** class [Builds] *)

Inductive variant : Type := Dolphin | Ishiiruka.

(** The attributes of a [Builds] object.  [table], [latest_download] and
    [latest_version] hold [None] when the search that fills them finds
    nothing. *)
Record Builds : Type := {
  kind : variant;
  path : string;
  table : option element;
  latest_download : option string;
  latest_version : option string;
  installed_version : string
}.

(** [Builds.is_outdated] *)
Definition is_outdated (self : Builds) : bool :=
  negb (py_eqb (latest_version self) (Some (installed_version self))).

(** An attribute access or method call on a value that may be [None]. *)
Definition attr {A} (x : option A) : result A :=
  match x with
  | Some a => Ok a
  | None => Raise AttributeError
  end.

(** A [for] loop whose body may [return]: [Some v] leaves the function
    with [v], [None] goes on with the next element; [otherwise] is the
    value of the function when the loop runs to its end. *)
Fixpoint for_return {A B} (l : list A) (body : A → result (option B))
    (otherwise : B) : result B :=
  match l with
  | [] => Ok otherwise
  | a :: l' =>
      match body a with
      | Ok None => for_return l' body otherwise
      | Ok (Some v) => Ok v
      | Raise e => Raise e
      end
  end.

(** A [for] loop of statements. *)
Fixpoint for_do {A} (l : list A) (body : A → M unit) : M unit :=
  match l with
  | [] => ret tt
  | a :: l' => _ <- body a ;; for_do l' body
  end.

(** [s.ljust(width)], the padding of the format field [{:<width}] *)
Definition ljust (width : nat) (s : string) : string :=
  s +:+ string_of_list_ascii (repeat " "%char (width - String.length s)).

(** [s.split(sep)[0]]: the text before the first [sep] *)
Fixpoint before (sep : string) (s : string) : string :=
  if String.prefix sep s then EmptyString
  else match s with
       | EmptyString => EmptyString
       | String c s' => String c (before sep s')
       end.

(** ** class [DolphinBuilds] *)

Module DolphinBuilds.

Definition url : string :=
  "https://dolphin-emu.org/download/list/master/1/?nocr=true".

Definition fetch_version_table : M (option element) :=
  soup <- fetch_html_from_website url ;;
  ret (find "table" (Some "versions-list") soup).

Definition get_latest_version (table : option element)
    (latest_download : option string) : result (option string) :=
  t ← attr table;
  for_return (findAll "tr" (Some "infos") t)
    (fun tr =>
       td ← attr (find "td" (Some "version") tr);
       a ← attr (find "a" None td);
       match latest_download with
       | None => Raise TypeError
       | Some link =>
           if str_in (get_text a) link
           then Ok (Some (Some (get_text a)))
           else Ok None
       end)
    None.

Definition get_latest_download (table : option element)
    : result (option string) :=
  t ← attr table;
  for_return (findAll "tr" (Some "download") t)
    (fun tr =>
       td ← attr (find "td" (Some "download-links") tr);
       match find "a" (Some "win") td with
       | Some a => Ok (Some (get "href" a))
       | None => Ok None
       end)
    None.

(** The pattern [[4|5]\.0-[0-9]+] over bytes. *)
Definition version_re : Re.re byte :=
  Re.Cat (Re.Class (Re.byte_in "4|5"))
         (Re.lits Byte.eqb (b ".0-") (Re.Plus (Re.byte_in Re.digits))).

Definition get_installed_version (path : string) : M string :=
  data <- query (Fs.read (Fs.parse path)) ;;
  m <- lift (attr (Re.search version_re data)) ;;
  match decode_utf8 m with
  | Some s => ret s
  | None => raise UnicodeDecodeError
  end.

Definition print_latest_version (self : Builds) : M unit :=
  _ <- print ["Current master builds:"] ;;
  t <- lift (attr (table self)) ;;
  for_do (findAll "tr" (Some "infos") t)
    (fun row =>
       version <- lift (td ← attr (find "td" (Some "version") row);
                        a ← attr (find "a" None td);
                        Ok (get_text a)) ;;
       change <- lift (get_text <$> attr (find "td" (Some "description") row)) ;;
       time <- lift (get_text <$> attr (find "td" (Some "reldate") row)) ;;
       let build := ljust 10 version +:+ " | " +:+ ljust 20 time +:+ " | "
                    +:+ before " (" change in
       if String.eqb version (installed_version self)
       then print [CYAN; tab; build; END]
       else if py_eqb (Some version) (latest_version self)
       then print [GREEN; tab; build; END]
       else print [tab; build]).

End DolphinBuilds.

(** ** class [IshiirukaBuilds] *)

Module IshiirukaBuilds.

Definition url : string :=
  "https://www.dropbox.com/sh/7f78x2czhknfrmr/AADhXhA0b8EIcCyejITS697Ca?dl=0".

(** The method calls itself while the container is missing.  [depth] is
    the number of nested calls the interpreter still admits; a call
    beyond it raises [RecursionError]. *)
Fixpoint fetch_version_table (depth : nat) : M (option element) :=
  match depth with
  | O => raise RecursionError
  | S depth' =>
      soup <- fetch_html_from_website url ;;
      match find "div" (Some "gallery-view-section") soup with
      | None =>
          _ <- print ["Failed fetching DropBox links. Trying again ..."] ;;
          fetch_version_table depth'
      | Some table => ret (Some table)
      end
  end.

(** The pattern [[0-9]+(?=\([^)]+\)\.x64\.7z)] over text. *)
Definition file_re : Re.re ascii :=
  Re.Cat (Re.Plus (Re.char_in Re.digits))
    (Re.Ahead
       (Re.Cat (Re.Class (Ascii.eqb "("))
          (Re.Cat (Re.Plus (fun c => negb (Ascii.eqb c ")")))
             (Re.lits Ascii.eqb (list_ascii_of_string ").x64.7")
                (Re.Class (Ascii.eqb "z")))))).

Definition file_links (t : element) : list element :=
  findAll "a" (Some "file-link filename-link") t.

Definition get_latest_version (table : option element)
    (latest_download : option string) : result (option string) :=
  t ← attr table;
  for_return (file_links t)
    (fun file =>
       match Re.search_str file_re (get_text file) with
       | Some version => Ok (Some (Some version))
       | None => Ok None
       end)
    None.

Definition get_latest_download (table : option element)
    : result (option string) :=
  t ← attr table;
  for_return (file_links t)
    (fun file =>
       match Re.search_str file_re (get_text file) with
       | Some _ =>
           match get "href" file with
           | Some href => Ok (Some (Some (drop_last href +:+ "1")))
           | None => Raise TypeError
           end
       | None => Ok None
       end)
    None.

(** The pattern [[0-9]+(?=\([^)]+\)[\x00]+master)] over bytes. *)
Definition version_re : Re.re byte :=
  Re.Cat (Re.Plus (Re.byte_in Re.digits))
    (Re.Ahead
       (Re.Cat (Re.Class (Byte.eqb "("))
          (Re.Cat (Re.Plus (fun c => negb (Byte.eqb c ")")))
             (Re.Cat (Re.Class (Byte.eqb ")"))
                (Re.Cat (Re.Plus (Byte.eqb "000"))
                   (Re.lits Byte.eqb (b "maste")
                      (Re.Class (Byte.eqb "r")))))))).

Definition get_installed_version (path : string) : M string :=
  data <- query (Fs.read (Fs.parse path)) ;;
  m <- lift (attr (Re.search version_re data)) ;;
  match decode_utf8 m with
  | Some s => ret s
  | None => raise UnicodeDecodeError
  end.

Definition print_latest_version (self : Builds) : M unit :=
  print ["Latest build:" +:+ tab +:+ tab +:+ tab; GREEN;
         str_of (latest_version self); END].

End IshiirukaBuilds.

(** ** [Builds.__init__] *)

(** The methods a subclass supplies. *)
Record methods : Type := {
  fetch_version_table : M (option element);
  get_latest_version : option element → option string → result (option string);
  print_latest_version : Builds → M unit;
  get_latest_download : option element → result (option string);
  get_installed_version : string → M string
}.

Definition class_of (k : variant) : methods :=
  match k with
  | Dolphin =>
      {| fetch_version_table := DolphinBuilds.fetch_version_table;
         get_latest_version := DolphinBuilds.get_latest_version;
         print_latest_version := DolphinBuilds.print_latest_version;
         get_latest_download := DolphinBuilds.get_latest_download;
         get_installed_version := DolphinBuilds.get_installed_version |}
  | Ishiiruka =>
      {| fetch_version_table := fun w =>
           IshiirukaBuilds.fetch_version_table (recursion_limit w) w;
         get_latest_version := IshiirukaBuilds.get_latest_version;
         print_latest_version := IshiirukaBuilds.print_latest_version;
         get_latest_download := IshiirukaBuilds.get_latest_download;
         get_installed_version := IshiirukaBuilds.get_installed_version |}
  end.

(** The constructor: one fetch of the listing, then the three searches in
    the order of the source. *)
Definition init (k : variant) (path : string) : M Builds :=
  table <- fetch_version_table (class_of k) ;;
  latest_download <- lift (get_latest_download (class_of k) table) ;;
  latest_version <- lift (get_latest_version (class_of k) table latest_download) ;;
  installed_version <- get_installed_version (class_of k) path ;;
  ret {| kind := k; path := path; table := table;
         latest_download := latest_download;
         latest_version := latest_version;
         installed_version := installed_version |}.

(** ** Module-level functions *)

(** The pattern [Ishiiruka] over bytes. *)
Definition ishiiruka_re : Re.re byte :=
  Re.lits Byte.eqb (b "Ishiiruk") (Re.Class (Byte.eqb "a")).

Definition is_ishiiruka_build (path : string) : M bool :=
  data <- query (Fs.read (Fs.parse path)) ;;
  ret (bool_decide (is_Some (Re.search ishiiruka_re data))).

Definition get_resource_path (relative_path : string) : M Fs.path :=
  fun w => (Ok (resource_dir w ++ [relative_path]), w).

(** [int(a / b)]: the quotient of two integers, truncated toward zero.
    Python rounds [a / b] to a double first; below [2^53] the truncation
    of that double is the truncated quotient.  Above, the double can
    differ from the quotient in its low digits, and a quotient beyond the
    doubles raises [OverflowError]; the rounding is monotone, so bounds on
    the quotient are bounds on what Python computes.  A zero divisor
    raises. *)
Definition int_truediv (a b : Z) : result Z :=
  if b =? 0 then Raise ZeroDivisionError else Ok (Z.quot a b).

Definition download_report_hook (count block_size total_size : Z) : M unit :=
  percent <- lift (int_truediv (count * block_size * 100) total_size) ;;
  print_with " " EmptyString [cr +:+ "Downloading... "; str_of_int percent; "%"].

(** [urllib.request.urlretrieve(url, filename, reporthook)]: the request,
    the target file opened for writing, the hook called once before the
    first block and once after each block of 8192 bytes, and the check of
    the length the server declared ([-1] stands for no declaration). *)
Definition bs : Z := 8192.

Fixpoint report_blocks (reporthook : Z → Z → Z → M unit) (blocks : nat)
    (blocknum size : Z) : M unit :=
  match blocks with
  | O => ret tt
  | S blocks' =>
      _ <- reporthook blocknum bs size ;;
      report_blocks reporthook blocks' (blocknum + 1) size
  end.

Definition urlretrieve (url : option string) (filename : Fs.path)
    (reporthook : Z → Z → Z → M unit) : M unit :=
  match url with
  | None => raise TypeError
  | Some u =>
      k <- (fun w => (Ok (requests w), w)) ;;
      _ <- emit (Requested u) ;;
      answer <- (fun w => (Ok (web w k u), w)) ;;
      match answer with
      | None => raise URLError
      | Some r =>
          _ <- change (Fs.write filename []) ;;
          let size := default (-1) (content_length r) in
          let read := Z.of_nat (length (body r)) in
          _ <- reporthook 0 bs size ;;
          _ <- report_blocks reporthook (Z.to_nat ((read + bs - 1) / bs)) 1 size ;;
          _ <- change (Fs.write filename (body r)) ;;
          if (0 <=? size) && (read <? size) then raise ContentTooShortError
          else ret tt
      end
  end.

Definition download (url : option string) (file_path : Fs.path) : M unit :=
  urlretrieve url file_path download_report_hook.

Definition dquote : string := String (ascii_of_nat 34) EmptyString.

(** [subprocess.Popen(call, ...).communicate()] for the archiver: the
    child unpacks the archive into the target folder; its messages are
    captured and dropped, and so is its failure on a file it cannot read. *)
Definition run_archiver (tool file_name extracted_folder : Fs.path) : M unit :=
  let call := Fs.render tool +:+ " x " +:+ dquote +:+ Fs.render file_name
              +:+ dquote +:+ " -o" +:+ dquote +:+ Fs.render extracted_folder
              +:+ dquote +:+ " -aoa" in
  present <- ask (Fs.exists_ tool) ;;
  if negb present then raise FileNotFoundError
  else
    _ <- emit (Spawned call) ;;
    fun w =>
      match Fs.read file_name (fs w) with
      | Ok data =>
          match archiver w data with
          | Some tree =>
              (Ok tt, with_fs (Fs.put (Fs.norm extracted_folder)
                                 (Some (Fs.Dir tree)) (fs w)) w)
          | None => (Ok tt, w)
          end
      | Raise _ => (Ok tt, w)
      end.

Definition extract_dolphin_7z (file_name extracted_folder : Fs.path) : M unit :=
  present <- ask (Fs.exists_ extracted_folder) ;;
  _ <- (if present then change (Fs.rmtree extracted_folder) else ret tt) ;;
  tool <- get_resource_path "7zr.exe" ;;
  run_archiver tool file_name extracted_folder.

Definition packed_folder_name : string := "Dolphin-x64".

(** The body of the loop of [update_dolphin], for one [file]. *)
Definition replace_entry (directory extracted_folder : Fs.path)
    (file : string) (fs : Fs.node) : result Fs.node :=
  let old_file := directory ++ [file] in
  let new_file := extracted_folder ++ [file] in
  fs ← (if Fs.exists_ old_file fs
        then if Fs.isdir old_file fs
             then Fs.rmtree old_file fs
             else Fs.remove old_file fs
        else Ok fs);
  Fs.move new_file old_file fs.

(** [update_dolphin]: the disk after a call that returns.  A call that
    raises yields the exception alone: in the program the entries that the
    loop has deleted and moved by then stay deleted and moved, and what a
    failed install leaves on the disk is not stated below. *)
Definition update_dolphin (directory extracted_folder : Fs.path)
    (fs : Fs.node) : result Fs.node :=
  files_to_move ← Fs.listdir extracted_folder fs;
  '(extracted_folder, files_to_move) ←
    (if bool_decide (files_to_move = [packed_folder_name])
     then
       let extracted_folder := extracted_folder ++ [packed_folder_name] in
       files_to_move ← Fs.listdir extracted_folder fs;
       Ok (extracted_folder, files_to_move)
     else Ok (extracted_folder, files_to_move));
  fs ← for_each files_to_move (replace_entry directory extracted_folder) fs;
  let extracted_folder :=
    if Fs.path_endswith extracted_folder packed_folder_name
    then extracted_folder ++ [".."]
    else extracted_folder in
  Fs.rmtree extracted_folder fs.

Definition download_and_update (builds : Builds) : M unit :=
  let directory := Fs.dirname (Fs.parse (path builds)) in
  let dolphin_7z_path := directory ++ ["Dolphin.7z"] in
  let extracted_folder := directory ++ ["Extracted"] in
  _ <- print [] ;;
  _ <- download (latest_download builds) dolphin_7z_path ;;
  _ <- print [nl +:+ "Extracting..."] ;;
  _ <- extract_dolphin_7z dolphin_7z_path extracted_folder ;;
  _ <- print ["Updating..."] ;;
  _ <- change (update_dolphin directory extracted_folder) ;;
  change (Fs.remove dolphin_7z_path).

Definition update_dolphin_if_necessary (dolphin_exe_path : string) : M unit :=
  _ <- print ["You are updating:" +:+ tab +:+ tab; CYAN; dolphin_exe_path; END] ;;
  ishiiruka <- is_ishiiruka_build dolphin_exe_path ;;
  builds <- init (if ishiiruka then Ishiiruka else Dolphin) dolphin_exe_path ;;
  if is_outdated builds then
    _ <- print ["Current version installed:" +:+ tab; CYAN;
                installed_version builds; END] ;;
    _ <- print_latest_version (class_of (kind builds)) builds ;;
    answer <- input ("Press Enter to update" +:+ nl) ;;
    if String.eqb answer EmptyString then download_and_update builds
    else ret tt
  else ret tt.

(** [os.path.abspath(name)] for a bare file name *)
Definition abspath (name : string) : M string := fun w =>
  (Ok (if endswith (cwd w) "\" then cwd w +:+ name
       else cwd w +:+ "\" +:+ name), w).

(** [subprocess.Popen(path)] *)
Definition Popen (path : string) : M unit :=
  present <- ask (Fs.exists_ (Fs.parse path)) ;;
  if present then emit (Spawned path) else raise FileNotFoundError.

(** [main]; [path_argument] is the value given to [-p]/[--path], [None]
    when the flag is left out. *)
Definition main (path_argument : option string) : M unit :=
  default_path <- abspath "Dolphin.exe" ;;
  let dolphin_exe_path := default default_path path_argument in
  if negb (endswith dolphin_exe_path "Dolphin.exe") then
    _ <- print ["Path must end with 'Dolphin.exe'"] ;;
    raise (SystemExit 1)
  else
    present <- ask (Fs.exists_ (Fs.parse dolphin_exe_path)) ;;
    if negb present then
      _ <- print_with EmptyString nl
             ["No Dolphin.exe found at '"; dolphin_exe_path; "'"] ;;
      raise (SystemExit 1)
    else
      _ <- update_dolphin_if_necessary dolphin_exe_path ;;
      Popen dolphin_exe_path.

End Updater.

(* ===================================================================== *)
(** * What the specification says, and worlds to run the program in        *)
(* ===================================================================== *)

(** Definitions that follow the words of the specification where it
    departs from the source; the properties compare them with the code. *)
Module Spec.

Import Py.

(** "a byte pattern matching [{4,5}.0-<digits>]": a [4] or a [5], then
    [.0-], then one or more digits. *)
Definition version_re : Re.re byte :=
  Re.Cat (Re.Class (Re.byte_in "45"))
         (Re.lits Byte.eqb (b ".0-") (Re.Plus (Re.byte_in Re.digits))).

(** "returns the first match decoded as text.  Fails with
    [NotFoundError] if no match." *)
Definition installed_version (content : bytes) : result string :=
  match Re.search version_re content with
  | Some m =>
      match decode_utf8 m with
      | Some s => Ok s
      | None => Raise UnicodeDecodeError
      end
  | None => Raise NotFoundError
  end.

(** "caps it at a small fixed number, e.g. 3" *)
Definition retry_cap : nat := 3.




End Spec.

(** Concrete worlds, sample documents, and the predicates the statements
    are written with. *)
Module Worlds.

Import Py Soup Updater.

(** Nothing on the disk but the root, no server, no input. *)
Definition bare : world :=
  {| fs := Fs.Dir ∅; cwd := "C:\emu"; resource_dir := ["C:"; "emu"];
     web := fun _ _ => None;
     html_parser := fun _ => NavigableString EmptyString;
     archiver := fun _ => None; stdin := []; recursion_limit := 1000;
     trace := [] |}.

(** A disk that holds one file, [Dolphin.exe], with the given bytes. *)
Definition binary (content : bytes) : world :=
  with_fs (Fs.Dir {[ "Dolphin.exe" := Fs.File content ]}) bare.

(** The text of the bytes, one character per byte. *)
Definition text_of (m : bytes) : string :=
  string_of_list_ascii (ascii_of_byte <$> m).

(** The marker the source's pattern takes besides the specification's:
    a bar in the place of the leading digit, [\|\.0-[0-9]+]. *)
Definition bar_version_re : Re.re byte :=
  Re.Cat (Re.Class (Byte.eqb "|"))
         (Re.lits Byte.eqb (b ".0-") (Re.Plus (Re.byte_in Re.digits))).

(** A disk with [Dolphin.exe] and a server whose every answer parses to
    the document [doc]. *)
Definition serving (doc : element) (content : bytes) : world :=
  {| fs := Fs.Dir {[ "Dolphin.exe" := Fs.File content ]};
     cwd := "C:\emu"; resource_dir := ["C:"; "emu"];
     web := fun _ _ => Some {| body := []; content_length := None |};
     html_parser := fun _ => doc;
     archiver := fun _ => None; stdin := []; recursion_limit := 1000;
     trace := [] |}.

Definition anchor (classes : list string) (href text : string) : element :=
  Tag "a" classes {[ "href" := href ]} [NavigableString text].

(** A folder page of the community fork with two files. *)
Definition gallery : element :=
  Tag "div" ["gallery-view-section"] ∅
    [ anchor ["file-link"; "filename-link"]
        "https://www.dropbox.com/sh/7f78/readme.txt?dl=0" "readme.txt";
      anchor ["file-link"; "filename-link"]
        "https://www.dropbox.com/sh/7f78/Ishiiruka.7z?dl=0"
        "Ishiiruka 1177(57a2b2a).x64.7z" ].

Definition gallery_page : element := Tag "html" [] ∅ [gallery].

(** A mainline listing: for each release a row of class [infos] and a row
    of class [download]. *)
Definition release_rows (version href : string) (win : bool) : list element :=
  [ Tag "tr" ["infos"] ∅
      [ Tag "td" ["version"] ∅
          [Tag "a" [] {[ "href" := "/download/dev/" +:+ version ]}
             [NavigableString version]];
        Tag "td" ["reldate"] ∅ [NavigableString "1 day ago"];
        Tag "td" ["description"] ∅ [NavigableString "Fix (PR #1)"] ];
    Tag "tr" ["download"] ∅
      [ Tag "td" ["download-links"] ∅
          (if win then [anchor ["btn"; "win"] href "Windows x64"]
           else [anchor ["btn"; "mac"] href "macOS"]) ] ].

Definition versions_list (rows : list element) : element :=
  Tag "table" ["versions-list"] ∅ rows.

Definition listing : element :=
  versions_list
    (release_rows "5.0-19500"
       "https://dl.dolphin-emu.org/builds/dolphin-master-5.0-19500-x64.7z" true
     ++ release_rows "5.0-19000"
       "https://dl.dolphin-emu.org/builds/dolphin-master-5.0-19000-x64.7z" true).

Definition listing_page : element := Tag "html" [] ∅ [listing].

(** A listing whose only row is a download row without a Windows link. *)
Definition listing_without_win : element :=
  versions_list
    [ Tag "tr" ["download"] ∅
        [ Tag "td" ["download-links"] ∅
            [anchor ["btn"; "mac"] "https://dl.dolphin-emu.org/x.dmg" "macOS"] ] ].

(** What the k-th request for the folder page of the community fork
    yields: [None] when the host is unreachable, [Some None] for a page
    without the gallery container, [Some (Some t)] for a page with it. *)
Definition container_at (w : world) (k : nat) : option (option element) :=
  (fun r => find "div" (Some "gallery-view-section") (html_parser w (body r)))
    <$> web w k IshiirukaBuilds.url.

Definition empty_page : element := Tag "html" [] ∅ [].

(** A server whose first [n] answers lack the container and whose later
    answers carry it. *)
Definition flaky (n : nat) : world :=
  {| fs := Fs.Dir ∅; cwd := "C:\emu"; resource_dir := ["C:"; "emu"];
     web := fun k _ =>
       Some {| body := if (k <? n)%nat then [] else [x01];
               content_length := None |};
     html_parser := fun body =>
       match body with [] => empty_page | _ :: _ => gallery_page end;
     archiver := fun _ => None; stdin := []; recursion_limit := 1000;
     trace := [] |}.

(** A listing with one release that has no Windows build. *)
Definition listing_mac_only : element :=
  versions_list
    (release_rows "5.0-19500"
       "https://dl.dolphin-emu.org/builds/dolphin-master-5.0-19500.dmg" false).

(** Every download row of the table has its cell of links, and no cell
    holds an anchor of class [win]. *)
Definition no_win_link (t : element) : Prop :=
  ∀ tr, tr ∈ findAll "tr" (Some "download") t →
        ∃ td, find "td" (Some "download-links") tr = Some td
              ∧ find "a" (Some "win") td = None.

(** A disk for the install step: the installation directory [emu] with
    an old build and, inside it, the folder [Extracted] as the archiver
    left it. *)
Definition new_files : gmap string Fs.node :=
  <[ "Dolphin.exe" := Fs.File (b "new build") ]>
    {[ "Sys" := Fs.Dir {[ "GC" := Fs.Dir ∅ ]} ]}.

Definition old_files : gmap string Fs.node :=
  <[ "Dolphin.exe" := Fs.File (b "old build") ]>
    (<[ "User" := Fs.Dir {[ "Config" := Fs.Dir ∅ ]} ]>
       {[ "Sys" := Fs.Dir {[ "Wii" := Fs.Dir ∅ ]} ]}).

Definition extracted (files : gmap string Fs.node) : Fs.node :=
  Fs.Dir {[ packed_folder_name := Fs.Dir files ]}.

Definition disk : Fs.node :=
  Fs.Dir {[ "emu" := Fs.Dir (<[ "Extracted" := extracted new_files ]> old_files) ]}.

(** The same with an archive that has an entry called [Extracted]. *)
Definition disk_clash : Fs.node :=
  Fs.Dir {[ "emu" :=
    Fs.Dir (<[ "Extracted" :=
               extracted (<[ "Extracted" := Fs.File (b "notes") ]> new_files) ]>
              old_files) ]}.

(** A binary of the community fork: the name, and the build number in
    front of the commit, NUL bytes and the branch. *)
Definition ishiiruka_binary : bytes :=
  b "MZ Ishiiruka " ++ b "891(57a2b2a)" ++ ["000"%byte; "000"%byte]
    ++ b "master".

(** A listing whose newest release has no Windows build yet. *)
Definition listing_mixed : element :=
  versions_list
    (release_rows "5.0-19500"
       "https://dl.dolphin-emu.org/builds/dolphin-master-5.0-19500.dmg" false
     ++ release_rows "5.0-19000"
       "https://dl.dolphin-emu.org/builds/dolphin-master-5.0-19000-x64.7z" true).






(** A page without the table of versions. *)
Definition maintenance_page : element :=
  Tag "html" [] ∅ [Tag "p" [] ∅ [NavigableString "Back soon"]].

(** A listing whose Windows link does not carry the version in its name. *)
Definition listing_renamed : element :=
  versions_list
    (release_rows "5.0-19500"
       "https://dl.dolphin-emu.org/builds/dolphin-latest-x64.7z" true).

(** The disk and the pending input of [w'] are those of [w]. *)
Definition untouched (w w' : world) : Prop :=
  fs w' = fs w ∧ stdin w' = stdin w.

(** A statement that leaves the disk and the input alone, whether it
    returns or raises. *)
Definition read_only {A : Type} (c : M A) : Prop :=
  ∀ w, untouched w (snd (c w)).

(** A statement that reads no input, whether it returns or raises. *)
Definition keeps_input {A : Type} (c : M A) : Prop :=
  ∀ w, stdin (snd (c w)) = stdin w.

(** A statement that only adds to the record of events, and one whose
    first addition is the event [e]; both whether it returns or raises. *)
Definition grows {A : Type} (c : M A) : Prop :=
  ∀ w, trace w `prefix_of` trace (snd (c w)).

Definition starts_with {A : Type} (e : event) (c : M A) : Prop :=
  ∀ w, (trace w ++ [e]) `prefix_of` trace (snd (c w)).

(** The machine of [w'] is that of [w]: same server, parser, archiver
    and directories; the disk, the input and the trace may differ. *)
Definition same_machine (w w' : world) : Prop :=
  web w' = web w ∧ html_parser w' = html_parser w
  ∧ archiver w' = archiver w ∧ resource_dir w' = resource_dir w
  ∧ cwd w' = cwd w ∧ recursion_limit w' = recursion_limit w.

(** The server declared a length and sent fewer bytes. *)
Definition too_short (r : response) : bool :=
  (0 <=? default (-1) (content_length r))
  && (Z.of_nat (length (body r)) <? default (-1) (content_length r)).

(** An installation that is one build behind, with the archiver next to
    the binary, a server that sends an archive of ten bytes, an archiver
    that unpacks it to [Dolphin-x64] with the new files, and an operator
    who presses Enter. *)
Definition installed_files : gmap string Fs.node :=
  <[ "Dolphin.exe" := Fs.File (b "MZ 5.0-19000") ]>
    (<[ "7zr.exe" := Fs.File (b "MZ 7-Zip") ]>
       (<[ "User" := Fs.Dir {[ "Config" := Fs.Dir ∅ ]} ]>
          {[ "Sys" := Fs.Dir {[ "Wii" := Fs.Dir ∅ ]} ]})).

Definition archive_response : response :=
  {| body := b "7z-archive"; content_length := Some 10 |}.

Definition updating : world :=
  {| fs := Fs.Dir {[ "emu" := Fs.Dir installed_files ]};
     cwd := "emu"; resource_dir := ["emu"];
     web := fun _ _ => Some archive_response;
     html_parser := fun _ => listing_page;
     archiver := fun _ => Some {[ packed_folder_name := Fs.Dir new_files ]};
     stdin := [EmptyString]; recursion_limit := 1000;
     trace := [] |}.

(** The same installation once the archive has arrived, with an
    archiver that unpacks it, and with one that cannot read it. *)
Definition downloaded_files : gmap string Fs.node :=
  <[ "Dolphin.7z" := Fs.File (b "7z-archive") ]> installed_files.


Definition corrupt : world :=
  {| fs := Fs.Dir {[ "emu" := Fs.Dir downloaded_files ]};
     cwd := "emu"; resource_dir := ["emu"];
     web := fun _ _ => Some archive_response;
     html_parser := fun _ => listing_page;
     archiver := fun _ => None;
     stdin := [EmptyString]; recursion_limit := 1000;
     trace := [] |}.

(** Disks for the install step with other shapes of the archive: one that
    unpacked flat, one that unpacked to a file called [Dolphin-x64], and a
    flat one in an extraction folder that is itself called [Dolphin-x64]. *)
Definition disk_flat : Fs.node :=
  Fs.Dir {[ "emu" := Fs.Dir (<[ "Extracted" := Fs.Dir new_files ]> old_files) ]}.

Definition disk_lone_file : Fs.node :=
  Fs.Dir {[ "emu" :=
    Fs.Dir (<[ "Extracted" :=
               Fs.Dir {[ packed_folder_name := Fs.File (b "not a folder") ]} ]>
              old_files) ]}.

Definition disk_named_like_archive : Fs.node :=
  Fs.Dir {[ "emu" :=
    Fs.Dir (<[ packed_folder_name := Fs.Dir new_files ]> old_files) ]}.

(** What the constructor has found for the installation of [updating]. *)
Definition pending : Builds :=
  {| kind := Dolphin; path := "emu\Dolphin.exe";
     table := Some listing_page;
     latest_download :=
       Some "https://dl.dolphin-emu.org/builds/dolphin-master-5.0-19500-x64.7z";
     latest_version := Some "5.0-19500";
     installed_version := "5.0-19000" |}.

(** What follows the leading character in the version patterns. *)
Definition version_tail : Re.re byte :=
  Re.lits Byte.eqb (b ".0-") (Re.Plus (Re.byte_in Re.digits)).

(** A byte that is a character on its own in UTF-8. *)
Definition seven_bit (x : byte) : Prop := (Byte.to_nat x < 128)%nat.

End Worlds.

(* ===================================================================== *)
(** * Properties                                                           *)
(* ===================================================================== *)

Import Py Soup Updater.

Local Open Scope string_scope.
Local Open Scope list_scope.

(** ** Facts about strings *)

Section StringFacts.

Lemma append_nil_l (s : string) : EmptyString +:+ s = s.
Proof. reflexivity. Qed.

Lemma append_cons (c : ascii) (s t : string) :
  String c s +:+ t = String c (s +:+ t).
Proof. reflexivity. Qed.




Lemma drop_last_snoc (s : string) (c : ascii) :
  drop_last (s +:+ String c EmptyString) = s.
Proof.
  induction s as [|c' s IH]; [done|].
  rewrite append_cons.
  change (drop_last (String c' (s +:+ String c EmptyString)))
    with (match s +:+ String c EmptyString with
          | EmptyString => EmptyString
          | String _ _ => String c' (drop_last (s +:+ String c EmptyString))
          end).
  rewrite IH. destruct s; reflexivity.
Qed.

End StringFacts.

(** ** The version comparison *)

(** C1.  For a [Builds] object that holds the strings [latest] and
    [installed], [is_outdated()] is true exactly when the two strings are
    not the same string: the comparison is equality of text, nothing is
    parsed or ordered. *)
Theorem is_outdated_iff_strings_differ
    (k : variant) (p : string) (t : option element) (link : option string)
    (latest installed : string) :
  is_outdated {| kind := k; path := p; table := t; latest_download := link;
                 latest_version := Some latest;
                 installed_version := installed |} = true
  ↔ latest ≠ installed.
Proof.
  unfold is_outdated. simpl.
  destruct (String.eqb_spec latest installed) as [->|Hne]; simpl.
  - split; [discriminate | congruence].
  - split; [done | reflexivity].
Qed.

(** Two versions that a version-aware comparison would equate are still
    told apart. *)
Example is_outdated_padding :
  is_outdated {| kind := Dolphin; path := "Dolphin.exe"; table := None;
                 latest_download := None;
                 latest_version := Some "5.0-019000";
                 installed_version := "5.0-19000" |} = true.
Proof. reflexivity. Qed.

(** A listing without a version leaves [None] in [latest_version], and
    [None] differs from every string. *)
Lemma is_outdated_without_latest (b : Builds) :
  latest_version b = None → is_outdated b = true.
Proof. unfold is_outdated. by intros ->. Qed.

(** ** Progress reporting *)

(** C4.  With a total size of zero the hook raises [ZeroDivisionError]
    before it prints anything: no progress line, and no return. *)
Theorem download_report_hook_zero_total (count block_size : Z) (w : world) :
  download_report_hook count block_size 0 w = (Raise ZeroDivisionError, w).
Proof. reflexivity. Qed.

(** Every other total lets the hook return after one line of output. *)
Lemma download_report_hook_returns (count block_size total_size : Z) (w : world) :
  total_size ≠ 0 →
  ∃ line, download_report_hook count block_size total_size w
          = (Ok tt, log (Printed line) w).
Proof.
  intros H. unfold download_report_hook, bind, lift, int_truediv.
  destruct (Z.eqb_spec total_size 0) as [|_]; [done|].
  eexists. reflexivity.
Qed.

(** A server that declares a length of zero stops the download at the
    first call of the hook; the target file has been created empty. *)
Lemma download_zero_length (u : string) (target : Fs.path) (w : world)
    (r : response) (fs' : Fs.node) :
  web w (requests w) u = Some r →
  content_length r = Some 0 →
  Fs.write target [] (fs w) = Ok fs' →
  download (Some u) target w
  = (Raise ZeroDivisionError, with_fs fs' (log (Requested u) w)).
Proof.
  intros Hweb Hlen Hwrite.
  unfold download, urlretrieve, bind, emit, change. simpl.
  rewrite Hweb. simpl. rewrite Hwrite, Hlen. reflexivity.
Qed.

(** A server that declares no length makes [urlretrieve] pass [-1]: the
    hook then prints the negated byte count as the percentage. *)
Example download_report_hook_no_length (w : world) :
  download_report_hook 3 8192 (-1) w
  = (Ok tt, log (Printed (cr +:+ "Downloading...  -2457600 %")) w).
Proof. reflexivity. Qed.

(** ** Facts about the matcher *)

Section MatcherFacts.
Context {A : Type}.
Implicit Types (r : Re.re A) (s : list A) (f : A → bool).

(** With nothing after it, a greedy run takes every leading element of
    its class and stops at the first that is not. *)
Lemma greedy_Some f s :
  ∃ run rest, s = run ++ rest ∧ Forall (fun x => f x = true) run
              ∧ Re.greedy f s Some = Some rest.
Proof.
  induction s as [|x s (run & rest & Hs & Hrun & IH)].
  - by exists [], [].
  - simpl. destruct (f x) eqn:Hf.
    + exists (x :: run), rest. rewrite IH, Hs. by repeat constructor.
    + exists [], (x :: s). by repeat constructor.
Qed.

(** What [re.search] returns is matched at some position, and nothing
    is matched at an earlier one. *)
Lemma search_leftmost r s m :
  Re.search r s = Some m →
  ∃ skipped rest, s = skipped ++ rest ∧ Re.match_at r rest = Some m
    ∧ ∀ i, (i < length skipped)%nat → Re.match_at r (drop i s) = None.
Proof.
  induction s as [|x s IH]; simpl.
  - destruct (Re.match_at r []) eqn:E; [|done]. intros [= <-].
    exists [], []. split_and!; [done|done|]. simpl. lia.
  - destruct (Re.match_at r (x :: s)) eqn:E.
    + intros [= <-]. exists [], (x :: s). split_and!; [done|done|].
      simpl. lia.
    + intros (skipped & rest & -> & Hm & Hno)%IH.
      exists (x :: skipped), rest. split_and!; [done|done|].
      intros [|i] Hi; [done|]. simpl in *. apply Hno. lia.
Qed.

Lemma search_None r s :
  Re.search r s = None →
  Re.match_at r s = None
  ∧ match s with [] => True | _ :: s' => Re.search r s' = None end.
Proof.
  destruct s; simpl; destruct (Re.match_at r _); by try done.
Qed.

(** Two patterns that differ in their first class only. *)
Lemma match_at_class f g r x s :
  f x = g x →
  Re.match_at (Re.Cat (Re.Class f) r) (x :: s)
  = Re.match_at (Re.Cat (Re.Class g) r) (x :: s).
Proof. intros H. unfold Re.match_at. simpl. by rewrite H. Qed.

Lemma match_at_class_false f r x s :
  f x = false → Re.match_at (Re.Cat (Re.Class f) r) (x :: s) = None.
Proof. intros H. unfold Re.match_at. simpl. by rewrite H. Qed.

Lemma match_at_class_nil f r : Re.match_at (Re.Cat (Re.Class f) r) [] = None.
Proof. reflexivity. Qed.

End MatcherFacts.

(** ** The installed version of a mainline build *)

Section InstalledVersion.

Lemma byte_in_seven_bit (l : string) (x : byte) :
  Forall Worlds.seven_bit (list_byte_of_string l) →
  Re.byte_in l x = true → Worlds.seven_bit x.
Proof.
  unfold Re.byte_in. intros Hl (y & Hy & Heq)%existsb_exists.
  apply byte_dec_bl in Heq as ->.
  rewrite Forall_forall in Hl. apply Hl. by apply list_elem_of_In.
Qed.

(** A match of a pattern [first] [.0-] [digits]: its shape. *)
Lemma version_match_shape (first : byte → bool) (s m : bytes) :
  Re.match_at (Re.Cat (Re.Class first) Worlds.version_tail) s = Some m →
  ∃ c ds, m = c :: b ".0-" ++ ds ∧ first c = true
          ∧ Forall (fun x => Re.byte_in Re.digits x = true) ds.
Proof.
  unfold Re.match_at.
  destruct s as [|c [|x1 [|x2 [|x3 [|x4 s]]]]]; simpl;
    repeat (match goal with
            | |- context [if ?t then _ else _] => destruct t eqn:?
            end; simpl); try done.
  destruct (greedy_Some (Re.byte_in Re.digits) s) as (ds & rest & -> & Hds & ->).
  intros [= <-].
  repeat match goal with
         | H : Byte.eqb _ _ = true |- _ => apply byte_dec_bl in H; subst
         end.
  exists c, (x4 :: ds). split_and!; [|done|by constructor].
  rewrite length_app.
  replace (S (S (S (S (S (length ds + length rest)))))
           - length rest)%nat with (5 + length ds)%nat by lia.
  simpl. by rewrite take_app_length.
Qed.

Lemma decode_seven_bit (m : bytes) :
  Forall Worlds.seven_bit m → decode_utf8 m = Some (Worlds.text_of m).
Proof.
  unfold Worlds.text_of. induction 1 as [|x m Hx _ IH]; [done|].
  simpl. unfold Worlds.seven_bit in Hx.
  destruct (Nat.ltb_spec (Byte.to_nat x) 128); [|lia].
  by rewrite IH.
Qed.

Lemma version_match_decodes (first : string) (s m : bytes) :
  Forall Worlds.seven_bit (list_byte_of_string first) →
  Re.match_at (Re.Cat (Re.Class (Re.byte_in first)) Worlds.version_tail) s = Some m →
  decode_utf8 m = Some (Worlds.text_of m).
Proof.
  intros Hfirst (c & ds & -> & Hc & Hds)%version_match_shape.
  apply decode_seven_bit. constructor.
  - by eapply byte_in_seven_bit.
  - apply Forall_app. split.
    + repeat constructor; unfold Worlds.seven_bit; simpl; lia.
    + eapply Forall_impl; [exact Hds|]. intros x Hx.
      eapply byte_in_seven_bit; [|exact Hx].
      repeat constructor; unfold Worlds.seven_bit; simpl; lia.
Qed.

(** Where no bar-led marker occurs, the source's pattern finds what the
    specification's pattern finds. *)
Lemma search_without_bar (content : bytes) :
  Re.search Worlds.bar_version_re content = None →
  Re.search DolphinBuilds.version_re content
  = Re.search Spec.version_re content.
Proof.
  induction content as [|x content IH]; [done|].
  intros [Hhere Hlater]%search_None. specialize (IH Hlater).
  change (Re.search DolphinBuilds.version_re (x :: content))
    with (match Re.match_at DolphinBuilds.version_re (x :: content) with
          | Some m => Some m
          | None => Re.search DolphinBuilds.version_re content
          end).
  change (Re.search Spec.version_re (x :: content))
    with (match Re.match_at Spec.version_re (x :: content) with
          | Some m => Some m
          | None => Re.search Spec.version_re content
          end).
  rewrite IH.
  destruct (Byte.eqb "|" x) eqn:Hbar.
  - apply byte_dec_bl in Hbar as <-.
    unfold DolphinBuilds.version_re, Spec.version_re.
    rewrite (match_at_class (Re.byte_in "4|5") (Byte.eqb "|")) by done.
    unfold Worlds.bar_version_re in Hhere. rewrite Hhere.
    by rewrite match_at_class_false.
  - unfold DolphinBuilds.version_re, Spec.version_re.
    rewrite (match_at_class (Re.byte_in "4|5") (Re.byte_in "45")); [done|].
    unfold Re.byte_in. simpl.
    destruct (Byte.eqb x "|") eqn:E; [|done].
    apply byte_dec_bl in E as ->. done.
Qed.

Lemma search_match_at {A} (r : Re.re A) (s m : list A) :
  Re.search r s = Some m → ∃ rest, Re.match_at r rest = Some m.
Proof. intros (? & rest & _ & H & _)%search_leftmost. eauto. Qed.

Lemma get_installed_version_eq (p : string) (w : world) (content : bytes) :
  Fs.read (Fs.parse p) (fs w) = Ok content →
  DolphinBuilds.get_installed_version p w
  = (match Re.search DolphinBuilds.version_re content with
     | Some m => Ok (Worlds.text_of m)
     | None => Raise AttributeError
     end, w).
Proof.
  intros Hread. unfold DolphinBuilds.get_installed_version, bind, query, lift.
  rewrite Hread.
  destruct (Re.search DolphinBuilds.version_re content) as [m|] eqn:E; [|done].
  simpl. apply search_match_at in E as [rest E].
  unfold DolphinBuilds.version_re in E.
  erewrite (version_match_decodes "4|5"); [done| |exact E].
  repeat constructor; unfold Worlds.seven_bit; simpl; lia.
Qed.

End InstalledVersion.

(** C5.  On a binary that holds no bar-led marker (no [|.0-] followed by
    a digit), the mainline [get_installed_version] returns the leftmost
    match of [{4,5}.0-<digits>] as text; when there is no match it raises
    [AttributeError], the failure of calling [group()] on [None]. *)
Theorem installed_version_without_bar
    (p : string) (w : world) (content : bytes) :
  Fs.read (Fs.parse p) (fs w) = Ok content →
  Re.search Worlds.bar_version_re content = None →
  DolphinBuilds.get_installed_version p w
  = (match Re.search Spec.version_re content with
     | Some m => Ok (Worlds.text_of m)
     | None => Raise AttributeError
     end, w).
Proof.
  intros Hread Hbar.
  rewrite (get_installed_version_eq p w content Hread).
  by rewrite search_without_bar.
Qed.

Lemma installed_version_without_bar_witness :
  DolphinBuilds.get_installed_version "Dolphin.exe"
    (Worlds.binary (b "MZ 5.0-19000 4.0-1"))
  = (Ok "5.0-19000", Worlds.binary (b "MZ 5.0-19000 4.0-1")).
Proof.
  exact (installed_version_without_bar "Dolphin.exe"
           (Worlds.binary (b "MZ 5.0-19000 4.0-1")) (b "MZ 5.0-19000 4.0-1")
           eq_refl eq_refl).
Defined.

(** The sentence of the specification fails on a binary without
    any marker: the source raises [AttributeError], the specification
    names [NotFoundError]. *)
Lemma installed_version_no_match_counterexample :
  fst (DolphinBuilds.get_installed_version "Dolphin.exe" (Worlds.binary []))
  = Raise AttributeError
  ∧ Spec.installed_version [] = Raise NotFoundError
  ∧ fst (DolphinBuilds.get_installed_version "Dolphin.exe" (Worlds.binary []))
    ≠ Spec.installed_version [].
Proof. split_and!; [reflexivity | reflexivity | discriminate]. Qed.

(** C9.  The class [[4|5]] of the source's pattern holds the bar: in a
    binary where [|.0-123] comes before the first [5.0-] marker,
    [get_installed_version] returns ["|.0-123"], which the pattern of the
    specification does not match; that pattern finds the later marker. *)
Theorem installed_version_accepts_bar :
  DolphinBuilds.get_installed_version "Dolphin.exe"
    (Worlds.binary (b "MZ|.0-123 5.0-456"))
  = (Ok "|.0-123", Worlds.binary (b "MZ|.0-123 5.0-456"))
  ∧ Re.match_at Spec.version_re (b "|.0-123 5.0-456") = None
  ∧ Re.search Spec.version_re (b "MZ|.0-123 5.0-456") = Some (b "5.0-456").
Proof. split_and!; reflexivity. Qed.

(** ** Loops that return *)

Section ForReturn.
Context {A B : Type}.
Implicit Types (l : list A) (body : A → result (option B)).

Lemma for_return_skip l1 l2 body (otherwise : B) :
  (∀ x, x ∈ l1 → body x = Ok None) →
  for_return (l1 ++ l2) body otherwise = for_return l2 body otherwise.
Proof.
  induction l1 as [|x l1 IH]; intros Hskip; [done|].
  simpl. rewrite (Hskip x) by left. apply IH.
  intros y Hy. apply Hskip. by right.
Qed.

Lemma for_return_first l1 a l2 body (otherwise v : B) :
  (∀ x, x ∈ l1 → body x = Ok None) →
  body a = Ok (Some v) →
  for_return (l1 ++ a :: l2) body otherwise = Ok v.
Proof. intros Hskip Ha. rewrite for_return_skip by done. simpl. by rewrite Ha. Qed.


Lemma for_return_end l body (otherwise : B) :
  (∀ x, x ∈ l → body x = Ok None) →
  for_return l body otherwise = Ok otherwise.
Proof.
  intros Hskip. rewrite <- (app_nil_r l). by rewrite for_return_skip.
Qed.

(** A loop that returned either left at some element, after skipping all
    before it, or ran to its end. *)
Lemma for_return_Ok l body (otherwise v : B) :
  for_return l body otherwise = Ok v →
  (∃ l1 a l2, l = l1 ++ a :: l2 ∧ (∀ x, x ∈ l1 → body x = Ok None)
              ∧ body a = Ok (Some v))
  ∨ (v = otherwise ∧ ∀ x, x ∈ l → body x = Ok None).
Proof.
  induction l as [|x l IH]; simpl.
  - intros [= <-]. right. split; [done|]. intros x Hx. by apply elem_of_nil in Hx.
  - destruct (body x) as [[v'|]|e] eqn:Hx; [| |done].
    + intros [= <-]. left. exists [], x, l. split_and!; [done| |done].
      intros y Hy. by apply elem_of_nil in Hy.
    + intros [(l1 & a & l2 & -> & Hskip & Ha)|[-> Hskip]]%IH.
      * left. exists (x :: l1), a, l2. split_and!; [done| |done].
        intros y [->|Hy]%elem_of_cons; auto.
      * right. split; [done|]. intros y [->|Hy]%elem_of_cons; auto.
Qed.

End ForReturn.

(** ** The download link of the community fork *)

(** C7.  When the first file link of the listing whose text matches
    [<digits>(<anything>).x64.7z] carries the address [href] followed by
    one more character [c], [get_latest_download] returns [href] followed
    by ["1"]: the last character is replaced, the rest is kept. *)
Theorem latest_download_rewrites_last_char
    (t : element) (earlier : list element) (a : element) (later : list element)
    (version href : string) (c : ascii) :
  IshiirukaBuilds.file_links t = earlier ++ a :: later →
  (∀ e, e ∈ earlier →
        Re.search_str IshiirukaBuilds.file_re (get_text e) = None) →
  Re.search_str IshiirukaBuilds.file_re (get_text a) = Some version →
  get "href" a = Some (href +:+ String c EmptyString) →
  IshiirukaBuilds.get_latest_download (Some t) = Ok (Some (href +:+ "1")).
Proof.
  intros Hlinks Hearlier Ha Hhref.
  unfold IshiirukaBuilds.get_latest_download. simpl. rewrite Hlinks.
  apply for_return_first.
  - intros e He. by rewrite (Hearlier e He).
  - by rewrite Ha, Hhref, drop_last_snoc.
Qed.

Lemma latest_download_rewrites_last_char_witness :
  IshiirukaBuilds.get_latest_download (Some Worlds.gallery)
  = Ok (Some "https://www.dropbox.com/sh/7f78/Ishiiruka.7z?dl=1").
Proof.
  apply (latest_download_rewrites_last_char Worlds.gallery
           [Worlds.anchor ["file-link"; "filename-link"]
              "https://www.dropbox.com/sh/7f78/readme.txt?dl=0" "readme.txt"]
           (Worlds.anchor ["file-link"; "filename-link"]
              "https://www.dropbox.com/sh/7f78/Ishiiruka.7z?dl=0"
              "Ishiiruka 1177(57a2b2a).x64.7z")
           [] "1177" "https://www.dropbox.com/sh/7f78/Ishiiruka.7z?dl=" "0").
  - reflexivity.
  - intros e He. apply list_elem_of_singleton in He. rewrite He. reflexivity.
  - reflexivity.
  - reflexivity.
Defined.

(** An address of one character comes back as ["1"], an empty one too. *)
Example latest_download_empty_href :
  IshiirukaBuilds.get_latest_download
    (Some (Tag "div" [] ∅
             [Worlds.anchor ["file-link"; "filename-link"] EmptyString "7(a).x64.7z"]))
  = Ok (Some "1").
Proof. reflexivity. Qed.

(** ** A mainline listing without a Windows link *)

Section WithoutWin.
Variable t : element.

Lemma get_latest_download_without_win :
  Worlds.no_win_link t → DolphinBuilds.get_latest_download (Some t) = Ok None.
Proof.
  intros Hrows. unfold DolphinBuilds.get_latest_download, mbind, result_bind, attr.
  apply for_return_end. intros tr (td & Htd & Hwin)%Hrows.
  by rewrite Htd, Hwin.
Qed.

Lemma get_latest_version_of_None (tr : element) (rest : list element)
    (td a : element) :
  findAll "tr" (Some "infos") t = tr :: rest →
  find "td" (Some "version") tr = Some td →
  find "a" None td = Some a →
  DolphinBuilds.get_latest_version (Some t) None = Raise TypeError.
Proof.
  intros Hrows Htd Ha.
  unfold DolphinBuilds.get_latest_version, mbind, result_bind, attr.
  rewrite Hrows. cbn [for_return]. by rewrite Htd, Ha.
Qed.

Lemma get_latest_version_no_rows (link : option string) :
  findAll "tr" (Some "infos") t = [] →
  DolphinBuilds.get_latest_version (Some t) link = Ok None.
Proof.
  intros Hrows.
  unfold DolphinBuilds.get_latest_version, mbind, result_bind, attr.
  by rewrite Hrows.
Qed.

End WithoutWin.

(** C10.  On a mainline table whose download rows hold no anchor of class
    [win], [get_latest_download] returns [None] and raises nothing.  If
    the table has a row of class [infos], the first with a version cell
    and an anchor in it, [get_latest_version] raises [TypeError] on the
    membership test in [None], and so does the constructor; no
    [ParseError] is involved.  If the table has no such row at all,
    [get_latest_version] returns [None] without raising. *)
Theorem latest_download_None_then_TypeError (t : element) :
  Worlds.no_win_link t →
  DolphinBuilds.get_latest_download (Some t) = Ok None
  ∧ (∀ tr rest td a,
       findAll "tr" (Some "infos") t = tr :: rest →
       find "td" (Some "version") tr = Some td →
       find "a" None td = Some a →
       DolphinBuilds.get_latest_version (Some t) None = Raise TypeError
       ∧ ∀ p w w',
           DolphinBuilds.fetch_version_table w = (Ok (Some t), w') →
           init Dolphin p w = (Raise TypeError, w'))
  ∧ (findAll "tr" (Some "infos") t = [] →
     DolphinBuilds.get_latest_version (Some t) None = Ok None).
Proof.
  intros Hrows. split_and!.
  - by apply get_latest_download_without_win.
  - intros tr rest td a Hinfos Htd Ha.
    pose proof (get_latest_version_of_None t tr rest td a Hinfos Htd Ha) as Hv.
    split; [done|]. intros p w w' Hfetch.
    unfold init, bind, lift. cbn [class_of fetch_version_table
      get_latest_download get_latest_version].
    rewrite Hfetch, (get_latest_download_without_win t Hrows).
    by rewrite Hv.
  - by apply get_latest_version_no_rows.
Qed.

Lemma latest_download_None_then_TypeError_witness :
  (DolphinBuilds.get_latest_version (Some Worlds.listing_mac_only) None
   = Raise TypeError
   ∧ fst (init Dolphin "Dolphin.exe"
            (Worlds.serving (Tag "html" [] ∅ [Worlds.listing_mac_only])
               (b "MZ 5.0-19000")))
     = Raise TypeError)
  ∧ DolphinBuilds.get_latest_version (Some Worlds.listing_without_win) None
    = Ok None.
Proof.
  split.
  - assert (Worlds.no_win_link Worlds.listing_mac_only) as Hrows.
    { intros tr Htr. vm_compute in Htr.
      apply list_elem_of_singleton in Htr. rewrite Htr.
      eexists. split; reflexivity. }
    destruct (latest_download_None_then_TypeError Worlds.listing_mac_only Hrows)
      as (_ & Hraise & _).
    edestruct Hraise as [Hversion Hinit]; [reflexivity..|].
    split; [exact Hversion|].
    erewrite Hinit; reflexivity.
  - assert (Worlds.no_win_link Worlds.listing_without_win) as Hrows.
    { intros tr Htr. vm_compute in Htr.
      apply list_elem_of_singleton in Htr. rewrite Htr.
      eexists. split; reflexivity. }
    destruct (latest_download_None_then_TypeError Worlds.listing_without_win Hrows)
      as (_ & _ & Hversion).
    apply Hversion. reflexivity.
Defined.

(** The general statement fails on a table that has a download row and no
    row of class [infos]: [get_latest_download] returns [None], and
    [get_latest_version] returns [None] too instead of raising; the
    constructor goes on to read the binary and completes. *)
Lemma latest_version_no_rows_counterexample :
  DolphinBuilds.get_latest_download (Some Worlds.listing_without_win) = Ok None
  ∧ DolphinBuilds.get_latest_version (Some Worlds.listing_without_win) None
    ≠ Raise TypeError
  ∧ fst (init Dolphin "Dolphin.exe"
           (Worlds.serving (Tag "html" [] ∅ [Worlds.listing_without_win])
              (b "MZ 5.0-19000")))
    = Ok {| kind := Dolphin; path := "Dolphin.exe";
            table := Some Worlds.listing_without_win;
            latest_download := None; latest_version := None;
            installed_version := "5.0-19000" |}.
Proof. split_and!; [reflexivity | discriminate | reflexivity]. Qed.

(** ** The descriptor built by the constructor *)

(** The constructor returned: each of its four steps returned, one fed
    from the other. *)
Lemma init_Ok (k : variant) (p : string) (w w' : world) (builds : Builds) :
  init k p w = (Ok builds, w') →
  ∃ w1,
    fetch_version_table (class_of k) w = (Ok (table builds), w1)
    ∧ get_latest_download (class_of k) (table builds)
      = Ok (latest_download builds)
    ∧ get_latest_version (class_of k) (table builds) (latest_download builds)
      = Ok (latest_version builds)
    ∧ get_installed_version (class_of k) p w1
      = (Ok (installed_version builds), w')
    ∧ kind builds = k ∧ path builds = p.
Proof.
  unfold init, bind, lift, ret.
  destruct (fetch_version_table (class_of k) w) as [[t|e] w1]; [|done].
  destruct (get_latest_download (class_of k) t) as [link|e] eqn:Hl; [|done].
  destruct (get_latest_version (class_of k) t link) as [v|e] eqn:Hv; [|done].
  destruct (get_installed_version (class_of k) p w1) as [[i|e] w2] eqn:Hi;
    [|done].
  intros [= <- <-]. exists w1. by split_and!.
Qed.



Lemma requests_log_request (u : string) (w : world) :
  requests (log (Requested u) w) = S (requests w).
Proof.
  unfold requests, log. simpl. rewrite List.filter_app, length_app. simpl. lia.
Qed.







(** ** Fetching the listing of the community fork *)

Section Retry.

Lemma requests_log_printed (text : string) (w : world) :
  requests (log (Printed text) w) = requests w.
Proof.
  unfold requests, log. simpl. rewrite List.filter_app, length_app. simpl. lia.
Qed.

(** One round of the method on a page without the container: a request,
    a line on the console, and the nested call. *)
Lemma fetch_version_table_absent (depth : nat) (w : world) :
  Worlds.container_at w (requests w) = Some None →
  IshiirukaBuilds.fetch_version_table (S depth) w
  = IshiirukaBuilds.fetch_version_table depth
      (log (Printed ("Failed fetching DropBox links. Trying again ..." +:+ nl))
         (log (Requested IshiirukaBuilds.url) w)).
Proof.
  unfold Worlds.container_at. intros Hpage.
  cbn [IshiirukaBuilds.fetch_version_table].
  unfold bind at 1. unfold fetch_html_from_website, bind, urlopen_read.
  destruct (web w (requests w) IshiirukaBuilds.url) as [r|]; [|done].
  injection Hpage as Hpage. cbn [html_parser log]. rewrite Hpage.
  reflexivity.
Qed.

Lemma fetch_version_table_present (depth : nat) (w : world) (t : element) :
  Worlds.container_at w (requests w) = Some (Some t) →
  IshiirukaBuilds.fetch_version_table (S depth) w
  = (Ok (Some t), log (Requested IshiirukaBuilds.url) w).
Proof.
  unfold Worlds.container_at. intros Hpage.
  cbn [IshiirukaBuilds.fetch_version_table].
  unfold bind at 1. unfold fetch_html_from_website, bind, urlopen_read.
  destruct (web w (requests w) IshiirukaBuilds.url) as [r|]; [|done].
  injection Hpage as Hpage. cbn [html_parser log]. rewrite Hpage.
  reflexivity.
Qed.

(** An unreachable host ends the method with the library's [URLError]. *)
Lemma fetch_version_table_unreachable (depth : nat) (w : world) :
  Worlds.container_at w (requests w) = None →
  IshiirukaBuilds.fetch_version_table (S depth) w
  = (Raise URLError, log (Requested IshiirukaBuilds.url) w).
Proof.
  unfold Worlds.container_at. intros Hpage.
  cbn [IshiirukaBuilds.fetch_version_table].
  unfold bind at 1. unfold fetch_html_from_website, bind, urlopen_read.
  by destruct (web w (requests w) IshiirukaBuilds.url) as [r|].
Qed.

Lemma container_at_after_round (w : world) (k : nat) (text : string) :
  Worlds.container_at
    (log (Printed text) (log (Requested IshiirukaBuilds.url) w)) k
  = Worlds.container_at w k.
Proof. reflexivity. Qed.

Lemma requests_after_round (w : world) (text : string) :
  requests (log (Printed text) (log (Requested IshiirukaBuilds.url) w))
  = S (requests w).
Proof. by rewrite requests_log_printed, requests_log_request. Qed.

(** The container shows up at the [n]-th retry. *)
Lemma fetch_version_table_retries (n : nat) :
  ∀ (depth : nat) (w : world) (t : element),
    (n < depth)%nat →
    (∀ i, (i < n)%nat →
          Worlds.container_at w (requests w + i) = Some None) →
    Worlds.container_at w (requests w + n) = Some (Some t) →
    ∃ w', IshiirukaBuilds.fetch_version_table depth w = (Ok (Some t), w')
          ∧ requests w' = (requests w + S n)%nat.
Proof.
  induction n as [|n IH]; intros depth w t Hdepth Habsent Hpresent.
  - destruct depth as [|depth]; [lia|].
    rewrite Nat.add_0_r in Hpresent.
    rewrite (fetch_version_table_present depth w t Hpresent).
    eexists. split; [done|]. rewrite requests_log_request. lia.
  - destruct depth as [|depth]; [lia|].
    rewrite fetch_version_table_absent.
    2: { rewrite <- (Nat.add_0_r (requests w)). apply Habsent. lia. }
    edestruct (IH depth) as (w' & Hfetch & Hrequests); [lia| |  |].
    + intros i Hi. rewrite container_at_after_round, requests_after_round.
      replace (S (requests w) + i)%nat with (requests w + S i)%nat by lia.
      apply Habsent. lia.
    + rewrite container_at_after_round, requests_after_round.
      replace (S (requests w) + n)%nat with (requests w + S n)%nat by lia.
      exact Hpresent.
    + exists w'. split; [exact Hfetch|].
      rewrite Hrequests, requests_after_round. lia.
Qed.

(** The container never shows up. *)
Lemma fetch_version_table_exhausts (depth : nat) :
  ∀ (w : world),
    (∀ i, (i < depth)%nat →
          Worlds.container_at w (requests w + i) = Some None) →
    ∃ w', IshiirukaBuilds.fetch_version_table depth w = (Raise RecursionError, w')
          ∧ requests w' = (requests w + depth)%nat.
Proof.
  induction depth as [|depth IH]; intros w Habsent.
  - exists w. split; [done|]. lia.
  - rewrite fetch_version_table_absent.
    2: { rewrite <- (Nat.add_0_r (requests w)). apply Habsent. lia. }
    edestruct IH as (w' & Hfetch & Hrequests).
    + intros i Hi. rewrite container_at_after_round, requests_after_round.
      replace (S (requests w) + i)%nat with (requests w + S i)%nat by lia.
      apply Habsent. lia.
    + exists w'. split; [exact Hfetch|].
      rewrite Hrequests, requests_after_round. lia.
Qed.

End Retry.

(** C3.  [fetch_version_table] of the community fork has no bound of its
    own on its retries.  If the container is missing from the first [n]
    pages and present in the next, the method returns that container
    after [n] retries ([n + 1] requests), whatever [n] is, as long as the
    interpreter admits [n + 1] nested calls.  If the container is missing
    from every page, the method goes on until the interpreter's bound on
    nested calls is used up, [depth] requests in all, and ends with
    [RecursionError]; a missing container never makes it raise
    [NetworkError]. *)
Theorem fetch_version_table_unbounded_retry (depth : nat) (w : world) :
  (∀ n t,
     (n < depth)%nat →
     (∀ i, (i < n)%nat →
           Worlds.container_at w (requests w + i) = Some None) →
     Worlds.container_at w (requests w + n) = Some (Some t) →
     ∃ w', IshiirukaBuilds.fetch_version_table depth w = (Ok (Some t), w')
           ∧ requests w' = (requests w + S n)%nat)
  ∧ ((∀ i, Worlds.container_at w (requests w + i) = Some None) →
     ∃ w', IshiirukaBuilds.fetch_version_table depth w
           = (Raise RecursionError, w')
           ∧ requests w' = (requests w + depth)%nat).
Proof.
  split.
  - intros n t. apply fetch_version_table_retries.
  - intros Habsent. apply fetch_version_table_exhausts. auto.
Qed.

Lemma fetch_version_table_unbounded_retry_witness :
  (∃ w', IshiirukaBuilds.fetch_version_table 1000 (Worlds.flaky 5)
         = (Ok (Some Worlds.gallery), w')
         ∧ requests w' = 6%nat)
  ∧ (∃ w', IshiirukaBuilds.fetch_version_table 1000
             (Worlds.serving Worlds.empty_page [])
           = (Raise RecursionError, w')
           ∧ requests w' = 1000%nat).
Proof.
  split.
  - destruct (fetch_version_table_unbounded_retry 1000 (Worlds.flaky 5))
      as [Hretry _].
    apply (Hretry 5%nat Worlds.gallery).
    + lia.
    + intros i Hi.
      do 5 (destruct i as [|i]; [reflexivity|]). lia.
    + reflexivity.
  - destruct (fetch_version_table_unbounded_retry 1000
                (Worlds.serving Worlds.empty_page [])) as [_ Hnever].
    apply Hnever. intros i. reflexivity.
Defined.

(** The specification's bound, a cap of three retries followed by
    [NetworkError], fails on a server whose pages never carry the
    container: with a thousand nested calls admitted, the method makes a
    thousand requests and ends with [RecursionError]. *)
Lemma fetch_version_table_cap_counterexample :
  ∃ w', fetch_version_table (class_of Ishiiruka)
          (Worlds.serving Worlds.empty_page [])
        = (Raise RecursionError, w')
        ∧ Raise (A:=option element) RecursionError ≠ Raise NetworkError
        ∧ (1 + Spec.retry_cap < requests w')%nat.
Proof.
  destruct (fetch_version_table_exhausts 1000
              (Worlds.serving Worlds.empty_page []))
    as (w' & Hfetch & Hrequests); [intros i _; reflexivity|].
  exists w'. split_and!; [exact Hfetch | discriminate |].
  rewrite Hrequests. unfold Spec.retry_cap. simpl. lia.
Qed.

(** ** The entry point *)

(** C8.  A path argument that does not end with [Dolphin.exe] makes
    [main] print one line and leave with status 1; a path that ends with
    [Dolphin.exe] and names nothing on the disk does the same with
    another line.  In both cases the line is the only event of the run: no
    request is sent, nothing is read, no process is started. *)
Theorem main_rejects_path (p : string) (w : world) :
  (endswith p "Dolphin.exe" = false →
   main (Some p) w
   = (Raise (SystemExit 1),
      log (Printed ("Path must end with 'Dolphin.exe'" +:+ nl)) w))
  ∧ (endswith p "Dolphin.exe" = true →
     Fs.exists_ (Fs.parse p) (fs w) = false →
     main (Some p) w
     = (Raise (SystemExit 1),
        log (Printed (("No Dolphin.exe found at '" +:+ p +:+ "'") +:+ nl)) w)).
Proof.
  split.
  - intros Hend. unfold main, bind, abspath. simpl. by rewrite Hend.
  - intros Hend Hmissing. unfold main, bind, abspath, ask.
    cbv beta iota zeta. cbn [default from_option id]. rewrite Hend. cbn [negb].
    rewrite Hmissing. reflexivity.
Qed.

Lemma main_rejects_path_witness :
  main (Some "C:\emu\Foo.exe") Worlds.bare
  = (Raise (SystemExit 1),
     log (Printed ("Path must end with 'Dolphin.exe'" +:+ nl)) Worlds.bare)
  ∧ main (Some "C:\emu\Dolphin.exe") Worlds.bare
    = (Raise (SystemExit 1),
       log (Printed ("No Dolphin.exe found at 'C:\emu\Dolphin.exe'" +:+ nl))
         Worlds.bare).
Proof.
  split.
  - apply (main_rejects_path "C:\emu\Foo.exe" Worlds.bare). reflexivity.
  - apply (main_rejects_path "C:\emu\Dolphin.exe" Worlds.bare); reflexivity.
Defined.

(** After a rejected path the run has sent no request. *)
Lemma main_rejects_before_network (p : string) (w : world) :
  endswith p "Dolphin.exe" = false →
  requests (snd (main (Some p) w)) = requests w
  ∧ trace (snd (main (Some p) w))
    = trace w ++ [Printed ("Path must end with 'Dolphin.exe'" +:+ nl)].
Proof.
  intros Hend. unfold main, bind, abspath. simpl. rewrite Hend. simpl.
  split; [apply requests_log_printed | reflexivity].
Qed.

(** A whole run on an installation that is up to date: one request, no
    prompt, and the binary is started. *)
Example main_up_to_date :
  main (Some "Dolphin.exe")
    (Worlds.serving Worlds.listing_page (b "MZ 5.0-19500"))
  = (Ok tt,
     log (Spawned "Dolphin.exe")
       (log (Requested DolphinBuilds.url)
          (log (Printed ("You are updating:" +:+ tab +:+ tab +:+ " " +:+ CYAN
                         +:+ " Dolphin.exe " +:+ END +:+ nl))
             (Worlds.serving Worlds.listing_page (b "MZ 5.0-19500"))))).
Proof. reflexivity. Qed.

(** ** Facts about the file system *)

Section FsFacts.
Local Arguments Fs.put : simpl never.
Implicit Types (p q d x : Fs.path) (n : Fs.node) (o : option Fs.node)
  (m : gmap string Fs.node) (k : string).

(** *** Paths *)

Lemma norm_step_plain (stack : Fs.path) k :
  Fs.plain k → Fs.norm_step stack k = k :: stack.
Proof.
  intros (H1 & H2 & H3). unfold Fs.norm_step.
  destruct (String.eqb_spec k ".."); [done|].
  destruct (String.eqb_spec k "."); [done|].
  by destruct (String.eqb_spec k EmptyString).
Qed.

Lemma fold_norm_step_plain p (stack : Fs.path) :
  Forall Fs.plain p → fold_left Fs.norm_step p stack = reverse p ++ stack.
Proof.
  intros Hp. revert stack. induction Hp as [|k p Hk _ IH]; intros stack; [done|].
  simpl. rewrite norm_step_plain by done. rewrite IH, reverse_cons.
  by rewrite <- app_assoc.
Qed.

Lemma norm_plain p : Forall Fs.plain p → Fs.norm p = p.
Proof.
  intros Hp. unfold Fs.norm. rewrite fold_norm_step_plain by done.
  by rewrite app_nil_r, reverse_involutive.
Qed.

(** Going down one component and up again leads back. *)
Lemma norm_down_up p k :
  Forall Fs.plain p → Fs.plain k → Fs.norm ((p ++ [k]) ++ [".."]) = p.
Proof.
  intros Hp Hk. unfold Fs.norm. rewrite !fold_left_app. simpl.
  rewrite fold_norm_step_plain by done. rewrite (norm_step_plain _ k) by done.
  unfold Fs.norm_step. simpl. by rewrite app_nil_r, reverse_involutive.
Qed.

Lemma diverge_sym p q : Fs.diverge p q → Fs.diverge q p.
Proof.
  intros (c & a & b0 & p' & q' & -> & -> & Hne).
  exists c, b0, a, q', p'. by split_and!.
Qed.

Lemma diverge_app_r p q (s : Fs.path) : Fs.diverge p q → Fs.diverge p (q ++ s).
Proof.
  intros (c & a & b0 & p' & q' & -> & -> & Hne).
  exists c, a, b0, p', (q' ++ s). split_and!; [done| |done].
  by rewrite <- app_assoc.
Qed.

Lemma diverge_not_prefix p q : Fs.diverge p q → ¬ p `prefix_of` q.
Proof.
  intros (c & a & b0 & p' & q' & -> & -> & Hne) Hpre.
  apply prefix_app_inv in Hpre. by apply prefix_cons_inv_1 in Hpre.
Qed.

Lemma diverge_ne p q : Fs.diverge p q → p ≠ q.
Proof. intros Hd ->. by apply (diverge_not_prefix q q). Qed.

(** Two paths of which neither starts the other part ways. *)
Lemma not_prefix_diverge p : ∀ q,
  ¬ p `prefix_of` q → ¬ q `prefix_of` p → Fs.diverge p q.
Proof.
  induction p as [|a p IH]; intros q Hpq Hqp.
  - destruct Hpq. apply prefix_nil.
  - destruct q as [|b0 q]; [destruct Hqp; apply prefix_nil|].
    destruct (decide (a = b0)) as [->|Hne].
    + destruct (IH q) as (c & a' & b' & p' & q' & -> & -> & Hne).
      * intros H. apply Hpq. by apply prefix_cons.
      * intros H. apply Hqp. by apply prefix_cons.
      * exists (b0 :: c), a', b', p', q'. by split_and!.
    + exists [], a, b0, p, q. by split_and!.
Qed.

Lemma prefix_snoc_cases x d k :
  x `prefix_of` d ++ [k] → x `prefix_of` d ∨ x = d ++ [k].
Proof.
  intros [s Hs]. destruct s as [|k' s' _] using rev_ind.
  - right. by rewrite app_nil_r in Hs.
  - rewrite app_assoc in Hs. apply app_inj_tail in Hs as [-> _].
    left. by exists s'.
Qed.

(** The entry [d ++ [k]] and the folder [x]: what the theorem assumes
    makes them part ways. *)
Lemma entry_diverges d x k :
  ¬ x `prefix_of` d → ¬ (d ++ [k]) `prefix_of` x → Fs.diverge (d ++ [k]) x.
Proof.
  intros Hxd Hkx. apply not_prefix_diverge; [done|].
  intros [H| ->]%prefix_snoc_cases; [done|]. by apply Hkx.
Qed.

(** *** [get] and [put] *)

Lemma get_app p q n : Fs.get (p ++ q) n = Fs.get p n ≫= Fs.get q.
Proof.
  revert n. induction p as [|c p IH]; intros n; [done|].
  simpl. destruct n as [|m]; [done|].
  destruct (m !! c) as [child|]; [apply IH | done].
Qed.

Lemma get_snoc p k n v :
  Fs.get (p ++ [k]) n = Some v →
  ∃ m, Fs.get p n = Some (Fs.Dir m) ∧ m !! k = Some v.
Proof.
  rewrite get_app. destruct (Fs.get p n) as [[|m]|]; [done| |done].
  simpl. destruct (m !! k) eqn:E; [|done]. intros [= <-]. eauto.
Qed.

Lemma entry_after_below p o (old : option Fs.node) :
  p ≠ [] → Fs.entry_after p o old = Fs.put p o <$> old.
Proof. by destruct p. Qed.

Lemma put_cons c p o m :
  Fs.put (c :: p) o (Fs.Dir m) = Fs.Dir (partial_alter (Fs.entry_after p o) c m).
Proof.
  destruct p as [|c' p]; [done|].
  change (Fs.put (c :: c' :: p) o (Fs.Dir m))
    with (match m !! c with
          | Some child => Fs.Dir (<[c := Fs.put (c' :: p) o child]> m)
          | None => Fs.Dir m
          end).
  destruct (m !! c) as [child|] eqn:E; f_equal; apply map_eq; intros j;
    destruct (decide (c = j)) as [<-|Hne];
    rewrite ?lookup_partial_alter_eq, ?lookup_partial_alter_ne,
      ?lookup_insert_eq, ?lookup_insert_ne, ?E by done; done.
Qed.

Lemma put_file c p o data : Fs.put (c :: p) o (Fs.File data) = Fs.File data.
Proof. done. Qed.

Lemma get_put_diverge c : ∀ a b0 p q o n,
  a ≠ b0 →
  Fs.get (c ++ b0 :: q) (Fs.put (c ++ a :: p) o n) = Fs.get (c ++ b0 :: q) n.
Proof.
  induction c as [|c0 c IH]; intros a b0 p q o n Hne; destruct n as [data|m];
    try done.
  - simpl app. rewrite put_cons. simpl. by rewrite lookup_partial_alter_ne.
  - rewrite <- !app_comm_cons, put_cons. simpl.
    rewrite lookup_partial_alter_eq.
    rewrite entry_after_below by (by destruct c).
    destruct (m !! c0) as [child|]; [|done]. simpl. by apply IH.
Qed.

Lemma get_put_apart p q o n :
  Fs.diverge p q → Fs.get q (Fs.put p o n) = Fs.get q n.
Proof.
  intros (c & a & b0 & p' & q' & -> & -> & Hne). by apply get_put_diverge.
Qed.

Lemma entry_after_compose p q o o' (old : option Fs.node) :
  (∀ n, Fs.put p o (Fs.put q o' n) = Fs.put q o' (Fs.put p o n)) →
  p ≠ [] → q ≠ [] →
  Fs.entry_after p o (Fs.entry_after q o' old) = Fs.entry_after q o' (Fs.entry_after p o old).
Proof.
  intros Hcomm Hp Hq. rewrite !entry_after_below by done.
  destruct old; simpl; [|done]. by rewrite Hcomm.
Qed.

Lemma put_put_diverge c : ∀ a b0 p q o o' n,
  a ≠ b0 →
  Fs.put (c ++ a :: p) o (Fs.put (c ++ b0 :: q) o' n)
  = Fs.put (c ++ b0 :: q) o' (Fs.put (c ++ a :: p) o n).
Proof.
  induction c as [|c0 c IH]; intros a b0 p q o o' n Hne; destruct n as [data|m];
    try done.
  - simpl app. rewrite !put_cons. f_equal.
    by apply partial_alter_partial_alter_ne.
  - rewrite <- !app_comm_cons, !put_cons. f_equal.
    rewrite !partial_alter_partial_alter_eq.
    apply partial_alter_ext. intros old _. simpl.
    apply entry_after_compose; [|by destruct c..].
    intros n. by apply IH.
Qed.

Lemma put_put_apart p q o o' n :
  Fs.diverge p q →
  Fs.put p o (Fs.put q o' n) = Fs.put q o' (Fs.put p o n).
Proof.
  intros (c & a & b0 & p' & q' & -> & -> & Hne). by apply put_put_diverge.
Qed.

(** A later write at [x] hides an earlier write at or below [x]. *)
Lemma put_absorb x : ∀ q o o' n,
  x ≠ [] → Fs.put x o (Fs.put (x ++ q) o' n) = Fs.put x o n.
Proof.
  induction x as [|c x IH]; intros q o o' n Hx; [done|].
  destruct n as [data|m]; [done|].
  rewrite <- app_comm_cons, !put_cons. f_equal.
  rewrite partial_alter_partial_alter_eq. apply partial_alter_ext.
  intros old _. simpl. destruct x as [|c' x]; [done|].
  rewrite !entry_after_below by done.
  destruct old as [child|]; simpl; [|done].
  f_equal. by apply (IH q o o' child).
Qed.

Lemma put_put_same x o o' n : x ≠ [] → Fs.put x o (Fs.put x o' n) = Fs.put x o n.
Proof. intros Hx. rewrite <- (app_nil_r x) at 2. by apply put_absorb. Qed.

(** A write below [d] shows in [d] as the same write at the shorter path. *)
Lemma get_put_below d : ∀ q o n,
  q ≠ [] → Fs.get d (Fs.put (d ++ q) o n) = Fs.put q o <$> Fs.get d n.
Proof.
  induction d as [|c d IH]; intros q o n Hq; [done|].
  destruct n as [data|m]; [done|].
  rewrite <- app_comm_cons, put_cons. simpl.
  rewrite lookup_partial_alter_eq.
  rewrite entry_after_below by (by destruct d, q).
  destruct (m !! c) as [child|]; simpl; [|done]. by apply IH.
Qed.

Lemma get_put_entry d k o n m :
  Fs.get d n = Some (Fs.Dir m) →
  Fs.get d (Fs.put (d ++ [k]) o n)
  = Some (Fs.Dir (partial_alter (fun _ => o) k m)).
Proof. intros Hd. by rewrite get_put_below, Hd. Qed.

Lemma get_put_None p n : p ≠ [] → Fs.get p (Fs.put p None n) = None.
Proof.
  revert n. induction p as [|c p IH]; intros n Hp; [done|].
  destruct n as [data|m]; [done|].
  rewrite put_cons. simpl. rewrite lookup_partial_alter_eq.
  destruct p as [|c' p]; [done|]. rewrite entry_after_below by done.
  destruct (m !! c) as [child|]; [|done]. simpl. by apply IH.
Qed.

Lemma put_None_absent p : ∀ n, Fs.get p n = None → Fs.put p None n = n.
Proof.
  induction p as [|c p IH]; intros n Hget; [done|].
  destruct n as [data|m]; [done|].
  rewrite put_cons. f_equal. apply partial_alter_id.
  simpl in Hget. destruct p as [|c' p].
  - simpl. by destruct (m !! c).
  - rewrite entry_after_below by done.
    destruct (m !! c) as [child|]; [|done].
    simpl in *. f_equal. by apply IH.
Qed.

(** A write that is not at [d] or above it leaves [d] a directory, and
    was a directory before if it is one after. *)
Lemma is_dir_put d : ∀ q o n,
  ¬ q `prefix_of` d →
  (∃ m, Fs.get d n = Some (Fs.Dir m))
  ↔ (∃ m, Fs.get d (Fs.put q o n) = Some (Fs.Dir m)).
Proof.
  induction d as [|c d IH]; intros q o n Hq.
  - destruct q as [|c' q]; [destruct Hq; apply prefix_nil|].
    destruct n as [data|m]; [done|]. rewrite put_cons. simpl.
    split; intros _; eauto.
  - destruct q as [|c' q]; [destruct Hq; apply prefix_nil|].
    destruct n as [data|m]; [done|]. rewrite put_cons. simpl.
    destruct (decide (c' = c)) as [->|Hne].
    + rewrite lookup_partial_alter_eq.
      destruct q as [|c'' q].
      { destruct Hq. apply prefix_cons, prefix_nil. }
      rewrite entry_after_below by done.
      destruct (m !! c) as [child|]; simpl; [|done].
      apply IH. intros H. apply Hq. by apply prefix_cons.
    + by rewrite lookup_partial_alter_ne.
Qed.

End FsFacts.

(** ** Installing the extracted files *)

Section Install.
Local Arguments Fs.put : simpl never.
Local Arguments Fs.get : simpl never.

(** The installation directory [d], the extraction folder [x] and the
    folder [x ++ [packed_folder_name]] the files are taken from. *)
Variables d x : Fs.path.
Hypothesis d_plain : Forall Fs.plain d.
Hypothesis x_plain : Forall Fs.plain x.
Hypothesis x_not_above : ¬ x `prefix_of` d.

Let source : Fs.path := x ++ [packed_folder_name].

Lemma get_entry (k : string) (m : gmap string Fs.node) :
  Fs.get [k] (Fs.Dir m) = m !! k.
Proof. unfold Fs.get. by destruct (m !! k). Qed.

Lemma x_nonempty : x ≠ [].
Proof. intros ->. apply x_not_above, prefix_nil. Qed.

Lemma entry_plain (k : string) : Fs.plain k → Fs.norm (d ++ [k]) = d ++ [k].
Proof.
  intros Hk. apply norm_plain. apply Forall_app. split; [done|].
  constructor; [done|constructor].
Qed.

Lemma packed_plain : Fs.plain packed_folder_name.
Proof. by split_and!. Qed.

Lemma source_plain : Forall Fs.plain source.
Proof.
  apply Forall_app. split; [done|].
  constructor; [apply packed_plain|constructor].
Qed.

(** One round of the loop. *)
Lemma replace_entry_ok (k : string) (n : Fs.node) (fs : Fs.node)
    (todo cur : gmap string Fs.node) :
  Fs.plain k →
  Fs.diverge (d ++ [k]) x →
  Fs.get source fs = Some (Fs.Dir todo) →
  todo !! k = Some n →
  Fs.get d (Fs.put x None fs) = Some (Fs.Dir cur) →
  ∃ fs',
    replace_entry d source k fs = Ok fs'
    ∧ Fs.get source fs' = Some (Fs.Dir (delete k todo))
    ∧ Fs.get d (Fs.put x None fs') = Some (Fs.Dir (<[k := n]> cur)).
Proof.
  intros Hk Hdiv Hsource Hn Hcur.
  set (old := d ++ [k]). set (new := source ++ [k]).
  assert (Fs.diverge old source) as Hdiv_source by by apply diverge_app_r.
  assert (Fs.diverge old new) as Hdiv_new by by apply diverge_app_r.
  assert (Fs.norm old = old) as Hnorm_old by by apply entry_plain.
  assert (Fs.norm new = new) as Hnorm_new.
  { apply norm_plain, Forall_app. split; [apply source_plain|].
    constructor; [done|constructor]. }
  assert (old ≠ []) as Hold by (unfold old; by destruct d).
  (* the old entry, if any, goes *)
  assert ((if Fs.exists_ old fs
           then if Fs.isdir old fs then Fs.rmtree old fs else Fs.remove old fs
           else Ok fs) = Ok (Fs.put old None fs)) as Hremoved.
  { unfold Fs.exists_, Fs.isdir, Fs.rmtree, Fs.remove. rewrite Hnorm_old.
    destruct (Fs.get old fs) as [[data|m]|] eqn:Hget.
    - done.
    - by destruct old.
    - by rewrite put_None_absent. }
  (* the new entry is still where it was *)
  assert (Fs.get new (Fs.put old None fs) = Some n) as Hnew.
  { rewrite get_put_apart by done. unfold new. rewrite get_app, Hsource.
    cbn [mbind option_bind]. by rewrite get_entry. }
  (* the directory is a directory, before and after *)
  assert (∃ m, Fs.get d (Fs.put new None (Fs.put old None fs))
               = Some (Fs.Dir m)) as [m Hdir].
  { apply is_dir_put.
    { intros H. apply x_not_above. etrans; [|exact H].
      unfold new, source. rewrite <- app_assoc. by apply prefix_app_r. }
    apply is_dir_put; [apply prefix_snoc_not|].
    apply (is_dir_put d x None); [done|]. eauto. }
  exists (Fs.put old (Some n) (Fs.put new None (Fs.put old None fs))).
  split_and!.
  - unfold replace_entry. fold old new. rewrite Hremoved.
    cbn [mbind result_bind]. unfold Fs.move. rewrite Hnorm_old, Hnorm_new, Hnew.
    rewrite get_put_None by done.
    unfold Fs.rename.
    rewrite bool_decide_eq_false_2 by (apply not_eq_sym; by apply diverge_ne).
    rewrite bool_decide_eq_false_2
      by (by apply diverge_not_prefix, diverge_sym).
    rewrite get_put_None by done.
    unfold old at 1. rewrite removelast_last. by rewrite Hdir.
  - rewrite get_put_apart by done.
    unfold new. rewrite get_put_below by done.
    rewrite get_put_apart by done. by rewrite Hsource.
  - rewrite (put_put_apart x old) by (by apply diverge_sym).
    unfold new, source. rewrite <- app_assoc.
    rewrite put_absorb by apply x_nonempty.
    rewrite (put_put_apart x old) by (by apply diverge_sym).
    rewrite put_put_same by done.
    unfold old. by rewrite get_put_below, Hcur.
Qed.

(** The loop, over any enumeration of the names still to move. *)
Lemma for_each_replace_entry_ok (l : list string) :
  ∀ (fs : Fs.node) (todo cur : gmap string Fs.node),
    NoDup l →
    (∀ k, k ∈ l ↔ is_Some (todo !! k)) →
    (∀ k, k ∈ l → Fs.plain k ∧ Fs.diverge (d ++ [k]) x) →
    Fs.get source fs = Some (Fs.Dir todo) →
    Fs.get d (Fs.put x None fs) = Some (Fs.Dir cur) →
    ∃ fs',
      for_each l (replace_entry d source) fs = Ok fs'
      ∧ (∃ rest, Fs.get source fs' = Some (Fs.Dir rest))
      ∧ Fs.get d (Fs.put x None fs') = Some (Fs.Dir (todo ∪ cur)).
Proof.
  induction l as [|k l IH]; intros fs todo cur Hnodup Hdom Hnames Hsource Hcur.
  - exists fs. split_and!; [done|by eauto|].
    assert (todo = ∅) as ->.
    { apply map_empty. intros i. apply eq_None_not_Some.
      intros Hi%Hdom. by apply elem_of_nil in Hi. }
    by rewrite (left_id_L ∅ (∪)).
  - apply NoDup_cons in Hnodup as [Hfresh Hnodup].
    destruct (proj1 (Hdom k)) as [n Hn]; [by left|].
    destruct (Hnames k) as [Hk Hdiv]; [by left|].
    destruct (replace_entry_ok k n fs todo cur Hk Hdiv Hsource Hn Hcur)
      as (fs1 & Hstep & Hsource1 & Hcur1).
    destruct (IH fs1 (delete k todo) (<[k := n]> cur)) as (fs' & Hloop & Hrest & Hfinal).
    + done.
    + intros k'. rewrite lookup_delete_is_Some. split.
      * intros Hk'. split; [by intros ->|]. apply Hdom. by right.
      * intros [Hne [|Hk']%Hdom%elem_of_cons]; done.
    + intros k' Hk'. apply Hnames. by right.
    + done.
    + done.
    + exists fs'. split_and!; [|done|].
      * cbn [for_each]. rewrite Hstep. exact Hloop.
      * rewrite Hfinal. by rewrite union_delete_insert.
Qed.

End Install.

(** The installation directory with the extraction folder taken out of
    the picture: nothing changes when the folder lies elsewhere, and one
    entry goes when the folder is an entry of the directory. *)
Lemma directory_without_folder_outside (d x : Fs.path) (fs : Fs.node) :
  Fs.diverge d x → Fs.get d (Fs.put x None fs) = Fs.get d fs.
Proof. intros Hdiv. by apply get_put_apart, diverge_sym. Qed.

Lemma directory_without_folder_inside (d : Fs.path) (e : string)
    (fs : Fs.node) (entries : gmap string Fs.node) :
  Fs.get d fs = Some (Fs.Dir entries) →
  Fs.get d (Fs.put (d ++ [e]) None fs) = Some (Fs.Dir (delete e entries)).
Proof. apply get_put_entry. Qed.

(** C2.  Let the extraction folder [x] hold exactly the folder
    [Dolphin-x64] with the entries [inner], let it be neither the
    installation directory [d] nor above it, and let no entry of [inner]
    carry the name under which [d] holds [x] or leads to it.  Then
    [update_dolphin] returns, and the installation directory ends up as
    [inner] merged over [pre], where [pre] is what the directory held
    before with the extraction folder itself left out: every entry of the
    archive is there and has replaced an entry of its name, every other
    entry is unchanged, and the extraction folder is gone. *)
Theorem update_dolphin_merges
    (d x : Fs.path) (fs : Fs.node) (inner pre : gmap string Fs.node) :
  Forall Fs.plain d →
  Forall Fs.plain x →
  ¬ x `prefix_of` d →
  Fs.get x fs = Some (Worlds.extracted inner) →
  Fs.get d (Fs.put x None fs) = Some (Fs.Dir pre) →
  (∀ k, is_Some (inner !! k) → Fs.plain k ∧ ¬ (d ++ [k]) `prefix_of` x) →
  ∃ fs',
    update_dolphin d x fs = Ok fs'
    ∧ Fs.get d fs' = Some (Fs.Dir (inner ∪ pre))
    ∧ Fs.get x fs' = None.
Proof.
  intros Hd Hx Hxd Hfolder Hpre Hnames.
  assert (x ≠ []) as Hx_nonempty by (by apply x_nonempty with d).
  assert (Fs.get (x ++ [packed_folder_name]) fs = Some (Fs.Dir inner))
    as Hsource.
  { rewrite get_app, Hfolder. unfold Worlds.extracted. cbn [mbind option_bind].
    by rewrite get_entry, lookup_singleton_eq. }
  destruct (for_each_replace_entry_ok d x Hd Hx Hxd
              (map_to_list inner).*1 fs inner pre)
    as (fs' & Hloop & [rest Hrest] & Hfinal); [| | |done|done|].
  { apply NoDup_fst_map_to_list. }
  { intros k. rewrite list_elem_of_fmap. split.
    - intros [[k' v] [-> Hin%elem_of_map_to_list]]. by exists v.
    - intros [v Hv]. exists (k, v). by rewrite elem_of_map_to_list. }
  { intros k [[k' v] [-> Hin%elem_of_map_to_list]]%list_elem_of_fmap.
    destruct (Hnames k') as [Hplain Hnot]; [by exists v|].
    split; [done|]. by apply entry_diverges. }
  apply get_snoc in Hrest as (m & Hx_dir & _).
  exists (Fs.put x None fs'). split_and!; [|done|by apply get_put_None].
  assert (Fs.listdir x fs = Ok [packed_folder_name]) as Hlist.
  { unfold Fs.listdir. rewrite (norm_plain x Hx), Hfolder.
    unfold Worlds.extracted. by rewrite map_to_list_singleton. }
  assert (Fs.listdir (x ++ [packed_folder_name]) fs
          = Ok (map_to_list inner).*1) as Hlist_source.
  { unfold Fs.listdir. rewrite norm_plain by (by apply source_plain).
    by rewrite Hsource. }
  unfold update_dolphin. rewrite Hlist. cbn [mbind result_bind].
  rewrite bool_decide_eq_true_2 by done.
  rewrite Hlist_source. cbn [mbind result_bind]. rewrite Hloop.
  cbn [mbind result_bind].
  replace (Fs.path_endswith (x ++ [packed_folder_name]) packed_folder_name)
    with true by (unfold Fs.path_endswith; by rewrite last_snoc).
  unfold Fs.rmtree. rewrite norm_down_up by (done || apply packed_plain).
  rewrite Hx_dir. by destruct x.
Qed.

Lemma update_dolphin_merges_witness :
  ∃ fs',
    update_dolphin ["emu"] ["emu"; "Extracted"] Worlds.disk = Ok fs'
    ∧ Fs.get ["emu"] fs' = Some (Fs.Dir (Worlds.new_files ∪ Worlds.old_files))
    ∧ Fs.get ["emu"; "Extracted"] fs' = None.
Proof.
  apply (update_dolphin_merges ["emu"] ["emu"; "Extracted"] Worlds.disk
           Worlds.new_files Worlds.old_files).
  - repeat constructor; discriminate.
  - repeat constructor; discriminate.
  - apply (bool_decide_unpack _). vm_compute. exact I.
  - vm_compute. reflexivity.
  - vm_compute. reflexivity.
  - intros k [v Hk]. revert k v Hk. apply map_Forall_lookup.
    apply (bool_decide_unpack _). vm_compute. exact I.
Defined.

(** The unrestricted statement, every pre-existing entry that the archive does
    not name is unchanged, fails where the program itself puts the
    extraction folder: as the entry [Extracted] of the installation
    directory.  The archive has no entry of that name, the entry exists
    before the install step, and it is gone after it. *)
Lemma update_dolphin_folder_counterexample :
  ∃ fs' before,
    Fs.get ["emu"] Worlds.disk = Some (Fs.Dir before)
    ∧ Fs.get ["emu"; "Extracted"] Worlds.disk
      = Some (Worlds.extracted Worlds.new_files)
    ∧ update_dolphin ["emu"] ["emu"; "Extracted"] Worlds.disk = Ok fs'
    ∧ Worlds.new_files !! "Extracted" = None
    ∧ before !! "Extracted" = Some (Worlds.extracted Worlds.new_files)
    ∧ Fs.get ["emu"; "Extracted"] fs' = None
    ∧ Fs.get ["emu"] fs' ≠ Some (Fs.Dir (Worlds.new_files ∪ before)).
Proof.
  exists (Fs.Dir {[ "emu" := Fs.Dir (Worlds.new_files ∪ Worlds.old_files) ]}),
    (<[ "Extracted" := Worlds.extracted Worlds.new_files ]> Worlds.old_files).
  split_and!; try (vm_compute; reflexivity).
  intros H.
  apply (f_equal (fun o : option Fs.node =>
                    match o with
                    | Some (Fs.Dir entries) => entries !! "Extracted"
                    | _ => None
                    end)) in H.
  vm_compute in H. discriminate.
Qed.

(** An archive with an entry called like the extraction folder makes the
    install step delete its own source and stop. *)
Example update_dolphin_clash :
  update_dolphin ["emu"] ["emu"; "Extracted"] Worlds.disk_clash
  = Raise FileNotFoundError.
Proof. vm_compute. reflexivity. Qed.

(* ===================================================================== *)
(** * Further properties of the program                                    *)
(* ===================================================================== *)

(** ** More on the matcher *)

Section MatcherShapes.
Context {A : Type}.
Implicit Types (r : Re.re A) (s m : list A) (f : A → bool).

(** A greedy run that lets the rest succeed: some leading elements of the
    class were taken, and the rest succeeded on what follows them. *)
Lemma greedy_inv {R : Type} f s (k : list A → option R) (v : R) :
  Re.greedy f s k = Some v →
  ∃ taken rest, s = taken ++ rest ∧ Forall (fun x => f x = true) taken
                ∧ k rest = Some v.
Proof.
  induction s as [|x s IH]; simpl.
  - intros Hk. by exists [], [].
  - destruct (f x) eqn:Hf.
    + destruct (Re.greedy f s k) as [v'|] eqn:Hg.
      * intros [= <-]. destruct (IH eq_refl) as (taken & rest & -> & Ht & Hk).
        exists (x :: taken), rest. split_and!; [done| |done]. by constructor.
      * intros Hk. by exists [], (x :: s).
    + intros Hk. by exists [], (x :: s).
Qed.

(** Backtracking finds a split whenever there is one. *)
Lemma greedy_complete {R : Type} f (taken rest : list A)
    (k : list A → option R) (v : R) :
  Forall (fun x => f x = true) taken → k rest = Some v →
  is_Some (Re.greedy f (taken ++ rest) k).
Proof.
  intros Htaken Hk. induction Htaken as [|x taken Hx _ IH]; simpl.
  - destruct rest as [|y rest]; simpl; [by eauto|].
    destruct (f y); [|by eauto].
    destruct (Re.greedy f rest k); by eauto.
  - rewrite Hx. destruct IH as [v' ->]. by eauto.
Qed.

Lemma run_lits {R : Type} (eqb : A → A → bool) (l : list A) r s
    (k : list A → option R) (v : R) :
  (∀ a c, eqb a c = true → a = c) →
  Re.run (Re.lits eqb l r) s k = Some v →
  ∃ rest, s = l ++ rest ∧ Re.run r rest k = Some v.
Proof.
  intros Heqb. revert s. induction l as [|c l IH]; intros s; simpl.
  - intros H. by exists s.
  - destruct s as [|x s]; [done|].
    destruct (eqb c x) eqn:E; [|done].
    apply Heqb in E as <-.
    intros (rest & -> & H)%IH. by exists rest.
Qed.

Lemma run_lits_complete {R : Type} (eqb : A → A → bool) (l : list A) r
    (rest : list A) (k : list A → option R) :
  (∀ a, eqb a a = true) →
  Re.run (Re.lits eqb l r) (l ++ rest) k = Re.run r rest k.
Proof.
  intros Hrefl. induction l as [|c l IH]; simpl; [done|].
  by rewrite Hrefl.
Qed.

(** A match of [f+(?=r)]: a non-empty run of the class, and the lookahead
    holds on what follows it. *)
Lemma match_at_plus_ahead f r s m :
  Re.match_at (Re.Cat (Re.Plus f) (Re.Ahead r)) s = Some m →
  ∃ rest, s = m ++ rest ∧ m ≠ [] ∧ Forall (fun x => f x = true) m
          ∧ Re.run r rest (fun _ => Some tt) = Some tt.
Proof.
  unfold Re.match_at.
  destruct (Re.run (Re.Cat (Re.Plus f) (Re.Ahead r)) s Some) as [rest|] eqn:E;
    [|done].
  intros [= <-]. simpl in E.
  destruct s as [|x s]; [done|]. destruct (f x) eqn:Hx; [|done].
  apply greedy_inv in E as (taken & rest' & -> & Htaken & Hk).
  destruct (Re.run r rest' (fun _ => Some tt)) as [[]|] eqn:Hr; [|done].
  injection Hk as ->.
  exists rest. rewrite app_comm_cons, length_app.
  replace (length (x :: taken) + length rest - length rest)%nat
    with (length (x :: taken)) by lia.
  rewrite take_app_length. split_and!; [done|done| |done].
  by constructor.
Qed.

(** Such a match does not start in the middle of a run of the class. *)
Lemma match_at_plus_ahead_extends f r s m x :
  f x = true →
  Re.match_at (Re.Cat (Re.Plus f) (Re.Ahead r)) s = Some m →
  is_Some (Re.match_at (Re.Cat (Re.Plus f) (Re.Ahead r)) (x :: s)).
Proof.
  intros Hx Hm.
  destruct (match_at_plus_ahead f r s m Hm) as (rest & -> & _ & Hrun & Hr).
  unfold Re.match_at. simpl. rewrite Hx.
  destruct (greedy_complete f m rest
              (fun s' => match Re.run r s' (fun _ => Some tt) with
                         | Some _ => Some s'
                         | None => None
                         end) rest Hrun) as [v ->]; [by rewrite Hr|].
  by eauto.
Qed.

Lemma search_Some_is_Some r s :
  is_Some (Re.match_at r s) → is_Some (Re.search r s).
Proof. intros [m Hm]. destruct s; simpl; rewrite Hm; by eauto. Qed.

(** [re.search] finds a match wherever one starts. *)
Lemma search_complete r (skipped rest : list A) :
  is_Some (Re.match_at r rest) → is_Some (Re.search r (skipped ++ rest)).
Proof.
  intros Hm. induction skipped as [|x skipped IH]; simpl app.
  - by apply search_Some_is_Some.
  - simpl. destruct (Re.match_at r (x :: skipped ++ rest)); by eauto.
Qed.

(** The match [re.search] returns for [f+(?=r)]: where it lies, and that
    the element before it is not of the class. *)
Lemma search_plus_ahead f r s m :
  Re.search (Re.Cat (Re.Plus f) (Re.Ahead r)) s = Some m →
  ∃ skipped rest,
    s = skipped ++ m ++ rest ∧ m ≠ [] ∧ Forall (fun x => f x = true) m
    ∧ Re.run r rest (fun _ => Some tt) = Some tt
    ∧ (∀ x, last skipped = Some x → f x = false).
Proof.
  intros (skipped & tail & -> & Hm & Hnone)%search_leftmost.
  destruct (match_at_plus_ahead f r tail m Hm) as (rest & -> & Hne & Hrun & Hr).
  exists skipped, rest. split_and!; try done.
  intros x Hlast. destruct (f x) eqn:Hx; [|done].
  destruct skipped as [|y skipped _] using rev_ind; [done|].
  rewrite last_snoc in Hlast. injection Hlast as ->.
  specialize (Hnone (length skipped)).
  rewrite length_app in Hnone. simpl in Hnone.
  rewrite <- app_assoc, drop_app_length in Hnone. simpl in Hnone.
  destruct (match_at_plus_ahead_extends f r (m ++ rest) m x Hx Hm) as [m' Hm'].
  rewrite Hnone in Hm' by lia. done.
Qed.

End MatcherShapes.

(** ** Which variant a binary is *)

Lemma byte_eqb_refl (x : byte) : Byte.eqb x x = true.
Proof. by apply byte_dec_lb. Qed.

(** The pattern of [is_ishiiruka_build] matches at the head of a text
    exactly when the text starts with the nine bytes of the name. *)
Lemma ishiiruka_match_at (s : bytes) :
  is_Some (Re.match_at ishiiruka_re s) ↔ ∃ rest, s = b "Ishiiruka" ++ rest.
Proof.
  unfold Re.match_at, ishiiruka_re. split.
  - intros [m Hm].
    destruct (Re.run _ s Some) as [rest|] eqn:E; [|done].
    apply (run_lits Byte.eqb) in E as (rest' & -> & E); [|apply byte_dec_bl].
    simpl in E. destruct rest' as [|x rest']; [done|].
    destruct (Byte.eqb "a" x) eqn:Hx; [|done].
    apply byte_dec_bl in Hx as <-. by exists rest'.
  - intros [rest ->].
    change (b "Ishiiruka" ++ rest) with (b "Ishiiruk" ++ "a"%byte :: rest).
    rewrite run_lits_complete by apply byte_eqb_refl.
    simpl. by eauto.
Qed.

(** X1.  [is_ishiiruka_build] answers [True] exactly when the bytes of
    the binary hold the name [Ishiiruka] somewhere, and it changes
    nothing. *)
Theorem is_ishiiruka_build_iff_contains
    (p : string) (w : world) (content : bytes) :
  Fs.read (Fs.parse p) (fs w) = Ok content →
  ∃ answer,
    is_ishiiruka_build p w = (Ok answer, w)
    ∧ (answer = true ↔ ∃ pre post, content = pre ++ b "Ishiiruka" ++ post).
Proof.
  intros Hread. eexists. split.
  - unfold is_ishiiruka_build, bind, query, ret. by rewrite Hread.
  - rewrite bool_decide_eq_true. split.
    + intros [m (pre & rest & -> & Hm & _)%search_leftmost].
      destruct (proj1 (ishiiruka_match_at rest)) as [post ->]; [by eauto|].
      by exists pre, post.
    + intros (pre & post & ->). apply search_complete.
      apply ishiiruka_match_at. by exists post.
Qed.

Lemma is_ishiiruka_build_iff_contains_witness :
  ∃ answer,
    is_ishiiruka_build "Dolphin.exe" (Worlds.binary (b "MZ Ishiiruka 891(x)"))
    = (Ok answer, Worlds.binary (b "MZ Ishiiruka 891(x)"))
    ∧ (answer = true
       ↔ ∃ pre post, b "MZ Ishiiruka 891(x)" = pre ++ b "Ishiiruka" ++ post).
Proof.
  apply (is_ishiiruka_build_iff_contains "Dolphin.exe"
           (Worlds.binary (b "MZ Ishiiruka 891(x)"))).
  reflexivity.
Defined.

(** ** The version of the community fork *)

Section IshiirukaVersion.

(** What the lookahead of [file_re] asks of the text after the digits. *)
Lemma file_suffix_shape (rest : list ascii) :
  Re.run
    (Re.Cat (Re.Class (Ascii.eqb "("))
       (Re.Cat (Re.Plus (fun c => negb (Ascii.eqb c ")")))
          (Re.lits Ascii.eqb (list_ascii_of_string ").x64.7")
             (Re.Class (Ascii.eqb "z")))))
    rest (fun _ => Some tt) = Some tt →
  ∃ inside post,
    rest = "("%char :: inside ++ list_ascii_of_string ").x64.7z" ++ post
    ∧ inside ≠ [] ∧ Forall (fun c => c ≠ ")"%char) inside.
Proof.
  cbn [Re.run]. destruct rest as [|c0 rest]; [done|].
  destruct (Ascii.eqb_spec "(" c0) as [<-|]; [|done].
  destruct rest as [|c1 rest]; [done|].
  destruct (Ascii.eqb_spec c1 ")") as [|Hc1]; [done|]. cbn [negb].
  intros (taken & rest' & -> & Htaken & Hk)%greedy_inv.
  apply (run_lits Ascii.eqb) in Hk as (rest'' & -> & Hk);
    [|intros a c; apply Ascii.eqb_eq].
  cbn [Re.run] in Hk. destruct rest'' as [|z post]; [done|].
  destruct (Ascii.eqb_spec "z" z) as [<-|]; [|done].
  exists (c1 :: taken), post. split_and!; [|done|].
  - reflexivity.
  - constructor; [done|]. eapply Forall_impl; [exact Htaken|].
    intros c. cbv beta.
    destruct (Ascii.eqb_spec c ")"); simpl; [discriminate|done].
Qed.

(** The text [file_re] finds. *)
Lemma file_re_search (text version : string) :
  Re.search_str IshiirukaBuilds.file_re text = Some version →
  ∃ pre inside post,
    list_ascii_of_string text
    = pre ++ list_ascii_of_string version
        ++ "("%char :: inside ++ list_ascii_of_string ").x64.7z" ++ post
    ∧ version ≠ EmptyString
    ∧ Forall (fun c => Re.char_in Re.digits c = true)
        (list_ascii_of_string version)
    ∧ inside ≠ [] ∧ Forall (fun c => c ≠ ")"%char) inside
    ∧ (∀ c, last pre = Some c → Re.char_in Re.digits c = false).
Proof.
  unfold Re.search_str, IshiirukaBuilds.file_re.
  destruct (Re.search _ (list_ascii_of_string text)) as [m|] eqn:E; [|done].
  intros [= <-].
  apply search_plus_ahead in E
    as (pre & rest & Htext & Hne & Hdigits & Hahead & Hpre).
  apply file_suffix_shape in Hahead as (inside & post & -> & Hinside & Hnoparen).
  exists pre, inside, post.
  rewrite list_ascii_of_string_of_list_ascii. split_and!; try done.
  by destruct m.
Qed.

End IshiirukaVersion.

(** X2.  What [IshiirukaBuilds.get_latest_version] returns is a whole
    number read off a file link: the link's text holds the returned
    digits, not preceded by a further digit, and directly followed by a
    non-empty parenthesised part without a closing bracket in it and by
    [.x64.7z]. *)
Theorem ishiiruka_latest_version_shape
    (t : element) (ignored : option string) (version : string) :
  IshiirukaBuilds.get_latest_version (Some t) ignored = Ok (Some version) →
  ∃ a pre inside post,
    a ∈ IshiirukaBuilds.file_links t
    ∧ list_ascii_of_string (get_text a)
      = pre ++ list_ascii_of_string version
          ++ "("%char :: inside ++ list_ascii_of_string ").x64.7z" ++ post
    ∧ version ≠ EmptyString
    ∧ Forall (fun c => Re.char_in Re.digits c = true)
        (list_ascii_of_string version)
    ∧ inside ≠ [] ∧ Forall (fun c => c ≠ ")"%char) inside
    ∧ (∀ c, last pre = Some c → Re.char_in Re.digits c = false).
Proof.
  unfold IshiirukaBuilds.get_latest_version, mbind, result_bind, attr.
  intros [(l1 & a & l2 & Hl & _ & Ha)|[? _]]%for_return_Ok; [|done].
  destruct (Re.search_str IshiirukaBuilds.file_re (get_text a))
    as [v|] eqn:Hmatch; [|done].
  injection Ha as ->.
  destruct (file_re_search _ _ Hmatch) as (pre & inside & post & H).
  exists a, pre, inside, post. split; [|exact H].
  rewrite Hl. apply elem_of_app. right. by left.
Qed.

Lemma ishiiruka_latest_version_shape_witness :
  ∃ a pre inside post,
    a ∈ IshiirukaBuilds.file_links Worlds.gallery
    ∧ list_ascii_of_string (get_text a)
      = pre ++ list_ascii_of_string "1177"
          ++ "("%char :: inside ++ list_ascii_of_string ").x64.7z" ++ post
    ∧ "1177" ≠ EmptyString
    ∧ Forall (fun c => Re.char_in Re.digits c = true)
        (list_ascii_of_string "1177")
    ∧ inside ≠ [] ∧ Forall (fun c => c ≠ ")"%char) inside
    ∧ (∀ c, last pre = Some c → Re.char_in Re.digits c = false).
Proof.
  apply (ishiiruka_latest_version_shape Worlds.gallery None "1177").
  reflexivity.
Defined.

Section IshiirukaInstalled.

(** What the lookahead of the installed-version pattern asks of the bytes
    after the digits. *)
Lemma master_suffix_shape (rest : bytes) :
  Re.run
    (Re.Cat (Re.Class (Byte.eqb "("))
       (Re.Cat (Re.Plus (fun c => negb (Byte.eqb c ")")))
          (Re.Cat (Re.Class (Byte.eqb ")"))
             (Re.Cat (Re.Plus (Byte.eqb "000"))
                (Re.lits Byte.eqb (b "maste") (Re.Class (Byte.eqb "r")))))))
    rest (fun _ => Some tt) = Some tt →
  ∃ inside nuls post,
    rest = "("%byte :: inside ++ ")"%byte :: nuls ++ b "master" ++ post
    ∧ inside ≠ [] ∧ Forall (fun c => c ≠ ")"%byte) inside
    ∧ nuls ≠ [] ∧ Forall (fun c => c = "000"%byte) nuls.
Proof.
  cbn [Re.run]. destruct rest as [|c0 rest]; [done|].
  destruct (Byte.eqb "(" c0) eqn:Hc0; [|done].
  apply byte_dec_bl in Hc0 as <-.
  destruct rest as [|c1 rest]; [done|].
  destruct (Byte.eqb c1 ")") eqn:Hc1; [done|]. cbn [negb].
  intros (taken & rest' & -> & Htaken & Hk)%greedy_inv.
  destruct rest' as [|c2 rest']; [done|].
  destruct (Byte.eqb ")" c2) eqn:Hc2; [|done].
  apply byte_dec_bl in Hc2 as <-.
  destruct rest' as [|c3 rest']; [done|].
  destruct (Byte.eqb "000" c3) eqn:Hc3; [|done].
  apply byte_dec_bl in Hc3 as <-.
  apply greedy_inv in Hk as (nuls & rest'' & -> & Hnuls & Hk).
  apply (run_lits Byte.eqb) in Hk as (rest3 & -> & Hk); [|apply byte_dec_bl].
  cbn [Re.run] in Hk. destruct rest3 as [|r post]; [done|].
  destruct (Byte.eqb "r" r) eqn:Hr; [|done].
  apply byte_dec_bl in Hr as <-.
  exists (c1 :: taken), ("000"%byte :: nuls), post.
  split_and!; [|done| |done|].
  - reflexivity.
  - constructor; [by apply eqb_false|]. eapply Forall_impl; [exact Htaken|].
    intros c. cbv beta. destruct (Byte.eqb c ")") eqn:E; simpl; [discriminate|].
    intros _. by apply eqb_false.
  - constructor; [done|]. eapply Forall_impl; [exact Hnuls|].
    intros c Hc. symmetry. by apply byte_dec_bl.
Qed.

Lemma digits_seven_bit (m : bytes) :
  Forall (fun x => Re.byte_in Re.digits x = true) m → Forall Worlds.seven_bit m.
Proof.
  intros H. eapply Forall_impl; [exact H|]. intros x Hx.
  eapply byte_in_seven_bit; [|exact Hx].
  repeat constructor; unfold Worlds.seven_bit; simpl; lia.
Qed.

End IshiirukaInstalled.

(** X3.  [IshiirukaBuilds.get_installed_version] of a readable binary
    either returns a run of digits that the binary holds, not preceded by
    a further digit, and directly followed by a parenthesised part, one or
    more NUL bytes and [master]; or it raises [AttributeError] because the
    binary holds no such marker.  It raises nothing else (the match always
    decodes) and changes nothing. *)
Theorem ishiiruka_installed_version_shape
    (p : string) (w : world) (content : bytes) :
  Fs.read (Fs.parse p) (fs w) = Ok content →
  (∃ v pre inside nuls post,
     IshiirukaBuilds.get_installed_version p w = (Ok (Worlds.text_of v), w)
     ∧ content = pre ++ v ++ "("%byte :: inside ++ ")"%byte :: nuls
                   ++ b "master" ++ post
     ∧ v ≠ [] ∧ Forall (fun c => Re.byte_in Re.digits c = true) v
     ∧ inside ≠ [] ∧ Forall (fun c => c ≠ ")"%byte) inside
     ∧ nuls ≠ [] ∧ Forall (fun c => c = "000"%byte) nuls
     ∧ (∀ c, last pre = Some c → Re.byte_in Re.digits c = false))
  ∨ (IshiirukaBuilds.get_installed_version p w = (Raise AttributeError, w)
     ∧ Re.search IshiirukaBuilds.version_re content = None).
Proof.
  intros Hread.
  unfold IshiirukaBuilds.get_installed_version, bind, query, lift.
  rewrite Hread.
  destruct (Re.search IshiirukaBuilds.version_re content) as [m|] eqn:E;
    [left|by right].
  unfold IshiirukaBuilds.version_re in E.
  apply search_plus_ahead in E
    as (pre & rest & -> & Hne & Hdigits & Hahead & Hpre).
  apply master_suffix_shape in Hahead
    as (inside & nuls & post & -> & Hinside & Hnoparen & Hnuls & Hzero).
  exists m, pre, inside, nuls, post. split_and!; try done.
  cbn [attr]. rewrite decode_seven_bit by (by apply digits_seven_bit).
  reflexivity.
Qed.

Lemma ishiiruka_installed_version_shape_witness :
  (∃ v pre inside nuls post,
     IshiirukaBuilds.get_installed_version "Dolphin.exe"
       (Worlds.binary Worlds.ishiiruka_binary)
     = (Ok (Worlds.text_of v), Worlds.binary Worlds.ishiiruka_binary)
     ∧ Worlds.ishiiruka_binary
       = pre ++ v ++ "("%byte :: inside ++ ")"%byte :: nuls
           ++ b "master" ++ post
     ∧ v ≠ [] ∧ Forall (fun c => Re.byte_in Re.digits c = true) v
     ∧ inside ≠ [] ∧ Forall (fun c => c ≠ ")"%byte) inside
     ∧ nuls ≠ [] ∧ Forall (fun c => c = "000"%byte) nuls
     ∧ (∀ c, last pre = Some c → Re.byte_in Re.digits c = false))
  ∨ (IshiirukaBuilds.get_installed_version "Dolphin.exe"
       (Worlds.binary Worlds.ishiiruka_binary)
     = (Raise AttributeError, Worlds.binary Worlds.ishiiruka_binary)
     ∧ Re.search IshiirukaBuilds.version_re Worlds.ishiiruka_binary = None).
Proof.
  apply (ishiiruka_installed_version_shape "Dolphin.exe"
           (Worlds.binary Worlds.ishiiruka_binary) Worlds.ishiiruka_binary).
  reflexivity.
Defined.

(** On the sample binary the build number comes back. *)
Example ishiiruka_installed_version_sample :
  IshiirukaBuilds.get_installed_version "Dolphin.exe"
    (Worlds.binary Worlds.ishiiruka_binary)
  = (Ok "891", Worlds.binary Worlds.ishiiruka_binary).
Proof. reflexivity. Qed.

(** ** The mainline listing *)

(** X4.  [DolphinBuilds.get_latest_download] returns the address of the
    first download row that has a Windows link, whatever comes after it:
    rows without such a link are passed over.  The address is [None] when
    that anchor has no [href]. *)
Theorem dolphin_latest_download_first_win
    (t : element) (earlier : list element) (tr : element)
    (later : list element) (td a : element) :
  findAll "tr" (Some "download") t = earlier ++ tr :: later →
  (∀ r, r ∈ earlier →
        ∃ cell, find "td" (Some "download-links") r = Some cell
                ∧ find "a" (Some "win") cell = None) →
  find "td" (Some "download-links") tr = Some td →
  find "a" (Some "win") td = Some a →
  DolphinBuilds.get_latest_download (Some t) = Ok (get "href" a).
Proof.
  intros Hrows Hearlier Htd Ha.
  unfold DolphinBuilds.get_latest_download, mbind, result_bind, attr.
  rewrite Hrows. apply for_return_first.
  - intros r (cell & Hcell & Hwin)%Hearlier. by rewrite Hcell, Hwin.
  - by rewrite Htd, Ha.
Qed.

Lemma dolphin_latest_download_first_win_witness :
  DolphinBuilds.get_latest_download (Some Worlds.listing_mixed)
  = Ok (Some "https://dl.dolphin-emu.org/builds/dolphin-master-5.0-19000-x64.7z").
Proof.
  destruct (findAll "tr" (Some "download") Worlds.listing_mixed)
    as [|r1 [|r2 rest]] eqn:Hrows; try (vm_compute in Hrows; discriminate).
  destruct (find "td" (Some "download-links") r2) as [td|] eqn:Htd;
    [|vm_compute in Hrows; injection Hrows as <- <- <-;
      vm_compute in Htd; discriminate].
  destruct (find "a" (Some "win") td) as [a|] eqn:Ha;
    [|vm_compute in Hrows; injection Hrows as <- <- <-;
      vm_compute in Htd; injection Htd as <-;
      vm_compute in Ha; discriminate].
  rewrite (dolphin_latest_download_first_win Worlds.listing_mixed
             [r1] r2 rest td a Hrows).
  - vm_compute in Hrows. injection Hrows as <- <- <-.
    vm_compute in Htd. injection Htd as <-.
    vm_compute in Ha. injection Ha as <-. reflexivity.
  - intros r Hr%list_elem_of_singleton. subst r.
    vm_compute in Hrows. injection Hrows as <- <- <-.
    eexists. split; reflexivity.
  - done.
  - done.
Defined.

(** X5.  [DolphinBuilds.get_latest_version] returns the version text of
    the first [infos] row whose text occurs in the download address; rows
    before it, whose text does not occur there, are passed over, and rows
    after it are not looked at. *)
Theorem dolphin_latest_version_first_contained
    (t : element) (earlier : list element) (tr : element)
    (later : list element) (td a : element) (link : string) :
  findAll "tr" (Some "infos") t = earlier ++ tr :: later →
  (∀ r, r ∈ earlier →
        ∃ cell anchor,
          find "td" (Some "version") r = Some cell
          ∧ find "a" None cell = Some anchor
          ∧ str_in (get_text anchor) link = false) →
  find "td" (Some "version") tr = Some td →
  find "a" None td = Some a →
  str_in (get_text a) link = true →
  DolphinBuilds.get_latest_version (Some t) (Some link)
  = Ok (Some (get_text a)).
Proof.
  intros Hrows Hearlier Htd Ha Hin.
  unfold DolphinBuilds.get_latest_version, mbind, result_bind, attr.
  rewrite Hrows. apply for_return_first.
  - intros r (cell & anchor & Hcell & Hanchor & Hout)%Hearlier.
    by rewrite Hcell, Hanchor, Hout.
  - by rewrite Htd, Ha, Hin.
Qed.

Lemma dolphin_latest_version_first_contained_witness :
  DolphinBuilds.get_latest_version (Some Worlds.listing_mixed)
    (Some "https://dl.dolphin-emu.org/builds/dolphin-master-5.0-19000-x64.7z")
  = Ok (Some "5.0-19000").
Proof.
  destruct (findAll "tr" (Some "infos") Worlds.listing_mixed)
    as [|r1 [|r2 rest]] eqn:Hrows; try (vm_compute in Hrows; discriminate).
  destruct (find "td" (Some "version") r2) as [td|] eqn:Htd;
    [|vm_compute in Hrows; injection Hrows as <- <- <-;
      vm_compute in Htd; discriminate].
  destruct (find "a" None td) as [a|] eqn:Ha;
    [|vm_compute in Hrows; injection Hrows as <- <- <-;
      vm_compute in Htd; injection Htd as <-;
      vm_compute in Ha; discriminate].
  assert (get_text a = "5.0-19000") as Htext.
  { vm_compute in Hrows. injection Hrows as <- <- <-.
    vm_compute in Htd. injection Htd as <-.
    vm_compute in Ha. injection Ha as <-. reflexivity. }
  rewrite <- Htext.
  apply (dolphin_latest_version_first_contained Worlds.listing_mixed
           [r1] r2 rest td a _ Hrows).
  - intros r Hr%list_elem_of_singleton. subst r.
    vm_compute in Hrows. injection Hrows as <- <- <-.
    eexists _, _. split_and!; reflexivity.
  - done.
  - done.
  - rewrite Htext. reflexivity.
Defined.

(** X6.  A mainline descriptor whose table has no row with a version
    text that occurs in the download address has no latest version, and
    counts as outdated whatever version is installed. *)
Theorem dolphin_no_version_always_outdated
    (p : string) (w w' : world) (builds : Builds) :
  init Dolphin p w = (Ok builds, w') →
  (∀ t link tr td a,
     table builds = Some t → latest_download builds = Some link →
     tr ∈ findAll "tr" (Some "infos") t →
     find "td" (Some "version") tr = Some td →
     find "a" None td = Some a →
     str_in (get_text a) link = false) →
  latest_version builds = None ∧ is_outdated builds = true.
Proof.
  intros (w1 & _ & _ & Hversion & _)%init_Ok Hnone.
  cbn [class_of get_latest_version] in Hversion.
  assert (latest_version builds = None) as Hlatest.
  { destruct (latest_version builds) as [v|] eqn:Hv; [|done].
    unfold DolphinBuilds.get_latest_version, mbind, result_bind, attr
      in Hversion.
    destruct (table builds) as [t|] eqn:Ht; [|done].
    apply for_return_Ok in Hversion
      as [(l1 & tr & l2 & Hrows & _ & Htr)|[? _]]; [|done].
    destruct (find "td" (Some "version") tr) as [td|] eqn:Htd; [|done].
    destruct (find "a" None td) as [a|] eqn:Ha; [|done].
    destruct (latest_download builds) as [link|] eqn:Hlink; [|done].
    rewrite (Hnone t link tr td a) in Htr; try done.
    rewrite Hrows. apply elem_of_app. right. by left. }
  split; [done|]. unfold is_outdated. by rewrite Hlatest.
Qed.

Lemma dolphin_no_version_always_outdated_witness :
  ∃ builds w',
    init Dolphin "Dolphin.exe"
      (Worlds.serving (Tag "html" [] ∅ [Worlds.listing_renamed])
         (b "MZ 5.0-19500"))
    = (Ok builds, w')
    ∧ installed_version builds = "5.0-19500"
    ∧ latest_version builds = None ∧ is_outdated builds = true.
Proof.
  destruct (init Dolphin "Dolphin.exe"
              (Worlds.serving (Tag "html" [] ∅ [Worlds.listing_renamed])
                 (b "MZ 5.0-19500")))
    as [[builds|e] w'] eqn:Hinit; [|vm_compute in Hinit; discriminate].
  exists builds, w'. split; [done|].
  split; [vm_compute in Hinit; by injection Hinit as <- _|].
  apply (dolphin_no_version_always_outdated "Dolphin.exe" _ w' builds Hinit).
  vm_compute in Hinit. injection Hinit as <- _.
  intros t link tr td a [= <-] [= <-] Htr Htd Ha.
  vm_compute in Htr. apply list_elem_of_singleton in Htr. subst tr.
  vm_compute in Htd. injection Htd as <-.
  vm_compute in Ha. injection Ha as <-. reflexivity.
Defined.

(** X7.  When the page of the mainline site has no table of class
    [versions-list], the constructor of [DolphinBuilds] raises
    [AttributeError] after its single request: the missing table is kept
    as [None] and the first search in it fails.  Nothing is retried and
    the binary is not read. *)
Theorem dolphin_missing_table_AttributeError
    (p : string) (w : world) (r : response) :
  web w (requests w) DolphinBuilds.url = Some r →
  find "table" (Some "versions-list") (html_parser w (body r)) = None →
  init Dolphin p w
  = (Raise AttributeError, log (Requested DolphinBuilds.url) w).
Proof.
  intros Hweb Htable.
  unfold init, bind, lift. cbn [class_of fetch_version_table].
  unfold DolphinBuilds.fetch_version_table, fetch_html_from_website, bind,
    urlopen_read, ret.
  rewrite Hweb. cbn [html_parser log]. rewrite Htable. reflexivity.
Qed.

Lemma dolphin_missing_table_AttributeError_witness :
  init Dolphin "Dolphin.exe"
    (Worlds.serving Worlds.maintenance_page (b "MZ 5.0-19500"))
  = (Raise AttributeError,
     log (Requested DolphinBuilds.url)
       (Worlds.serving Worlds.maintenance_page (b "MZ 5.0-19500"))).
Proof.
  apply (dolphin_missing_table_AttributeError "Dolphin.exe"
           (Worlds.serving Worlds.maintenance_page (b "MZ 5.0-19500"))
           {| body := []; content_length := None |});
    reflexivity.
Defined.

(** ** What runs before the prompt leaves the disk alone *)

Section ReadOnly.
Import Worlds.

Lemma untouched_refl (w : world) : untouched w w.
Proof. done. Qed.

Lemma untouched_trans (w1 w2 w3 : world) :
  untouched w1 w2 → untouched w2 w3 → untouched w1 w3.
Proof. intros [H1 H2] [H3 H4]. split; congruence. Qed.

Lemma untouched_log (e : event) (w : world) : untouched w (log e w).
Proof. done. Qed.

Lemma read_only_ret {A} (a : A) : read_only (ret a).
Proof. intros w. apply untouched_refl. Qed.

Lemma read_only_raise {A} (e : exn) : read_only (raise (A:=A) e).
Proof. intros w. apply untouched_refl. Qed.

Lemma read_only_lift {A} (r : result A) : read_only (lift r).
Proof. intros w. apply untouched_refl. Qed.

Lemma read_only_query {A} (f : Fs.node → result A) : read_only (query f).
Proof. intros w. apply untouched_refl. Qed.

Lemma read_only_ask {A} (f : Fs.node → A) : read_only (ask f).
Proof. intros w. apply untouched_refl. Qed.

Lemma read_only_emit (e : event) : read_only (emit e).
Proof. intros w. apply untouched_log. Qed.

Lemma read_only_print (sep end_ : string) (args : list string) :
  read_only (print_with sep end_ args).
Proof. apply read_only_emit. Qed.

Lemma read_only_bind {A B} (c : M A) (f : A → M B) :
  read_only c → (∀ a, read_only (f a)) → read_only (bind c f).
Proof.
  intros Hc Hf w. unfold bind. specialize (Hc w).
  destruct (c w) as [[a|e] w1]; simpl in *; [|done].
  eapply untouched_trans; [exact Hc|]. apply Hf.
Qed.

Lemma read_only_for_do {A} (l : list A) (body : A → M unit) :
  (∀ a, read_only (body a)) → read_only (for_do l body).
Proof.
  intros Hbody. induction l as [|a l IH]; simpl.
  - apply read_only_ret.
  - apply read_only_bind; [apply Hbody|]. intros _. exact IH.
Qed.

Lemma read_only_fetch_html (url : string) :
  read_only (fetch_html_from_website url).
Proof.
  apply read_only_bind.
  - intros w. unfold urlopen_read.
    destruct (web w (requests w) url); apply untouched_log.
  - intros html w. apply untouched_refl.
Qed.

Lemma read_only_ishiiruka_fetch (depth : nat) :
  read_only (IshiirukaBuilds.fetch_version_table depth).
Proof.
  induction depth as [|depth IH]; simpl.
  - apply read_only_raise.
  - apply read_only_bind; [apply read_only_fetch_html|]. intros soup.
    destruct (find "div" (Some "gallery-view-section") soup).
    + apply read_only_ret.
    + apply read_only_bind; [apply read_only_print|]. intros _. exact IH.
Qed.

Lemma read_only_fetch_version_table (k : variant) :
  read_only (fetch_version_table (class_of k)).
Proof.
  destruct k; simpl.
  - apply read_only_bind; [apply read_only_fetch_html|]. intros soup.
    apply read_only_ret.
  - intros w. apply read_only_ishiiruka_fetch.
Qed.

Lemma read_only_get_installed_version (k : variant) (p : string) :
  read_only (get_installed_version (class_of k) p).
Proof.
  destruct k; simpl;
    (apply read_only_bind; [apply read_only_query|]; intros data;
     apply read_only_bind; [apply read_only_lift|]; intros m;
     destruct (decode_utf8 m); [apply read_only_ret | apply read_only_raise]).
Qed.

Lemma read_only_init (k : variant) (p : string) : read_only (init k p).
Proof.
  apply read_only_bind; [apply read_only_fetch_version_table|]. intros t.
  apply read_only_bind; [apply read_only_lift|]. intros link.
  apply read_only_bind; [apply read_only_lift|]. intros version.
  apply read_only_bind; [apply read_only_get_installed_version|]. intros i.
  apply read_only_ret.
Qed.

Lemma read_only_print_latest_version (builds : Builds) :
  read_only (print_latest_version (class_of (kind builds)) builds).
Proof.
  destruct (kind builds); simpl.
  - apply read_only_bind; [apply read_only_print|]. intros _.
    apply read_only_bind; [apply read_only_lift|]. intros t.
    apply read_only_for_do. intros row.
    apply read_only_bind; [apply read_only_lift|]. intros version.
    apply read_only_bind; [apply read_only_lift|]. intros change.
    apply read_only_bind; [apply read_only_lift|]. intros time.
    cbv zeta. repeat case_match; apply read_only_print.
  - apply read_only_print.
Qed.

Lemma read_only_is_ishiiruka_build (p : string) :
  read_only (is_ishiiruka_build p).
Proof.
  apply read_only_bind; [apply read_only_query|]. intros data.
  apply read_only_ret.
Qed.

Lemma read_only_Popen (p : string) : read_only (Popen p).
Proof.
  apply read_only_bind; [apply read_only_ask|]. intros present.
  destruct present; [apply read_only_emit | apply read_only_raise].
Qed.

(** The orchestrator up to its decision: unless the next line of input is
    the empty line, the disk stays as it is. *)
Lemma update_dolphin_if_necessary_unconfirmed (p : string) (w : world) :
  head (stdin w) ≠ Some EmptyString →
  fs (snd (update_dolphin_if_necessary p w)) = fs w.
Proof.
  intros Hline. unfold update_dolphin_if_necessary.
  unfold bind at 1. unfold print, print_with, emit.
  set (w0 := log _ w).
  assert (fs w0 = fs w ∧ stdin w0 = stdin w) as [Hfs0 Hin0] by done.
  clearbody w0.
  unfold bind at 1.
  pose proof (read_only_is_ishiiruka_build p w0) as [Hfs1 Hin1].
  destruct (is_ishiiruka_build p w0) as [[flag|e] w1]; simpl in Hfs1, Hin1;
    [|simpl; congruence].
  unfold bind at 1.
  pose proof (read_only_init (if flag then Ishiiruka else Dolphin) p w1)
    as [Hfs2 Hin2].
  destruct (init _ p w1) as [[builds|e] w2]; simpl in Hfs2, Hin2;
    [|simpl; congruence].
  destruct (is_outdated builds); [|simpl; congruence].
  unfold bind at 1. set (w3 := log _ w2).
  assert (fs w3 = fs w2 ∧ stdin w3 = stdin w2) as [Hfs3 Hin3] by done.
  clearbody w3.
  unfold bind at 1.
  pose proof (read_only_print_latest_version builds w3) as [Hfs4 Hin4].
  destruct (print_latest_version _ builds w3) as [[[]|e] w4];
    simpl in Hfs4, Hin4; [|simpl; congruence].
  unfold bind, input.
  assert (stdin (log (Printed ("Press Enter to update" +:+ nl)) w4) = stdin w)
    as Hin by (simpl; congruence).
  rewrite Hin.
  destruct (stdin w) as [|line rest] eqn:Hstdin; [simpl; congruence|].
  destruct (String.eqb_spec line EmptyString) as [->|_]; [by destruct Hline|].
  simpl. congruence.
Qed.

End ReadOnly.

(** X8.  [main] never changes the disk without the operator's consent:
    unless the next line of input is the empty line, the file system at
    the end of the run is the one at its start, whatever the listing, the
    binary and the path argument are, and whether the run ends normally,
    with an exit status, or with an exception. *)
Theorem main_unconfirmed_leaves_disk
    (path_argument : option string) (w : world) :
  head (stdin w) ≠ Some EmptyString →
  fs (snd (main path_argument w)) = fs w.
Proof.
  intros Hline. unfold main.
  unfold bind at 1. unfold abspath.
  set (dolphin_exe_path := default _ path_argument).
  destruct (negb (endswith dolphin_exe_path "Dolphin.exe")); [done|].
  unfold bind at 1. unfold ask.
  destruct (negb (Fs.exists_ (Fs.parse dolphin_exe_path) (fs w))); [done|].
  unfold bind at 1.
  pose proof (update_dolphin_if_necessary_unconfirmed dolphin_exe_path w Hline)
    as Hfs.
  destruct (update_dolphin_if_necessary dolphin_exe_path w) as [[[]|e] w1];
    simpl in Hfs; [|done].
  pose proof (read_only_Popen dolphin_exe_path w1) as [Hfs2 _].
  congruence.
Qed.

Lemma main_unconfirmed_leaves_disk_witness :
  fs (snd (main (Some "Dolphin.exe")
             (with_stdin ["no"]
                (Worlds.serving Worlds.listing_page (b "MZ 5.0-19000")))))
  = fs (with_stdin ["no"]
          (Worlds.serving Worlds.listing_page (b "MZ 5.0-19000"))).
Proof.
  apply (main_unconfirmed_leaves_disk (Some "Dolphin.exe")
           (with_stdin ["no"]
              (Worlds.serving Worlds.listing_page (b "MZ 5.0-19000")))).
  discriminate.
Defined.

(** ** The default path *)

Section Endswith.

Lemma length_append (s t : string) :
  String.length (s +:+ t) = (String.length s + String.length t)%nat.
Proof.
  induction s as [|c s IH]; [done|].
  rewrite append_cons. simpl. by rewrite IH.
Qed.

Lemma substring_whole (t : string) : substring 0 (String.length t) t = t.
Proof. induction t as [|c t IH]; [done|]. simpl. by rewrite IH. Qed.

Lemma substring_append (s t : string) :
  substring (String.length s) (String.length t) (s +:+ t) = t.
Proof.
  induction s as [|c s IH].
  - rewrite append_nil_l. apply substring_whole.
  - rewrite append_cons. exact IH.
Qed.

(** A text ends with what was appended to it last. *)
Lemma endswith_append (s t : string) : endswith (s +:+ t) t = true.
Proof.
  unfold endswith. rewrite length_append.
  destruct (Nat.leb_spec (String.length t) (String.length s + String.length t));
    [|lia].
  replace (String.length s + String.length t - String.length t)%nat
    with (String.length s) by lia.
  rewrite substring_append. apply String.eqb_refl.
Qed.

End Endswith.

(** X9.  Without a path argument the program looks for [Dolphin.exe] in
    the current directory, and the check of the file name cannot fail:
    the run is the run on that path, and when no such file exists it ends
    with status 1 on the message about the missing file. *)
Theorem main_default_path (w : world) :
  ∃ dolphin_exe_path,
    abspath "Dolphin.exe" w = (Ok dolphin_exe_path, w)
    ∧ endswith dolphin_exe_path "Dolphin.exe" = true
    ∧ main None w = main (Some dolphin_exe_path) w
    ∧ (Fs.exists_ (Fs.parse dolphin_exe_path) (fs w) = false →
       main None w
       = (Raise (SystemExit 1),
          log (Printed (("No Dolphin.exe found at '" +:+ dolphin_exe_path
                         +:+ "'") +:+ nl)) w)).
Proof.
  eexists. split; [reflexivity|].
  assert (endswith (if endswith (cwd w) "\" then cwd w +:+ "Dolphin.exe"
                    else cwd w +:+ "\" +:+ "Dolphin.exe") "Dolphin.exe" = true)
    as Hend.
  { destruct (endswith (cwd w) "\"); [apply endswith_append|].
    change (cwd w +:+ "\" +:+ "Dolphin.exe")
      with (cwd w +:+ ("\" +:+ "Dolphin.exe")).
    replace (cwd w +:+ ("\" +:+ "Dolphin.exe"))
      with ((cwd w +:+ "\") +:+ "Dolphin.exe");
      [apply endswith_append|].
    induction (cwd w) as [|c s IH]; [done|].
    rewrite !append_cons. by rewrite IH. }
  split_and!; [exact Hend|reflexivity|].
  intros Hmissing. unfold main, bind, abspath, ask.
  cbv beta iota zeta. cbn [default from_option id]. rewrite Hend. cbn [negb].
  rewrite Hmissing. reflexivity.
Qed.

Lemma main_default_path_witness :
  main None Worlds.bare
  = (Raise (SystemExit 1),
     log (Printed ("No Dolphin.exe found at 'C:\emu\Dolphin.exe'" +:+ nl))
       Worlds.bare).
Proof.
  destruct (main_default_path Worlds.bare) as (path & Hpath & _ & _ & Hexit).
  injection Hpath as <-. apply Hexit. reflexivity.
Defined.

(** ** Downloading the archive *)

Section Download.
Import Worlds.
Local Arguments Fs.put : simpl never.
Local Arguments Fs.get : simpl never.

Lemma norm_is_plain (p : Fs.path) : Forall Fs.plain (Fs.norm p).
Proof.
  unfold Fs.norm. apply Forall_reverse.
  assert (∀ stack, Forall Fs.plain stack →
                   Forall Fs.plain (fold_left Fs.norm_step p stack)) as H.
  { induction p as [|c p IH]; intros stack Hstack; [done|].
    simpl. apply IH. unfold Fs.norm_step.
    destruct (String.eqb_spec c "..").
    { destruct Hstack; [done|]. done. }
    destruct (String.eqb_spec c "."); [done|].
    destruct (String.eqb_spec c EmptyString); [done|].
    simpl. constructor; [|done]. by split_and!. }
  by apply H.
Qed.

Lemma norm_idemp (p : Fs.path) : Fs.norm (Fs.norm p) = Fs.norm p.
Proof. apply norm_plain, norm_is_plain. Qed.

Lemma get_put_same (dir : Fs.path) (name : string) (o : option Fs.node)
    (n : Fs.node) (entries : gmap string Fs.node) :
  Fs.get dir n = Some (Fs.Dir entries) →
  Fs.get (dir ++ [name]) (Fs.put (dir ++ [name]) o n) = o.
Proof.
  intros Hdir. rewrite get_app, (get_put_entry dir name o n entries Hdir).
  cbn [mbind option_bind]. rewrite get_entry.
  by rewrite lookup_partial_alter_eq.
Qed.

Lemma get_child (dir : Fs.path) (name : string) (n : Fs.node)
    (entries : gmap string Fs.node) :
  Fs.get dir n = Some (Fs.Dir entries) →
  Fs.get (dir ++ [name]) n = entries !! name.
Proof.
  intros Hdir. rewrite get_app, Hdir. cbn [mbind option_bind].
  apply get_entry.
Qed.

(** Writing a file into a directory: allowed unless a directory has the
    name; the directory gains or replaces that one entry. *)
Lemma write_ok (dir : Fs.path) (name : string) (data : bytes) (n : Fs.node)
    (entries : gmap string Fs.node) :
  Forall Fs.plain dir → Fs.plain name →
  Fs.get dir n = Some (Fs.Dir entries) →
  (∀ m, entries !! name ≠ Some (Fs.Dir m)) →
  Fs.write (dir ++ [name]) data n
  = Ok (Fs.put (dir ++ [name]) (Some (Fs.File data)) n).
Proof.
  intros Hdir Hname Hget Hfree. unfold Fs.write.
  rewrite norm_plain by (apply Forall_app; split; [done|];
                         constructor; [done|constructor]).
  rewrite removelast_last, Hget, (get_child dir name n entries Hget).
  destruct (entries !! name) as [[data'|m]|] eqn:E; [done| |done].
  by destruct (Hfree m).
Qed.

Lemma requests_log_spawned (c : string) (w : world) :
  requests (log (Spawned c) w) = requests w.
Proof.
  unfold requests, log. simpl. rewrite List.filter_app, length_app. simpl. lia.
Qed.

(** The hook, called on a total other than zero, prints and returns. *)
Lemma report_blocks_ok (blocks : nat) : ∀ (blocknum size : Z) (w : world),
  size ≠ 0 →
  ∃ w', report_blocks download_report_hook blocks blocknum size w = (Ok tt, w')
        ∧ fs w' = fs w ∧ stdin w' = stdin w ∧ requests w' = requests w
        ∧ same_machine w w'.
Proof.
  induction blocks as [|blocks IH]; intros blocknum size w Hsize.
  - exists w. by split_and!.
  - cbn [report_blocks]. unfold bind at 1.
    destruct (download_report_hook_returns blocknum bs size w Hsize)
      as [line ->].
    destruct (IH (blocknum + 1) size (log (Printed line) w) Hsize)
      as (w' & -> & Hfs & Hin & Hreq & Hmachine).
    exists w'. split_and!; try done.
    by rewrite Hreq, requests_log_printed.
Qed.

End Download.

(** One run of [download] on an address the server answers. *)
Lemma download_run
    (u : string) (dir : Fs.path) (name : string) (w : world) (r : response)
    (entries : gmap string Fs.node) :
  Forall Fs.plain dir → Fs.plain name →
  web w (requests w) u = Some r →
  content_length r ≠ Some 0 →
  Fs.get dir (fs w) = Some (Fs.Dir entries) →
  (∀ m, entries !! name ≠ Some (Fs.Dir m)) →
  ∃ w',
    download (Some u) (dir ++ [name]) w
    = (if Worlds.too_short r then Raise ContentTooShortError else Ok tt, w')
    ∧ fs w' = Fs.put (dir ++ [name]) (Some (Fs.File (body r))) (fs w)
    ∧ Fs.read (dir ++ [name]) (fs w') = Ok (body r)
    ∧ Fs.get dir (fs w')
      = Some (Fs.Dir (<[name := Fs.File (body r)]> entries))
    ∧ requests w' = S (requests w)
    ∧ stdin w' = stdin w ∧ Worlds.same_machine w w'.
Proof.
  intros Hdir Hname Hweb Hlen Hget Hfree.
  assert (Forall Fs.plain (dir ++ [name])) as Htarget
    by (apply Forall_app; split; [done|]; constructor; [done|constructor]).
  assert (dir ++ [name] ≠ []) as Hnonempty by (by destruct dir).
  assert (default (-1) (content_length r) ≠ 0) as Hsize.
  { destruct (content_length r) as [z|]; simpl; [congruence|lia]. }
  unfold download, urlretrieve.
  unfold bind at 1. unfold bind at 1. unfold emit.
  set (w0 := log (Requested u) w).
  unfold bind at 1. cbv beta iota.
  change (web w0) with (web w). rewrite Hweb.
  unfold bind at 1. unfold change at 1.
  change (fs w0) with (fs w).
  rewrite (write_ok dir name [] (fs w) entries) by done.
  set (fs1 := Fs.put (dir ++ [name]) (Some (Fs.File [])) (fs w)).
  set (w1 := with_fs fs1 w0).
  unfold bind at 1.
  destruct (download_report_hook_returns 0 bs _ w1 Hsize) as [line ->].
  unfold bind at 1.
  destruct (report_blocks_ok
              (Z.to_nat ((Z.of_nat (length (body r)) + bs - 1) / bs)) 1
              _ (log (Printed line) w1) Hsize)
    as (w2 & -> & Hfs2 & Hin2 & Hreq2 & Hmachine2).
  unfold bind at 1. unfold change.
  assert (Fs.get dir fs1 = Some (Fs.Dir (<[name := Fs.File []]> entries)))
    as Hget1 by (by apply get_put_entry).
  rewrite Hfs2. change (fs (log (Printed line) w1)) with fs1.
  rewrite (write_ok dir name (body r) fs1 _ Hdir Hname Hget1).
  2: { intros m. rewrite lookup_insert_eq. done. }
  unfold fs1. rewrite put_put_same by done.
  set (fs2 := Fs.put (dir ++ [name]) (Some (Fs.File (body r))) (fs w)).
  assert (Fs.get dir fs2 = Some (Fs.Dir (<[name := Fs.File (body r)]> entries)))
    as Hget2 by (by apply get_put_entry).
  exists (with_fs fs2 w2). split_and!.
  - unfold Worlds.too_short. by destruct (_ && _).
  - done.
  - unfold Fs.read. rewrite norm_plain by done. cbn [fs with_fs].
    unfold fs2. by rewrite (get_put_same dir name _ _ entries).
  - done.
  - change (requests w2 = S (requests w)).
    rewrite Hreq2, requests_log_printed. apply requests_log_request.
  - cbn [stdin with_fs]. by rewrite Hin2.
  - destruct Hmachine2 as (H1 & H2 & H3 & H4 & H5 & H6).
    by split_and!.
Qed.

(** X10.  [download] of an address the server answers, into a directory
    that exists and has no directory of the target's name, with a
    declared length other than zero (or none): exactly one request is
    sent, the target file holds the body afterwards, replacing any file of
    that name, and the other entries of the directory are as before.  The
    call returns, unless the server declared more bytes than it sent: then
    it raises [ContentTooShortError], with the bytes received already in
    the file. *)
Theorem download_writes_body
    (u : string) (dir : Fs.path) (name : string) (w : world) (r : response)
    (entries : gmap string Fs.node) :
  Forall Fs.plain dir → Fs.plain name →
  web w (requests w) u = Some r →
  content_length r ≠ Some 0 →
  Fs.get dir (fs w) = Some (Fs.Dir entries) →
  (∀ m, entries !! name ≠ Some (Fs.Dir m)) →
  ∃ w',
    download (Some u) (dir ++ [name]) w
    = (if Worlds.too_short r then Raise ContentTooShortError else Ok tt, w')
    ∧ fs w' = Fs.put (dir ++ [name]) (Some (Fs.File (body r))) (fs w)
    ∧ Fs.read (dir ++ [name]) (fs w') = Ok (body r)
    ∧ Fs.get dir (fs w')
      = Some (Fs.Dir (<[name := Fs.File (body r)]> entries))
    ∧ requests w' = S (requests w)
    ∧ stdin w' = stdin w ∧ Worlds.same_machine w w'.
Proof. apply download_run. Qed.

Lemma download_writes_body_witness :
  ∃ w',
    download (Some "https://dl.dolphin-emu.org/builds/x.7z")
      (["emu"] ++ ["Dolphin.7z"]) Worlds.updating
    = (if Worlds.too_short Worlds.archive_response
       then Raise ContentTooShortError else Ok tt, w')
    ∧ fs w' = Fs.put (["emu"] ++ ["Dolphin.7z"])
                (Some (Fs.File (body Worlds.archive_response)))
                (fs Worlds.updating)
    ∧ Fs.read (["emu"] ++ ["Dolphin.7z"]) (fs w')
      = Ok (body Worlds.archive_response)
    ∧ Fs.get ["emu"] (fs w')
      = Some (Fs.Dir (<["Dolphin.7z" := Fs.File (body Worlds.archive_response)]>
                        Worlds.installed_files))
    ∧ requests w' = S (requests Worlds.updating)
    ∧ stdin w' = stdin Worlds.updating
    ∧ Worlds.same_machine Worlds.updating w'.
Proof.
  apply (download_writes_body "https://dl.dolphin-emu.org/builds/x.7z"
           ["emu"] "Dolphin.7z" Worlds.updating Worlds.archive_response
           Worlds.installed_files).
  - repeat constructor; discriminate.
  - split_and!; discriminate.
  - reflexivity.
  - discriminate.
  - vm_compute. reflexivity.
  - intros m H. vm_compute in H. discriminate.
Defined.

(** ** Unpacking the archive *)

Section Extract.
Import Worlds.
Local Arguments Fs.put : simpl never.
Local Arguments Fs.get : simpl never.

Lemma snoc_plain (dir : Fs.path) (name : string) :
  Forall Fs.plain dir → Fs.plain name → Forall Fs.plain (dir ++ [name]).
Proof.
  intros Hdir Hname. apply Forall_app. split; [done|].
  constructor; [done|constructor].
Qed.

(** Clearing the folder before the archiver runs: whether it was there or
    not, it is not there afterwards, and nothing else has changed. *)
Lemma clear_folder (dir : Fs.path) (name : string) (n : Fs.node)
    (entries : gmap string Fs.node) :
  Forall Fs.plain dir → Fs.plain name →
  Fs.get dir n = Some (Fs.Dir entries) →
  (∀ data, entries !! name ≠ Some (Fs.File data)) →
  (if Fs.exists_ (dir ++ [name]) n
   then Fs.rmtree (dir ++ [name]) n else Ok n)
  = Ok (Fs.put (dir ++ [name]) None n).
Proof.
  intros Hdir Hname Hget Hfolder.
  unfold Fs.exists_, Fs.rmtree. rewrite norm_plain by (by apply snoc_plain).
  rewrite (get_child dir name n entries Hget).
  destruct (entries !! name) as [[data|m]|] eqn:E.
  - by destruct (Hfolder data).
  - by destruct dir.
  - rewrite put_None_absent; [done|].
    by rewrite (get_child dir name n entries Hget).
Qed.

(** One run of [extract_dolphin_7z], whatever the archiver makes of the
    archive. *)
Lemma extract_run (file_name dir : Fs.path) (name : string) (w : world)
    (data : bytes) (entries : gmap string Fs.node) :
  Forall Fs.plain dir → Fs.plain name →
  Fs.get dir (fs w) = Some (Fs.Dir entries) →
  (∀ data', entries !! name ≠ Some (Fs.File data')) →
  Fs.diverge (dir ++ [name]) (Fs.norm (resource_dir w ++ ["7zr.exe"])) →
  Fs.exists_ (resource_dir w ++ ["7zr.exe"]) (fs w) = true →
  Fs.diverge (dir ++ [name]) (Fs.norm file_name) →
  Fs.read file_name (fs w) = Ok data →
  ∃ w',
    extract_dolphin_7z file_name (dir ++ [name]) w = (Ok tt, w')
    ∧ fs w' = Fs.put (dir ++ [name]) (Fs.Dir <$> archiver w data) (fs w)
    ∧ trace w'
      = trace w
        ++ [Spawned (Fs.render (resource_dir w ++ ["7zr.exe"]) +:+ " x "
                     +:+ dquote +:+ Fs.render file_name +:+ dquote
                     +:+ " -o" +:+ dquote +:+ Fs.render (dir ++ [name])
                     +:+ dquote +:+ " -aoa")]
    ∧ stdin w' = stdin w ∧ same_machine w w'.
Proof.
  intros Hdir Hname Hget Hfolder Htool_apart Htool Hfile_apart Hread.
  assert (dir ++ [name] ≠ []) as Hnonempty by (by destruct dir).
  unfold extract_dolphin_7z.
  unfold bind at 1. unfold ask at 1. cbv beta iota.
  unfold bind at 1.
  assert ((if Fs.exists_ (dir ++ [name]) (fs w)
           then change (Fs.rmtree (dir ++ [name])) else ret tt) w
          = (Ok tt, with_fs (Fs.put (dir ++ [name]) None (fs w)) w)) as ->.
  { pose proof (clear_folder dir name (fs w) entries Hdir Hname Hget Hfolder)
      as Hclear.
    destruct (Fs.exists_ (dir ++ [name]) (fs w)).
    - unfold change. by rewrite Hclear.
    - injection Hclear as <-. by destruct w. }
  set (fs1 := Fs.put (dir ++ [name]) None (fs w)).
  unfold bind at 1. unfold get_resource_path. cbv beta iota.
  cbn [resource_dir with_fs].
  unfold run_archiver. unfold bind at 1. unfold ask. cbn [fs with_fs].
  assert (Fs.exists_ (resource_dir w ++ ["7zr.exe"]) fs1 = true) as ->.
  { unfold Fs.exists_ in *. unfold fs1. by rewrite get_put_apart. }
  cbn [negb]. unfold bind, emit. cbn [fs with_fs log archiver].
  assert (Fs.read file_name fs1 = Ok data) as ->.
  { unfold Fs.read in *. unfold fs1. by rewrite get_put_apart. }
  rewrite norm_plain by (by apply snoc_plain).
  destruct (archiver w data) as [tree|] eqn:Harchiver.
  - eexists. split; [reflexivity|]. split_and!; try done.
    cbn [fs with_fs fmap option_fmap option_map]. unfold fs1.
    by rewrite put_put_same.
  - eexists. split; [reflexivity|]. by split_and!.
Qed.

End Extract.



(** X12.  An archive the archiver cannot unpack goes unnoticed by
    [extract_dolphin_7z], which returns normally; the extraction folder is
    then absent, also when one was there before, and [update_dolphin]
    raises [FileNotFoundError] on it for every installation directory,
    before it has moved or deleted anything. *)
Theorem corrupt_archive_FileNotFoundError
    (file_name dir : Fs.path) (name : string) (w : world) (data : bytes)
    (entries : gmap string Fs.node) :
  Forall Fs.plain dir → Fs.plain name →
  Fs.get dir (fs w) = Some (Fs.Dir entries) →
  (∀ data', entries !! name ≠ Some (Fs.File data')) →
  Fs.diverge (dir ++ [name]) (Fs.norm (resource_dir w ++ ["7zr.exe"])) →
  Fs.exists_ (resource_dir w ++ ["7zr.exe"]) (fs w) = true →
  Fs.diverge (dir ++ [name]) (Fs.norm file_name) →
  Fs.read file_name (fs w) = Ok data →
  archiver w data = None →
  ∃ w',
    extract_dolphin_7z file_name (dir ++ [name]) w = (Ok tt, w')
    ∧ Fs.get (dir ++ [name]) (fs w') = None
    ∧ Fs.get dir (fs w') = Some (Fs.Dir (delete name entries))
    ∧ ∀ directory,
        update_dolphin directory (dir ++ [name]) (fs w')
        = Raise FileNotFoundError.
Proof.
  intros Hdir Hname Hget Hfolder Htool_apart Htool Hfile_apart Hread Hnone.
  destruct (extract_run file_name dir name w data entries)
    as (w' & Hrun & Hfs & _); try done.
  rewrite Hnone in Hfs. cbn [fmap option_fmap option_map] in Hfs.
  assert (Fs.get (dir ++ [name]) (fs w') = None) as Habsent.
  { rewrite Hfs. apply get_put_None. by destruct dir. }
  exists w'. split_and!; try done.
  - rewrite Hfs. by apply get_put_entry.
  - intros directory. unfold update_dolphin, Fs.listdir.
    rewrite (norm_plain (dir ++ [name])) by (by apply snoc_plain).
    by rewrite Habsent.
Qed.

Lemma corrupt_archive_FileNotFoundError_witness :
  ∃ w',
    extract_dolphin_7z ["emu"; "Dolphin.7z"] (["emu"] ++ ["Extracted"])
      Worlds.corrupt = (Ok tt, w')
    ∧ Fs.get (["emu"] ++ ["Extracted"]) (fs w') = None
    ∧ Fs.get ["emu"] (fs w')
      = Some (Fs.Dir (delete "Extracted" Worlds.downloaded_files))
    ∧ ∀ directory,
        update_dolphin directory (["emu"] ++ ["Extracted"]) (fs w')
        = Raise FileNotFoundError.
Proof.
  apply (corrupt_archive_FileNotFoundError ["emu"; "Dolphin.7z"] ["emu"]
           "Extracted" Worlds.corrupt (b "7z-archive")
           Worlds.downloaded_files).
  - repeat constructor; discriminate.
  - split_and!; discriminate.
  - vm_compute. reflexivity.
  - intros data' H. vm_compute in H. discriminate.
  - exists ["emu"], "Extracted", "7zr.exe", [], [].
    split_and!; [reflexivity|reflexivity|discriminate].
  - reflexivity.
  - exists ["emu"], "Extracted", "Dolphin.7z", [], [].
    split_and!; [reflexivity|reflexivity|discriminate].
  - reflexivity.
  - reflexivity.
Defined.

(** ** The install step, for any shape of the archive *)

Section InstallFrom.
Local Arguments Fs.put : simpl never.
Local Arguments Fs.get : simpl never.

(** The installation directory [d], the extraction folder [x] and the
    folder [x ++ s] inside it that the files are taken from. *)
Variables d x s : Fs.path.
Hypothesis d_plain : Forall Fs.plain d.
Hypothesis x_plain : Forall Fs.plain x.
Hypothesis s_plain : Forall Fs.plain s.
Hypothesis x_not_above : ¬ x `prefix_of` d.

(** One round of the loop; what lies apart from both the directory and
    the folder is not touched. *)
Lemma move_entry_ok (k : string) (n : Fs.node) (fs : Fs.node)
    (todo cur : gmap string Fs.node) :
  Fs.plain k →
  Fs.diverge (d ++ [k]) x →
  Fs.get (x ++ s) fs = Some (Fs.Dir todo) →
  todo !! k = Some n →
  Fs.get d (Fs.put x None fs) = Some (Fs.Dir cur) →
  ∃ fs',
    replace_entry d (x ++ s) k fs = Ok fs'
    ∧ Fs.get (x ++ s) fs' = Some (Fs.Dir (delete k todo))
    ∧ Fs.get d (Fs.put x None fs') = Some (Fs.Dir (<[k := n]> cur))
    ∧ ∀ q, Fs.diverge d q → Fs.diverge x q → Fs.get q fs' = Fs.get q fs.
Proof.
  intros Hk Hdiv Hsource Hn Hcur.
  set (old := d ++ [k]). set (new := (x ++ s) ++ [k]).
  assert (x ≠ []) as Hx by (intros ->; apply x_not_above, prefix_nil).
  assert (Fs.diverge old (x ++ s)) as Hdiv_source by by apply diverge_app_r.
  assert (Fs.diverge old new) as Hdiv_new by by do 2 apply diverge_app_r.
  assert (Fs.norm old = old) as Hnorm_old by by apply entry_plain.
  assert (Fs.norm new = new) as Hnorm_new.
  { apply norm_plain. repeat (apply Forall_app; split); try done.
    constructor; [done|constructor]. }
  assert (old ≠ []) as Hold by (unfold old; by destruct d).
  assert ((if Fs.exists_ old fs
           then if Fs.isdir old fs then Fs.rmtree old fs else Fs.remove old fs
           else Ok fs) = Ok (Fs.put old None fs)) as Hremoved.
  { unfold Fs.exists_, Fs.isdir, Fs.rmtree, Fs.remove. rewrite Hnorm_old.
    destruct (Fs.get old fs) as [[data|m]|] eqn:Hget.
    - done.
    - by destruct old.
    - by rewrite put_None_absent. }
  assert (Fs.get new (Fs.put old None fs) = Some n) as Hnew.
  { rewrite get_put_apart by done. unfold new. rewrite get_app, Hsource.
    cbn [mbind option_bind]. by rewrite get_entry. }
  assert (∃ m, Fs.get d (Fs.put new None (Fs.put old None fs))
               = Some (Fs.Dir m)) as [m Hdir].
  { apply is_dir_put.
    { intros H. apply x_not_above. etrans; [|exact H].
      unfold new. rewrite <- app_assoc. by apply prefix_app_r. }
    apply is_dir_put; [apply prefix_snoc_not|].
    apply (is_dir_put d x None); [done|]. eauto. }
  exists (Fs.put old (Some n) (Fs.put new None (Fs.put old None fs))).
  split_and!.
  - unfold replace_entry. fold old new. rewrite Hremoved.
    cbn [mbind result_bind]. unfold Fs.move. rewrite Hnorm_old, Hnorm_new, Hnew.
    rewrite get_put_None by done.
    unfold Fs.rename.
    rewrite bool_decide_eq_false_2 by (apply not_eq_sym; by apply diverge_ne).
    rewrite bool_decide_eq_false_2
      by (by apply diverge_not_prefix, diverge_sym).
    rewrite get_put_None by done.
    unfold old at 1. rewrite removelast_last. by rewrite Hdir.
  - rewrite get_put_apart by done.
    unfold new. rewrite get_put_below by done.
    rewrite get_put_apart by done. by rewrite Hsource.
  - rewrite (put_put_apart x old) by (by apply diverge_sym).
    unfold new. rewrite <- app_assoc.
    rewrite put_absorb by done.
    rewrite (put_put_apart x old) by (by apply diverge_sym).
    rewrite put_put_same by done.
    unfold old. by rewrite get_put_below, Hcur.
  - intros q Hdq Hxq.
    assert (Fs.diverge old q) as Hold_q
      by (by apply diverge_sym, diverge_app_r, diverge_sym).
    assert (Fs.diverge new q) as Hnew_q
      by (by do 2 apply diverge_sym, diverge_app_r, diverge_sym).
    by rewrite !get_put_apart.
Qed.

(** The loop, over any enumeration of the names still to move. *)
Lemma for_each_move_ok (l : list string) :
  ∀ (fs : Fs.node) (todo cur : gmap string Fs.node),
    NoDup l →
    (∀ k, k ∈ l ↔ is_Some (todo !! k)) →
    (∀ k, k ∈ l → Fs.plain k ∧ Fs.diverge (d ++ [k]) x) →
    Fs.get (x ++ s) fs = Some (Fs.Dir todo) →
    Fs.get d (Fs.put x None fs) = Some (Fs.Dir cur) →
    ∃ fs',
      for_each l (replace_entry d (x ++ s)) fs = Ok fs'
      ∧ (∃ rest, Fs.get (x ++ s) fs' = Some (Fs.Dir rest))
      ∧ Fs.get d (Fs.put x None fs') = Some (Fs.Dir (todo ∪ cur))
      ∧ ∀ q, Fs.diverge d q → Fs.diverge x q → Fs.get q fs' = Fs.get q fs.
Proof.
  induction l as [|k l IH]; intros fs todo cur Hnodup Hdom Hnames Hsource Hcur.
  - exists fs. split_and!; [done|by eauto| |done].
    assert (todo = ∅) as ->.
    { apply map_empty. intros i. apply eq_None_not_Some.
      intros Hi%Hdom. by apply elem_of_nil in Hi. }
    by rewrite (left_id_L ∅ (∪)).
  - apply NoDup_cons in Hnodup as [Hfresh Hnodup].
    destruct (proj1 (Hdom k)) as [n Hn]; [by left|].
    destruct (Hnames k) as [Hk Hdiv]; [by left|].
    destruct (move_entry_ok k n fs todo cur Hk Hdiv Hsource Hn Hcur)
      as (fs1 & Hstep & Hsource1 & Hcur1 & Hframe1).
    destruct (IH fs1 (delete k todo) (<[k := n]> cur))
      as (fs' & Hloop & Hrest & Hfinal & Hframe).
    + done.
    + intros k'. rewrite lookup_delete_is_Some. split.
      * intros Hk'. split; [by intros ->|]. apply Hdom. by right.
      * intros [Hne [|Hk']%Hdom%elem_of_cons]; done.
    + intros k' Hk'. apply Hnames. by right.
    + done.
    + done.
    + exists fs'. split_and!; [|done| |].
      * cbn [for_each]. rewrite Hstep. exact Hloop.
      * rewrite Hfinal. by rewrite union_delete_insert.
      * intros q Hdq Hxq. rewrite Hframe by done. by apply Hframe1.
Qed.

(** The loop over the listing of the source folder. *)
Lemma move_listing_ok (fs : Fs.node) (todo cur : gmap string Fs.node) :
  (∀ k, is_Some (todo !! k) → Fs.plain k ∧ ¬ (d ++ [k]) `prefix_of` x) →
  Fs.get (x ++ s) fs = Some (Fs.Dir todo) →
  Fs.get d (Fs.put x None fs) = Some (Fs.Dir cur) →
  ∃ fs',
    for_each (map_to_list todo).*1 (replace_entry d (x ++ s)) fs = Ok fs'
    ∧ (∃ rest, Fs.get (x ++ s) fs' = Some (Fs.Dir rest))
    ∧ Fs.get d (Fs.put x None fs') = Some (Fs.Dir (todo ∪ cur))
    ∧ ∀ q, Fs.diverge d q → Fs.diverge x q → Fs.get q fs' = Fs.get q fs.
Proof.
  intros Hnames Hsource Hcur.
  apply for_each_move_ok with (todo := todo); [| | |done|done].
  - apply NoDup_fst_map_to_list.
  - intros k. rewrite list_elem_of_fmap. split.
    + intros [[k' v] [-> Hin%elem_of_map_to_list]]. by exists v.
    + intros [v Hv]. exists (k, v). by rewrite elem_of_map_to_list.
  - intros k [[k' v] [-> Hin%elem_of_map_to_list]]%list_elem_of_fmap.
    destruct (Hnames k') as [Hplain Hnot]; [by exists v|].
    split; [done|]. by apply entry_diverges.
Qed.

End InstallFrom.

(** A directory whose listing is one name holds one entry. *)
Lemma listing_singleton (m : gmap string Fs.node) (k : string) :
  (map_to_list m).*1 = [k] → ∃ n, m = {[ k := n ]}.
Proof.
  intros Hlist. rewrite <- (list_to_map_to_list m).
  destruct (map_to_list m) as [|[k' n] [|]]; try done.
  simpl in Hlist. injection Hlist as ->. exists n. simpl.
  by rewrite insert_empty.
Qed.

(** [update_dolphin] on an archive that unpacked to the one folder
    [Dolphin-x64]. *)
Lemma update_dolphin_wrapped_run
    (d x : Fs.path) (fs : Fs.node) (inner pre : gmap string Fs.node) :
  Forall Fs.plain d →
  Forall Fs.plain x →
  ¬ x `prefix_of` d →
  Fs.get x fs = Some (Fs.Dir {[ packed_folder_name := Fs.Dir inner ]}) →
  Fs.get d (Fs.put x None fs) = Some (Fs.Dir pre) →
  (∀ k, is_Some (inner !! k) → Fs.plain k ∧ ¬ (d ++ [k]) `prefix_of` x) →
  ∃ fs',
    update_dolphin d x fs = Ok fs'
    ∧ Fs.get d fs' = Some (Fs.Dir (inner ∪ pre))
    ∧ Fs.get x fs' = None
    ∧ ∀ q, Fs.diverge d q → Fs.diverge x q → Fs.get q fs' = Fs.get q fs.
Proof.
  intros Hd Hx Hxd Hfolder Hpre Hnames.
  assert (x ≠ []) as Hx_nonempty by (intros ->; apply Hxd, prefix_nil).
  assert (Forall Fs.plain [packed_folder_name]) as Hs
    by (constructor; [apply packed_plain|constructor]).
  assert (Fs.get (x ++ [packed_folder_name]) fs = Some (Fs.Dir inner))
    as Hsource.
  { rewrite get_app, Hfolder. cbn [mbind option_bind].
    by rewrite get_entry, lookup_singleton_eq. }
  destruct (move_listing_ok d x [packed_folder_name] Hd Hx Hs Hxd
              fs inner pre Hnames Hsource Hpre)
    as (fs' & Hloop & [rest Hrest] & Hfinal & Hframe).
  apply get_snoc in Hrest as (m & Hx_dir & _).
  exists (Fs.put x None fs'). split_and!; [|done|by apply get_put_None|].
  - assert (Fs.listdir x fs = Ok [packed_folder_name]) as Hlist.
    { unfold Fs.listdir. rewrite (norm_plain x Hx), Hfolder.
      by rewrite map_to_list_singleton. }
    assert (Fs.listdir (x ++ [packed_folder_name]) fs
            = Ok (map_to_list inner).*1) as Hlist_source.
    { unfold Fs.listdir.
      rewrite (norm_plain (x ++ [packed_folder_name]))
        by (by apply Forall_app).
      by rewrite Hsource. }
    unfold update_dolphin. rewrite Hlist. cbn [mbind result_bind].
    rewrite bool_decide_eq_true_2 by done.
    rewrite Hlist_source. cbn [mbind result_bind]. rewrite Hloop.
    cbn [mbind result_bind].
    replace (Fs.path_endswith (x ++ [packed_folder_name]) packed_folder_name)
      with true by (unfold Fs.path_endswith; by rewrite last_snoc).
    unfold Fs.rmtree. rewrite norm_down_up by (done || apply packed_plain).
    rewrite Hx_dir. by destruct x.
  - intros q Hdq Hxq. rewrite get_put_apart by done. by apply Hframe.
Qed.

(** X13.  [update_dolphin] on an archive that unpacked flat, that is to
    anything but the one entry [Dolphin-x64], in an extraction folder
    whose name does not end in [Dolphin-x64]: the entries of the folder
    themselves are merged over the installation directory, the folder is
    gone afterwards, and what lies apart from the directory and the folder
    is as before. *)
Theorem update_dolphin_flat
    (d x : Fs.path) (fs : Fs.node) (entries pre : gmap string Fs.node) :
  Forall Fs.plain d →
  Forall Fs.plain x →
  ¬ x `prefix_of` d →
  Fs.get x fs = Some (Fs.Dir entries) →
  (∀ n, entries ≠ {[ packed_folder_name := n ]}) →
  Fs.path_endswith x packed_folder_name = false →
  Fs.get d (Fs.put x None fs) = Some (Fs.Dir pre) →
  (∀ k, is_Some (entries !! k) → Fs.plain k ∧ ¬ (d ++ [k]) `prefix_of` x) →
  ∃ fs',
    update_dolphin d x fs = Ok fs'
    ∧ Fs.get d fs' = Some (Fs.Dir (entries ∪ pre))
    ∧ Fs.get x fs' = None
    ∧ ∀ q, Fs.diverge d q → Fs.diverge x q → Fs.get q fs' = Fs.get q fs.
Proof.
  intros Hd Hx Hxd Hfolder Hflat Hname Hpre Hnames.
  assert (x ≠ []) as Hx_nonempty by (intros ->; apply Hxd, prefix_nil).
  assert (Fs.get (x ++ []) fs = Some (Fs.Dir entries)) as Hsource
    by (by rewrite app_nil_r).
  destruct (move_listing_ok d x [] Hd Hx (Forall_nil_2 _) Hxd
              fs entries pre Hnames Hsource Hpre)
    as (fs' & Hloop & [rest Hrest] & Hfinal & Hframe).
  rewrite app_nil_r in Hloop, Hrest.
  exists (Fs.put x None fs'). split_and!; [|done|by apply get_put_None|].
  - assert (Fs.listdir x fs = Ok (map_to_list entries).*1) as Hlist.
    { unfold Fs.listdir. by rewrite (norm_plain x Hx), Hfolder. }
    unfold update_dolphin. rewrite Hlist. cbn [mbind result_bind].
    rewrite bool_decide_eq_false_2.
    2: { intros [n Hn]%listing_singleton. by apply (Hflat n). }
    cbn [mbind result_bind]. rewrite Hloop. cbn [mbind result_bind].
    rewrite Hname. unfold Fs.rmtree. rewrite (norm_plain x Hx), Hrest.
    by destruct x.
  - intros q Hdq Hxq. rewrite get_put_apart by done. by apply Hframe.
Qed.

Lemma update_dolphin_flat_witness :
  ∃ fs',
    update_dolphin ["emu"] ["emu"; "Extracted"] Worlds.disk_flat = Ok fs'
    ∧ Fs.get ["emu"] fs' = Some (Fs.Dir (Worlds.new_files ∪ Worlds.old_files))
    ∧ Fs.get ["emu"; "Extracted"] fs' = None
    ∧ ∀ q, Fs.diverge ["emu"] q → Fs.diverge ["emu"; "Extracted"] q →
           Fs.get q fs' = Fs.get q Worlds.disk_flat.
Proof.
  apply (update_dolphin_flat ["emu"] ["emu"; "Extracted"] Worlds.disk_flat
           Worlds.new_files Worlds.old_files).
  - repeat constructor; discriminate.
  - repeat constructor; discriminate.
  - apply (bool_decide_unpack _). vm_compute. exact I.
  - vm_compute. reflexivity.
  - intros n H.
    apply (f_equal (fun m : gmap string Fs.node => m !! "Sys")) in H.
    vm_compute in H. discriminate.
  - reflexivity.
  - vm_compute. reflexivity.
  - intros k [v Hk]. revert k v Hk. apply map_Forall_lookup.
    apply (bool_decide_unpack _). vm_compute. exact I.
Defined.

(** X14.  When the extraction folder holds exactly one entry called
    [Dolphin-x64] and that entry is a file, [update_dolphin] raises
    [NotADirectoryError], whatever the installation directory is. *)
Theorem update_dolphin_lone_file
    (d x : Fs.path) (fs : Fs.node) (data : bytes) :
  Forall Fs.plain x →
  Fs.get x fs = Some (Fs.Dir {[ packed_folder_name := Fs.File data ]}) →
  update_dolphin d x fs = Raise NotADirectoryError.
Proof.
  intros Hx Hfolder.
  assert (Fs.listdir x fs = Ok [packed_folder_name]) as Hlist.
  { unfold Fs.listdir. rewrite (norm_plain x Hx), Hfolder.
    by rewrite map_to_list_singleton. }
  assert (Fs.listdir (x ++ [packed_folder_name]) fs
          = Raise NotADirectoryError) as Hlist_source.
  { unfold Fs.listdir.
    rewrite (norm_plain (x ++ [packed_folder_name])).
    2: { apply Forall_app. split; [done|].
         constructor; [apply packed_plain|constructor]. }
    rewrite get_app, Hfolder. cbn [mbind option_bind].
    by rewrite get_entry, lookup_singleton_eq. }
  unfold update_dolphin. rewrite Hlist. cbn [mbind result_bind].
  rewrite bool_decide_eq_true_2 by done.
  by rewrite Hlist_source.
Qed.

Lemma update_dolphin_lone_file_witness :
  update_dolphin ["emu"] ["emu"; "Extracted"] Worlds.disk_lone_file
  = Raise NotADirectoryError.
Proof.
  apply (update_dolphin_lone_file ["emu"] ["emu"; "Extracted"]
           Worlds.disk_lone_file (b "not a folder")).
  - repeat constructor; discriminate.
  - vm_compute. reflexivity.
Defined.

(** Nothing is left below a path that has been removed. *)
Lemma get_below_removed (p r : Fs.path) (n : Fs.node) :
  p ≠ [] → Fs.get (p ++ r) (Fs.put p None n) = None.
Proof. intros Hp. by rewrite get_app, get_put_None. Qed.

(** X15.  [update_dolphin] decides by the folder's name whether to step
    up before it deletes: on an archive that unpacked flat into a folder
    whose name ends in [Dolphin-x64], the entries are moved, and then the
    folder's parent is deleted with all it holds, which takes the
    installation directory with it when the folder lies in or below it. *)
Theorem update_dolphin_flat_removes_parent
    (d p : Fs.path) (c : string) (fs : Fs.node)
    (entries pre : gmap string Fs.node) :
  Forall Fs.plain d →
  Forall Fs.plain p → Fs.plain c → p ≠ [] →
  ¬ (p ++ [c]) `prefix_of` d →
  Fs.get (p ++ [c]) fs = Some (Fs.Dir entries) →
  (∀ n, entries ≠ {[ packed_folder_name := n ]}) →
  endswith c packed_folder_name = true →
  Fs.get d (Fs.put (p ++ [c]) None fs) = Some (Fs.Dir pre) →
  (∀ k, is_Some (entries !! k) →
        Fs.plain k ∧ ¬ (d ++ [k]) `prefix_of` (p ++ [c])) →
  ∃ fs',
    update_dolphin d (p ++ [c]) fs = Ok fs'
    ∧ Fs.get p fs' = None
    ∧ (p `prefix_of` d → Fs.get d fs' = None).
Proof.
  intros Hd Hp Hc Hp_nonempty Hxd Hfolder Hflat Hname Hpre Hnames.
  set (x := p ++ [c]) in *.
  assert (Forall Fs.plain x) as Hx.
  { apply Forall_app. split; [done|]. constructor; [done|constructor]. }
  assert (Fs.get (x ++ []) fs = Some (Fs.Dir entries)) as Hsource
    by (by rewrite app_nil_r).
  destruct (move_listing_ok d x [] Hd Hx (Forall_nil_2 _) Hxd
              fs entries pre Hnames Hsource Hpre)
    as (fs' & Hloop & [rest Hrest] & Hfinal & Hframe).
  rewrite app_nil_r in Hloop, Hrest.
  apply get_snoc in Hrest as (m & Hparent & _).
  exists (Fs.put p None fs'). split_and!.
  - assert (Fs.listdir x fs = Ok (map_to_list entries).*1) as Hlist.
    { unfold Fs.listdir. by rewrite (norm_plain x Hx), Hfolder. }
    unfold update_dolphin. rewrite Hlist. cbn [mbind result_bind].
    rewrite bool_decide_eq_false_2.
    2: { intros [n Hn]%listing_singleton. by apply (Hflat n). }
    cbn [mbind result_bind]. rewrite Hloop. cbn [mbind result_bind].
    replace (Fs.path_endswith x packed_folder_name) with true
      by (unfold Fs.path_endswith, x; by rewrite last_snoc).
    unfold Fs.rmtree, x. rewrite norm_down_up by done.
    rewrite Hparent. by destruct p.
  - by apply get_put_None.
  - intros [r ->]. by apply get_below_removed.
Qed.

Lemma update_dolphin_flat_removes_parent_witness :
  ∃ fs',
    update_dolphin ["emu"] (["emu"] ++ ["Dolphin-x64"])
      Worlds.disk_named_like_archive = Ok fs'
    ∧ Fs.get ["emu"] fs' = None
    ∧ (["emu"] `prefix_of` ["emu"] → Fs.get ["emu"] fs' = None).
Proof.
  apply (update_dolphin_flat_removes_parent ["emu"] ["emu"] "Dolphin-x64"
           Worlds.disk_named_like_archive Worlds.new_files Worlds.old_files).
  - repeat constructor; discriminate.
  - repeat constructor; discriminate.
  - split_and!; discriminate.
  - discriminate.
  - apply (bool_decide_unpack _). vm_compute. exact I.
  - vm_compute. reflexivity.
  - intros n H.
    apply (f_equal (fun m : gmap string Fs.node => m !! "Sys")) in H.
    vm_compute in H. discriminate.
  - reflexivity.
  - vm_compute. reflexivity.
  - intros k [v Hk]. revert k v Hk. apply map_Forall_lookup.
    apply (bool_decide_unpack _). vm_compute. exact I.
Defined.

(** ** The whole update *)

Section WholeUpdate.
Import Worlds.
Local Arguments Fs.put : simpl never.
Local Arguments Fs.get : simpl never.

Lemma removelast_plain (p : Fs.path) :
  Forall Fs.plain p → Forall Fs.plain (removelast p).
Proof.
  induction 1 as [|c p Hc Hp IH]; [constructor|].
  destruct p as [|c' p]; [constructor|]. by constructor.
Qed.

Lemma sibling_diverges (dir : Fs.path) (a c : string) :
  a ≠ c → Fs.diverge (dir ++ [a]) (dir ++ [c]).
Proof. intros Hne. by exists dir, a, c, [], []. Qed.

Lemma below_diverges (dir r q : Fs.path) :
  Fs.diverge dir q → Fs.diverge (dir ++ r) q.
Proof. intros H. by apply diverge_sym, diverge_app_r, diverge_sym. Qed.

Lemma requests_same_trace (w w' : world) (e : event) :
  is_request e = false → trace w' = trace w ++ [e] → requests w' = requests w.
Proof.
  intros He Htrace. unfold requests. rewrite Htrace, List.filter_app, length_app.
  simpl. rewrite He. simpl. lia.
Qed.

Lemma print_run (args : list string) (w : world) :
  ∃ line, print args w = (Ok tt, log (Printed line) w).
Proof. by eexists. Qed.

(** X16.  [download_and_update] on an installation directory that
    exists, with no folder in the way of the archive and no file in the way
    of the extraction folder, a server that sends the archive in full, the
    archiver in place, and an archive that unpacks to the folder
    [Dolphin-x64]: the call returns after exactly one request; the
    directory then holds the entries of the archive and, of what it held
    before, the entries the archive does not name; neither [Dolphin.7z]
    nor [Extracted] is left; nothing outside the directory has changed and
    no input has been read. *)
Theorem download_and_update_installs
    (builds : Builds) (dir : Fs.path) (u : string) (w : world) (r : response)
    (entries inner : gmap string Fs.node) :
  Fs.dirname (Fs.parse (path builds)) = dir →
  latest_download builds = Some u →
  web w (requests w) u = Some r →
  content_length r ≠ Some 0 →
  too_short r = false →
  Fs.get dir (fs w) = Some (Fs.Dir entries) →
  (∀ m, entries !! "Dolphin.7z" ≠ Some (Fs.Dir m)) →
  (∀ data, entries !! "Extracted" ≠ Some (Fs.File data)) →
  Fs.exists_ (resource_dir w ++ ["7zr.exe"]) (fs w) = true →
  Fs.diverge (dir ++ ["Dolphin.7z"]) (Fs.norm (resource_dir w ++ ["7zr.exe"])) →
  Fs.diverge (dir ++ ["Extracted"]) (Fs.norm (resource_dir w ++ ["7zr.exe"])) →
  archiver w (body r) = Some {[ packed_folder_name := Fs.Dir inner ]} →
  (∀ k, is_Some (inner !! k) → Fs.plain k ∧ k ≠ "Extracted") →
  (∀ m, inner !! "Dolphin.7z" ≠ Some (Fs.Dir m)) →
  ∃ w',
    download_and_update builds w = (Ok tt, w')
    ∧ Fs.get dir (fs w')
      = Some (Fs.Dir (delete "Dolphin.7z" (inner ∪ delete "Extracted" entries)))
    ∧ (∀ q, Fs.diverge dir q → Fs.get q (fs w') = Fs.get q (fs w))
    ∧ requests w' = S (requests w)
    ∧ stdin w' = stdin w.
Proof.
  intros Hdir_eq Hlink Hweb Hlen Hshort Hget Harchive_free Hfolder_free
    Htool Htool_archive Htool_folder Hunpack Hnames Hinner.
  assert (Forall Fs.plain dir) as Hdir.
  { rewrite <- Hdir_eq. apply removelast_plain, norm_is_plain. }
  assert (Fs.plain "Dolphin.7z") as Hplain_archive by (by split_and!).
  assert (Fs.plain "Extracted") as Hplain_folder by (by split_and!).
  unfold download_and_update. rewrite Hdir_eq, Hlink.
  unfold bind at 1.
  destruct (print_run [] w) as [line0 ->].
  set (w0 := log (Printed line0) w).
  (* the archive arrives *)
  destruct (download_run u dir "Dolphin.7z" w0 r entries)
    as (w1 & Hrun1 & Hfs1 & Hread1 & Hget1 & Hreq1 & Hin1 & Hsame1);
    try done.
  { unfold w0. by rewrite requests_log_printed. }
  rewrite Hshort in Hrun1.
  unfold bind at 1. rewrite Hrun1. clear Hrun1.
  change (fs w0) with (fs w) in Hfs1.
  change (stdin w0) with (stdin w) in Hin1.
  assert (requests w1 = S (requests w)) as Hreq1'
    by (rewrite Hreq1; unfold w0; by rewrite requests_log_printed).
  destruct Hsame1 as (_ & _ & Harchiver1 & Hres1 & _).
  change (archiver w0) with (archiver w) in Harchiver1.
  change (resource_dir w0) with (resource_dir w) in Hres1.
  clearbody w0.
  unfold bind at 1.
  destruct (print_run [nl +:+ "Extracting..."] w1) as [line1 ->].
  set (w2 := log (Printed line1) w1).
  (* it is unpacked *)
  set (entries1 := <["Dolphin.7z" := Fs.File (body r)]> entries) in *.
  destruct (extract_run (dir ++ ["Dolphin.7z"]) dir "Extracted" w2 (body r)
              entries1)
    as (w3 & Hrun3 & Hfs3 & Htrace3 & Hin3 & Hsame3); try done.
  { intros data'. unfold entries1. rewrite lookup_insert_ne by done.
    apply Hfolder_free. }
  { change (resource_dir w2) with (resource_dir w1). by rewrite Hres1. }
  { change (resource_dir w2) with (resource_dir w1). rewrite Hres1.
    unfold Fs.exists_. change (fs w2) with (fs w1). rewrite Hfs1.
    rewrite get_put_apart by done. exact Htool. }
  { rewrite norm_plain by (by apply snoc_plain).
    by apply sibling_diverges. }
  unfold bind at 1. rewrite Hrun3. clear Hrun3.
  change (archiver w2) with (archiver w1) in Hfs3.
  rewrite Harchiver1, Hunpack in Hfs3.
  cbn [fmap option_fmap option_map] in Hfs3.
  change (fs w2) with (fs w1) in Hfs3.
  assert (requests w3 = S (requests w)) as Hreq3.
  { rewrite (requests_same_trace w2 w3 (Spawned _) eq_refl Htrace3).
    unfold w2. by rewrite requests_log_printed. }
  change (stdin w2) with (stdin w1) in Hin3.
  clear Htrace3 Hsame3. clearbody w2.
  unfold bind at 1.
  destruct (print_run ["Updating..."] w3) as [line3 ->].
  set (w4 := log (Printed line3) w3).
  (* the files are moved *)
  set (x := dir ++ ["Extracted"]) in *.
  assert (x ≠ []) as Hx_nonempty by (unfold x; by destruct dir).
  destruct (update_dolphin_wrapped_run dir x (fs w3) inner
              (delete "Extracted" entries1))
    as (fs5 & Hrun5 & Hget5 & _ & Hframe5).
  { done. }
  { by apply snoc_plain. }
  { apply prefix_snoc_not. }
  { rewrite Hfs3. by apply (get_put_same dir "Extracted" _ _ entries1). }
  { rewrite Hfs3, put_put_same by done. by apply get_put_entry. }
  { intros k Hk. destruct (Hnames k Hk) as [Hplain Hne]. split; [done|].
    intros Hpre. apply prefix_app_inv in Hpre.
    by apply prefix_cons_inv_1 in Hpre. }
  unfold bind at 1. unfold change at 1.
  change (fs w4) with (fs w3). rewrite Hrun5.
  (* the archive is deleted *)
  unfold change. cbn [fs with_fs].
  assert (∃ data, (inner ∪ delete "Extracted" entries1) !! "Dolphin.7z"
                  = Some (Fs.File data)) as [data Harchive].
  { destruct (inner !! "Dolphin.7z") as [[data|m]|] eqn:Hin.
    - exists data. by apply lookup_union_Some_l.
    - by destruct (Hinner m).
    - exists (body r). rewrite lookup_union_r by done.
      rewrite lookup_delete_ne by done. unfold entries1.
      by rewrite lookup_insert_eq. }
  assert (Fs.remove (dir ++ ["Dolphin.7z"]) fs5
          = Ok (Fs.put (dir ++ ["Dolphin.7z"]) None fs5)) as ->.
  { unfold Fs.remove. rewrite norm_plain by (by apply snoc_plain).
    by rewrite (get_child dir "Dolphin.7z" fs5 _ Hget5), Harchive. }
  eexists. split_and!; [reflexivity| | | |].
  - cbn [fs with_fs]. rewrite (get_put_entry dir "Dolphin.7z" None fs5 _ Hget5).
    do 2 f_equal. apply map_eq. intros k.
    destruct (decide (k = "Dolphin.7z")) as [->|Hk].
    + by rewrite lookup_partial_alter_eq, lookup_delete_eq.
    + rewrite lookup_partial_alter_ne, lookup_delete_ne by done.
      rewrite !lookup_union. f_equal.
      destruct (decide (k = "Extracted")) as [->|Hk'].
      * by rewrite !lookup_delete_eq.
      * rewrite !lookup_delete_ne by done. unfold entries1.
        by rewrite lookup_insert_ne.
  - intros q Hq. cbn [fs with_fs].
    rewrite get_put_apart by (by apply below_diverges).
    rewrite Hframe5 by (done || by apply below_diverges).
    rewrite Hfs3, get_put_apart by (by apply below_diverges).
    rewrite Hfs1. by rewrite get_put_apart by (by apply below_diverges).
  - change (requests w4 = S (requests w)). unfold w4.
    by rewrite requests_log_printed.
  - cbn [stdin with_fs]. change (stdin w4) with (stdin w3).
    by rewrite Hin3, Hin1.
Qed.

End WholeUpdate.

Lemma download_and_update_installs_witness :
  ∃ w',
    download_and_update Worlds.pending Worlds.updating = (Ok tt, w')
    ∧ Fs.get ["emu"] (fs w')
      = Some (Fs.Dir (delete "Dolphin.7z"
                        (Worlds.new_files
                         ∪ delete "Extracted" Worlds.installed_files)))
    ∧ (∀ q, Fs.diverge ["emu"] q →
            Fs.get q (fs w') = Fs.get q (fs Worlds.updating))
    ∧ requests w' = S (requests Worlds.updating)
    ∧ stdin w' = stdin Worlds.updating.
Proof.
  apply (download_and_update_installs Worlds.pending ["emu"]
           "https://dl.dolphin-emu.org/builds/dolphin-master-5.0-19500-x64.7z"
           Worlds.updating Worlds.archive_response
           Worlds.installed_files Worlds.new_files).
  - vm_compute. reflexivity.
  - reflexivity.
  - reflexivity.
  - discriminate.
  - reflexivity.
  - vm_compute. reflexivity.
  - intros m H. vm_compute in H. discriminate.
  - intros data H. vm_compute in H. discriminate.
  - reflexivity.
  - exists ["emu"], "Dolphin.7z", "7zr.exe", [], [].
    split_and!; [reflexivity|reflexivity|discriminate].
  - exists ["emu"], "Extracted", "7zr.exe", [], [].
    split_and!; [reflexivity|reflexivity|discriminate].
  - reflexivity.
  - intros k [v Hk]. revert k v Hk. apply map_Forall_lookup.
    apply (bool_decide_unpack _). vm_compute. exact I.
  - intros m H. vm_compute in H. discriminate.
Defined.

(** The same run from the entry point: the operator confirms, the update
    is installed, and the new binary is what gets started. *)
Example main_updates :
  ∃ w',
    main (Some "emu\Dolphin.exe") Worlds.updating = (Ok tt, w')
    ∧ Fs.get ["emu"] (fs w')
      = Some (Fs.Dir (delete "Dolphin.7z"
                        (Worlds.new_files
                         ∪ delete "Extracted" Worlds.installed_files)))
    ∧ Fs.read ["emu"; "Dolphin.exe"] (fs w') = Ok (b "new build")
    ∧ last (trace w') = Some (Spawned "emu\Dolphin.exe")
    ∧ requests w' = 2%nat.
Proof. eexists. split_and!; vm_compute; reflexivity. Qed.

(** ** The progress report *)





(** The last report of a download of ten bytes. *)
Example download_report_hook_overshoot :
  download_report_hook 1 8192 10 Worlds.bare
  = (Ok tt,
     log (Printed (cr +:+ "Downloading...  81920 %")) Worlds.bare).
Proof. reflexivity. Qed.

(** ** The end of a run *)

(** X18.  [main] returns normally only by way of starting the binary:
    then the path given ends with [Dolphin.exe] and named something on the
    disk at the start, the binary is still there at the end, after
    whatever the update did, and starting it is the last event of the
    run. *)
Theorem main_returns_after_spawn (p : string) (w w' : world) :
  main (Some p) w = (Ok tt, w') →
  endswith p "Dolphin.exe" = true
  ∧ Fs.exists_ (Fs.parse p) (fs w) = true
  ∧ Fs.exists_ (Fs.parse p) (fs w') = true
  ∧ last (trace w') = Some (Spawned p).
Proof.
  unfold main. unfold bind at 1. unfold abspath.
  cbv beta iota zeta. cbn [default from_option id].
  destruct (endswith p "Dolphin.exe"); cbn [negb]; [|done].
  unfold bind at 1. unfold ask. cbv beta iota.
  destruct (Fs.exists_ (Fs.parse p) (fs w)); cbn [negb]; [|done].
  unfold bind at 1.
  destruct (update_dolphin_if_necessary p w) as [[[]|e] w1]; [|done].
  unfold Popen, bind, ask.
  destruct (Fs.exists_ (Fs.parse p) (fs w1)) eqn:Hthere; [|done].
  unfold emit. intros [= <-]. split_and!; try done.
  cbn [trace log]. apply last_snoc.
Qed.

Lemma main_returns_after_spawn_witness :
  endswith "Dolphin.exe" "Dolphin.exe" = true
  ∧ Fs.exists_ (Fs.parse "Dolphin.exe")
      (fs (Worlds.serving Worlds.listing_page (b "MZ 5.0-19500"))) = true
  ∧ Fs.exists_ (Fs.parse "Dolphin.exe")
      (fs (snd (main (Some "Dolphin.exe")
                  (Worlds.serving Worlds.listing_page (b "MZ 5.0-19500")))))
    = true
  ∧ last (trace (snd (main (Some "Dolphin.exe")
                        (Worlds.serving Worlds.listing_page
                           (b "MZ 5.0-19500")))))
    = Some (Spawned "Dolphin.exe").
Proof.
  apply (main_returns_after_spawn "Dolphin.exe"
           (Worlds.serving Worlds.listing_page (b "MZ 5.0-19500"))).
  reflexivity.
Defined.

(** ** An archive entry named like the extraction folder *)

Section Clash.
Local Arguments Fs.put : simpl never.
Local Arguments Fs.get : simpl never.

Variable d : Fs.path.
Variable e : string.
Hypothesis d_plain : Forall Fs.plain d.
Hypothesis e_plain : Fs.plain e.

(** The round of the loop for the entry [e]: the folder is taken for the
    old entry and deleted, and the new entry has gone with it. *)
Lemma replace_entry_clash (s : Fs.path) (fs : Fs.node)
    (m : gmap string Fs.node) :
  Forall Fs.plain s →
  Fs.get (d ++ [e]) fs = Some (Fs.Dir m) →
  replace_entry d ((d ++ [e]) ++ s) e fs = Raise FileNotFoundError.
Proof.
  intros Hs Hfolder.
  assert (Forall Fs.plain (d ++ [e])) as Hx by (by apply snoc_plain).
  assert (d ++ [e] ≠ []) as Hx_nonempty by (by destruct d).
  unfold replace_entry, Fs.exists_, Fs.isdir, Fs.rmtree.
  rewrite (norm_plain (d ++ [e]) Hx), Hfolder.
  destruct (d ++ [e]) as [|c x'] eqn:Hx_eq; [done|].
  cbn [mbind result_bind]. unfold Fs.move.
  rewrite norm_plain.
  2: { repeat (apply Forall_app; split); try done.
       constructor; [done|constructor]. }
  rewrite <- app_assoc. by rewrite get_below_removed.
Qed.

Lemma for_each_clash (l : list string) :
  ∀ (fs : Fs.node) (todo cur : gmap string Fs.node),
    NoDup l → e ∈ l →
    (∀ k, k ∈ l → is_Some (todo !! k) ∧ Fs.plain k) →
    Fs.get ((d ++ [e]) ++ [packed_folder_name]) fs = Some (Fs.Dir todo) →
    Fs.get d (Fs.put (d ++ [e]) None fs) = Some (Fs.Dir cur) →
    for_each l (replace_entry d ((d ++ [e]) ++ [packed_folder_name])) fs
    = Raise FileNotFoundError.
Proof.
  assert (Forall Fs.plain [packed_folder_name]) as Hs
    by (constructor; [apply packed_plain|constructor]).
  induction l as [|k l IH]; intros fs todo cur Hnodup He Hnames Hsource Hcur.
  - by apply elem_of_nil in He.
  - apply NoDup_cons in Hnodup as [Hfresh Hnodup]. cbn [for_each].
    destruct (decide (k = e)) as [->|Hne].
    + apply get_snoc in Hsource as (m & Hfolder & _).
      by rewrite (replace_entry_clash [packed_folder_name] fs m).
    + destruct (Hnames k) as [[n Hn] Hk]; [by left|].
      destruct (move_entry_ok d (d ++ [e]) [packed_folder_name]
                  d_plain (snoc_plain d e d_plain e_plain) Hs
                  (prefix_snoc_not d e) k n fs todo cur)
        as (fs1 & -> & Hsource1 & Hcur1 & _); try done.
      { by apply sibling_diverges. }
      cbn [mbind result_bind].
      apply (IH fs1 (delete k todo) (<[k := n]> cur)); try done.
      * apply elem_of_cons in He as [|]; [congruence|done].
      * intros k' Hk'. destruct (Hnames k') as [Hsome Hplain]; [by right|].
        split; [|done]. rewrite lookup_delete_ne; [done|]. by intros ->.
Qed.

End Clash.

(** X19.  When the archive has an entry with the name of the extraction
    folder, and the folder is an entry of the installation directory,
    [update_dolphin] takes the folder for the old copy of that entry,
    deletes it, and stops with [FileNotFoundError] when it goes on to move
    the entry out of it. *)
Theorem update_dolphin_entry_named_like_folder
    (d : Fs.path) (e : string) (fs : Fs.node) (inner : gmap string Fs.node) :
  Forall Fs.plain d → Fs.plain e →
  Fs.get (d ++ [e]) fs
  = Some (Fs.Dir {[ packed_folder_name := Fs.Dir inner ]}) →
  is_Some (inner !! e) →
  (∀ k, is_Some (inner !! k) → Fs.plain k) →
  update_dolphin d (d ++ [e]) fs = Raise FileNotFoundError.
Proof.
  intros Hd He Hfolder Hclash Hnames.
  assert (Forall Fs.plain (d ++ [e])) as Hx by (by apply snoc_plain).
  assert (Fs.get ((d ++ [e]) ++ [packed_folder_name]) fs
          = Some (Fs.Dir inner)) as Hsource.
  { rewrite get_app, Hfolder. cbn [mbind option_bind].
    by rewrite get_entry, lookup_singleton_eq. }
  assert (Fs.listdir (d ++ [e]) fs = Ok [packed_folder_name]) as Hlist.
  { unfold Fs.listdir. rewrite (norm_plain _ Hx), Hfolder.
    by rewrite map_to_list_singleton. }
  assert (Fs.listdir ((d ++ [e]) ++ [packed_folder_name]) fs
          = Ok (map_to_list inner).*1) as Hlist_source.
  { unfold Fs.listdir.
    rewrite (norm_plain ((d ++ [e]) ++ [packed_folder_name])).
    2: { apply snoc_plain; [done|apply packed_plain]. }
    by rewrite Hsource. }
  destruct (get_snoc _ _ _ _ Hfolder) as (m & Hdir & _).
  unfold update_dolphin. rewrite Hlist. cbn [mbind result_bind].
  rewrite bool_decide_eq_true_2 by done.
  rewrite Hlist_source. cbn [mbind result_bind].
  rewrite (for_each_clash d e Hd He (map_to_list inner).*1 fs inner
             (delete e m)); try done.
  - apply NoDup_fst_map_to_list.
  - destruct Hclash as [n Hn]. apply list_elem_of_fmap.
    exists (e, n). by rewrite elem_of_map_to_list.
  - intros k [[k' v] [-> Hin%elem_of_map_to_list]]%list_elem_of_fmap.
    split; [by exists v|]. apply Hnames. by exists v.
  - by apply get_put_entry.
Qed.

Lemma update_dolphin_entry_named_like_folder_witness :
  update_dolphin ["emu"] (["emu"] ++ ["Extracted"]) Worlds.disk_clash
  = Raise FileNotFoundError.
Proof.
  apply (update_dolphin_entry_named_like_folder ["emu"] "Extracted"
           Worlds.disk_clash
           (<[ "Extracted" := Fs.File (b "notes") ]> Worlds.new_files)).
  - repeat constructor; discriminate.
  - split_and!; discriminate.
  - vm_compute. reflexivity.
  - exists (Fs.File (b "notes")). vm_compute. reflexivity.
  - intros k [v Hk]. revert k v Hk. apply map_Forall_lookup.
    apply (bool_decide_unpack _). vm_compute. exact I.
Defined.

(** ** What a run reads *)

Section KeepsInput.
Import Worlds.

Lemma keeps_input_read_only {A} (c : M A) : read_only c → keeps_input c.
Proof. intros Hc w. apply Hc. Qed.

Lemma keeps_input_change (f : Fs.node → result Fs.node) :
  keeps_input (change f).
Proof. intros w. unfold change. by destruct (f (fs w)). Qed.

Lemma keeps_input_bind {A B} (c : M A) (f : A → M B) :
  keeps_input c → (∀ a, keeps_input (f a)) → keeps_input (bind c f).
Proof.
  intros Hc Hf w. unfold bind. specialize (Hc w).
  destruct (c w) as [[a|e] w1]; simpl in *; [|done].
  by rewrite Hf.
Qed.

Lemma keeps_input_print (args : list string) : keeps_input (print args).
Proof. apply keeps_input_read_only, read_only_print. Qed.

Lemma keeps_input_hook (count block_size total_size : Z) :
  keeps_input (download_report_hook count block_size total_size).
Proof.
  apply keeps_input_read_only, read_only_bind; [apply read_only_lift|].
  intros percent. apply read_only_print.
Qed.

Lemma keeps_input_report_blocks (blocks : nat) : ∀ (blocknum size : Z),
  keeps_input (report_blocks download_report_hook blocks blocknum size).
Proof.
  induction blocks as [|blocks IH]; intros blocknum size; cbn [report_blocks].
  - apply keeps_input_read_only, read_only_ret.
  - apply keeps_input_bind; [apply keeps_input_hook|]. intros _. apply IH.
Qed.

Lemma keeps_input_download (url : option string) (file_path : Fs.path) :
  keeps_input (download url file_path).
Proof.
  unfold download, urlretrieve. destruct url as [u|].
  2: { apply keeps_input_read_only, read_only_raise. }
  apply keeps_input_bind; [done|]. intros k.
  apply keeps_input_bind; [apply keeps_input_read_only, read_only_emit|].
  intros _. apply keeps_input_bind; [done|]. intros [r|].
  2: { apply keeps_input_read_only, read_only_raise. }
  apply keeps_input_bind; [apply keeps_input_change|]. intros _.
  apply keeps_input_bind; [apply keeps_input_hook|]. intros _.
  apply keeps_input_bind; [apply keeps_input_report_blocks|]. intros _.
  apply keeps_input_bind; [apply keeps_input_change|]. intros _.
  destruct (_ && _); apply keeps_input_read_only;
    [apply read_only_raise | apply read_only_ret].
Qed.

Lemma keeps_input_extract (file_name extracted_folder : Fs.path) :
  keeps_input (extract_dolphin_7z file_name extracted_folder).
Proof.
  unfold extract_dolphin_7z.
  apply keeps_input_bind; [apply keeps_input_read_only, read_only_ask|].
  intros present. apply keeps_input_bind.
  { destruct present; [apply keeps_input_change|].
    apply keeps_input_read_only, read_only_ret. }
  intros _. apply keeps_input_bind; [done|]. intros tool.
  unfold run_archiver.
  apply keeps_input_bind; [apply keeps_input_read_only, read_only_ask|].
  intros there. destruct (negb there).
  { apply keeps_input_read_only, read_only_raise. }
  apply keeps_input_bind; [apply keeps_input_read_only, read_only_emit|].
  intros _ w. destruct (Fs.read file_name (fs w)) as [data|]; [|done].
  by destruct (archiver w data).
Qed.

Lemma keeps_input_download_and_update (builds : Builds) :
  keeps_input (download_and_update builds).
Proof.
  unfold download_and_update.
  apply keeps_input_bind; [apply keeps_input_print|]. intros _.
  apply keeps_input_bind; [apply keeps_input_download|]. intros _.
  apply keeps_input_bind; [apply keeps_input_print|]. intros _.
  apply keeps_input_bind; [apply keeps_input_extract|]. intros _.
  apply keeps_input_bind; [apply keeps_input_print|]. intros _.
  apply keeps_input_bind; [apply keeps_input_change|]. intros _.
  apply keeps_input_change.
Qed.

(** The prompt takes the next line, if there is one. *)
Lemma input_takes_line (prompt : string) (w : world) :
  stdin (snd (input prompt w)) = tail (stdin w).
Proof.
  unfold input. cbv zeta.
  change (stdin (log (Printed prompt) w)) with (stdin w).
  by destruct (stdin w) as [|line rest] eqn:Hin.
Qed.

Lemma update_dolphin_if_necessary_input (p : string) (w : world) :
  stdin (snd (update_dolphin_if_necessary p w)) = stdin w
  ∨ stdin (snd (update_dolphin_if_necessary p w)) = tail (stdin w).
Proof.
  remember (update_dolphin_if_necessary p w) as run eqn:Hrun.
  unfold update_dolphin_if_necessary in Hrun.
  unfold bind at 1 in Hrun.
  pose proof (read_only_print " " nl
                ["You are updating:" +:+ tab +:+ tab; CYAN; p; END] w)
    as [_ H0].
  fold (print ["You are updating:" +:+ tab +:+ tab; CYAN; p; END]) in H0.
  destruct (print _ w) as [[[]|e] w0]; simpl in H0;
    [|subst run; by left].
  unfold bind at 1 in Hrun.
  pose proof (read_only_is_ishiiruka_build p w0) as [_ H1].
  destruct (is_ishiiruka_build p w0) as [[ishiiruka|e] w1]; simpl in H1;
    [|subst run; left; simpl; congruence].
  unfold bind at 1 in Hrun.
  pose proof (read_only_init (if ishiiruka then Ishiiruka else Dolphin) p w1)
    as [_ H2].
  destruct (init _ p w1) as [[builds|e] w2]; simpl in H2;
    [|subst run; left; simpl; congruence].
  destruct (is_outdated builds); [|subst run; left; simpl; congruence].
  unfold bind at 1 in Hrun.
  pose proof (read_only_print " " nl
                ["Current version installed:" +:+ tab; CYAN;
                 installed_version builds; END] w2) as [_ H3].
  fold (print ["Current version installed:" +:+ tab; CYAN;
               installed_version builds; END]) in H3.
  destruct (print _ w2) as [[[]|e] w3]; simpl in H3;
    [|subst run; left; simpl; congruence].
  unfold bind at 1 in Hrun.
  pose proof (read_only_print_latest_version builds w3) as [_ H4].
  destruct (print_latest_version _ builds w3) as [[[]|e] w4]; simpl in H4;
    [|subst run; left; simpl; congruence].
  unfold bind at 1 in Hrun.
  pose proof (input_takes_line ("Press Enter to update" +:+ nl) w4) as H5.
  destruct (input _ w4) as [[answer|e] w5]; simpl in H5;
    [|subst run; right; simpl; congruence].
  subst run. right. destruct (String.eqb answer EmptyString).
  - rewrite keeps_input_download_and_update. congruence.
  - simpl. congruence.
Qed.

End KeepsInput.

(** X20.  A run of [main] takes at most one line of input, whatever
    happens in it: the pending input at the end is the one at the start,
    or the one at the start less its first line. *)
Theorem main_reads_at_most_one_line
    (path_argument : option string) (w : world) :
  stdin (snd (main path_argument w)) = stdin w
  ∨ stdin (snd (main path_argument w)) = tail (stdin w).
Proof.
  remember (main path_argument w) as run eqn:Hrun.
  unfold main in Hrun. unfold bind at 1 in Hrun. unfold abspath in Hrun.
  set (dolphin_exe_path := default _ path_argument) in Hrun.
  destruct (negb (endswith dolphin_exe_path "Dolphin.exe"));
    [subst run; by left|].
  unfold bind at 1 in Hrun. unfold ask in Hrun.
  destruct (negb (Fs.exists_ (Fs.parse dolphin_exe_path) (fs w)));
    [subst run; by left|].
  unfold bind at 1 in Hrun.
  pose proof (update_dolphin_if_necessary_input dolphin_exe_path w) as Hin.
  destruct (update_dolphin_if_necessary dolphin_exe_path w) as [[[]|e] w1];
    simpl in Hin; [|by subst run].
  pose proof (read_only_Popen dolphin_exe_path w1) as [_ Hlast].
  subst run. rewrite Hlast. exact Hin.
Qed.

(** ** Which listing is asked *)

Section Grows.
Import Worlds.

Lemma grows_same {A} (c : M A) :
  (∀ w, trace (snd (c w)) = trace w) → grows c.
Proof. intros Hc w. by rewrite Hc. Qed.

Lemma grows_emit (e : event) : grows (emit e).
Proof. intros w. by apply prefix_app_r. Qed.

Lemma grows_print (sep end_ : string) (args : list string) :
  grows (print_with sep end_ args).
Proof. apply grows_emit. Qed.

Lemma grows_change (f : Fs.node → result Fs.node) : grows (change f).
Proof. apply grows_same. intros w. unfold change. by destruct (f (fs w)). Qed.

Lemma grows_input (prompt : string) : grows (input prompt).
Proof.
  intros w. unfold input. cbv zeta.
  change (stdin (log (Printed prompt) w)) with (stdin w).
  destruct (stdin w); by apply prefix_app_r.
Qed.

Lemma grows_bind {A B} (c : M A) (f : A → M B) :
  grows c → (∀ a, grows (f a)) → grows (bind c f).
Proof.
  intros Hc Hf w. unfold bind. specialize (Hc w).
  destruct (c w) as [[a|e] w1]; simpl in *; [|done].
  etrans; [exact Hc|]. apply Hf.
Qed.

Lemma starts_with_grows {A} (e : event) (c : M A) : starts_with e c → grows c.
Proof. intros Hc w. etrans; [|apply Hc]. by apply prefix_app_r. Qed.

Lemma starts_with_bind {A B} (e : event) (c : M A) (f : A → M B) :
  starts_with e c → (∀ a, grows (f a)) → starts_with e (bind c f).
Proof.
  intros Hc Hf w. unfold bind. specialize (Hc w).
  destruct (c w) as [[a|e'] w1]; simpl in *; [|done].
  etrans; [exact Hc|]. apply Hf.
Qed.

Lemma grows_for_do {A} (l : list A) (body : A → M unit) :
  (∀ a, grows (body a)) → grows (for_do l body).
Proof.
  intros Hbody. induction l as [|a l IH]; simpl.
  - by apply grows_same.
  - apply grows_bind; [apply Hbody|]. by intros _.
Qed.

Lemma starts_with_urlopen_read (url : string) :
  starts_with (Requested url) (urlopen_read url).
Proof. intros w. unfold urlopen_read. by destruct (web w _ url). Qed.

Lemma starts_with_fetch_html (url : string) :
  starts_with (Requested url) (fetch_html_from_website url).
Proof.
  apply starts_with_bind; [apply starts_with_urlopen_read|].
  intros html. by apply grows_same.
Qed.

Lemma grows_ishiiruka_fetch (depth : nat) :
  grows (IshiirukaBuilds.fetch_version_table depth).
Proof.
  induction depth as [|depth IH]; simpl; [by apply grows_same|].
  apply grows_bind.
  { eapply starts_with_grows, starts_with_fetch_html. }
  intros soup. destruct (find _ _ soup); [by apply grows_same|].
  apply grows_bind; [apply grows_print|]. by intros _.
Qed.

Lemma starts_with_fetch_version_table (k : variant) (w : world) :
  (0 < recursion_limit w)%nat →
  (trace w
   ++ [Requested match k with
                 | Dolphin => DolphinBuilds.url
                 | Ishiiruka => IshiirukaBuilds.url
                 end])
  `prefix_of` trace (snd (fetch_version_table (class_of k) w)).
Proof.
  intros Hdepth. destruct k; simpl.
  - apply starts_with_bind; [apply starts_with_fetch_html|].
    intros soup. by apply grows_same.
  - destruct (recursion_limit w) as [|depth]; [lia|]. simpl.
    apply starts_with_bind; [apply starts_with_fetch_html|].
    intros soup. destruct (find _ _ soup); [by apply grows_same|].
    apply grows_bind; [apply grows_print|]. intros _.
    apply grows_ishiiruka_fetch.
Qed.

Lemma grows_get_installed_version (k : variant) (p : string) :
  grows (get_installed_version (class_of k) p).
Proof.
  destruct k; simpl;
    (apply grows_bind; [by apply grows_same|]; intros data;
     apply grows_bind; [by apply grows_same|]; intros m;
     destruct (decode_utf8 m); by apply grows_same).
Qed.

Lemma grows_print_latest_version (builds : Builds) :
  grows (print_latest_version (class_of (kind builds)) builds).
Proof.
  destruct (kind builds); simpl.
  - apply grows_bind; [apply grows_print|]. intros _.
    apply grows_bind; [by apply grows_same|]. intros t.
    apply grows_for_do. intros row.
    apply grows_bind; [by apply grows_same|]. intros version.
    apply grows_bind; [by apply grows_same|]. intros change.
    apply grows_bind; [by apply grows_same|]. intros time.
    destruct (String.eqb _ _); [apply grows_print|].
    destruct (py_eqb _ _); apply grows_print.
  - apply grows_print.
Qed.

Lemma grows_hook (count block_size total_size : Z) :
  grows (download_report_hook count block_size total_size).
Proof.
  apply grows_bind; [by apply grows_same|]. intros percent.
  apply grows_print.
Qed.

Lemma grows_report_blocks (blocks : nat) : ∀ (blocknum size : Z),
  grows (report_blocks download_report_hook blocks blocknum size).
Proof.
  induction blocks as [|blocks IH]; intros blocknum size; cbn [report_blocks].
  - by apply grows_same.
  - apply grows_bind; [apply grows_hook|]. intros _. apply IH.
Qed.

Lemma grows_download (url : option string) (file_path : Fs.path) :
  grows (download url file_path).
Proof.
  unfold download, urlretrieve. destruct url as [u|]; [|by apply grows_same].
  apply grows_bind; [by apply grows_same|]. intros k.
  apply grows_bind; [apply grows_emit|]. intros _.
  apply grows_bind; [by apply grows_same|]. intros [r|];
    [|by apply grows_same].
  apply grows_bind; [apply grows_change|]. intros _.
  apply grows_bind; [apply grows_hook|]. intros _.
  apply grows_bind; [apply grows_report_blocks|]. intros _.
  apply grows_bind; [apply grows_change|]. intros _.
  destruct (_ && _); by apply grows_same.
Qed.

Lemma grows_extract (file_name extracted_folder : Fs.path) :
  grows (extract_dolphin_7z file_name extracted_folder).
Proof.
  unfold extract_dolphin_7z.
  apply grows_bind; [by apply grows_same|]. intros present.
  apply grows_bind.
  { destruct present; [apply grows_change|by apply grows_same]. }
  intros _. apply grows_bind; [by apply grows_same|]. intros tool.
  unfold run_archiver.
  apply grows_bind; [by apply grows_same|]. intros there.
  destruct (negb there); [by apply grows_same|].
  apply grows_bind; [apply grows_emit|]. intros _.
  apply grows_same. intros w.
  destruct (Fs.read file_name (fs w)) as [data|]; [|done].
  by destruct (archiver w data).
Qed.

Lemma grows_download_and_update (builds : Builds) :
  grows (download_and_update builds).
Proof.
  unfold download_and_update.
  apply grows_bind; [apply grows_print|]. intros _.
  apply grows_bind; [apply grows_download|]. intros _.
  apply grows_bind; [apply grows_print|]. intros _.
  apply grows_bind; [apply grows_extract|]. intros _.
  apply grows_bind; [apply grows_print|]. intros _.
  apply grows_bind; [apply grows_change|]. intros _.
  apply grows_change.
Qed.

End Grows.

(** The search of [is_ishiiruka_build] succeeds exactly on the binaries
    that hold the name. *)
Lemma ishiiruka_search_iff (content : bytes) :
  is_Some (Re.search ishiiruka_re content)
  ↔ ∃ pre post, content = pre ++ b "Ishiiruka" ++ post.
Proof.
  split.
  - intros [m (pre & rest & -> & Hm & _)%search_leftmost].
    destruct (proj1 (ishiiruka_match_at rest)) as [post ->]; [by eauto|].
    by exists pre, post.
  - intros (pre & post & ->). apply search_complete.
    apply ishiiruka_match_at. by exists post.
Qed.

(** X21.  [update_dolphin_if_necessary] asks the listing of the variant
    it finds in the binary: after its opening line, the first request of
    the run goes to the Dropbox folder of the community fork when the
    bytes of the binary hold the name [Ishiiruka], and to the list of
    master builds on dolphin-emu.org when they do not, however the run
    goes on from there. *)
Theorem first_request_follows_binary
    (p : string) (w : world) (content : bytes) :
  Fs.read (Fs.parse p) (fs w) = Ok content →
  (0 < recursion_limit w)%nat →
  ∃ header,
    ((∃ pre post, content = pre ++ b "Ishiiruka" ++ post) →
     (trace w ++ [Printed header; Requested IshiirukaBuilds.url])
     `prefix_of` trace (snd (update_dolphin_if_necessary p w)))
    ∧ (¬ (∃ pre post, content = pre ++ b "Ishiiruka" ++ post) →
       (trace w ++ [Printed header; Requested DolphinBuilds.url])
       `prefix_of` trace (snd (update_dolphin_if_necessary p w))).
Proof.
  intros Hread Hdepth.
  exists (join " " ["You are updating:" +:+ tab +:+ tab; CYAN; p; END] +:+ nl).
  set (header := join " " _ +:+ nl).
  set (k := if bool_decide (is_Some (Re.search ishiiruka_re content))
            then Ishiiruka else Dolphin).
  assert ((trace w
           ++ [Printed header;
               Requested match k with
                         | Dolphin => DolphinBuilds.url
                         | Ishiiruka => IshiirukaBuilds.url
                         end])
          `prefix_of` trace (snd (update_dolphin_if_necessary p w))) as Hrun.
  { unfold update_dolphin_if_necessary.
    unfold bind at 1. unfold print, print_with, emit. fold header.
    set (w0 := log (Printed header) w).
    unfold bind at 1. unfold is_ishiiruka_build at 1, bind at 1, query, ret.
    change (fs w0) with (fs w). rewrite Hread. fold k.
    change (trace w ++ [Printed header; Requested _])
      with (trace w ++ [Printed header]
            ++ [Requested match k with
                          | Dolphin => DolphinBuilds.url
                          | Ishiiruka => IshiirukaBuilds.url
                          end]).
    rewrite app_assoc. change (trace w ++ [Printed header]) with (trace w0).
    assert (0 < recursion_limit w0)%nat as Hdepth0 by done.
    clearbody w0. revert w0 Hdepth0.
    change (∀ w0, (0 < recursion_limit w0)%nat →
              (trace w0
               ++ [Requested match k with
                             | Dolphin => DolphinBuilds.url
                             | Ishiiruka => IshiirukaBuilds.url
                             end])
              `prefix_of`
              trace (snd (bind (init k p)
                            (fun builds =>
                               if is_outdated builds
                               then
                                 bind (print ["Current version installed:"
                                              +:+ tab; CYAN;
                                              installed_version builds; END])
                                   (fun _ =>
                                      bind (print_latest_version
                                              (class_of (kind builds)) builds)
                                        (fun _ =>
                                           bind (input ("Press Enter to update"
                                                        +:+ nl))
                                             (fun answer =>
                                                if String.eqb answer EmptyString
                                                then download_and_update builds
                                                else ret tt)))
                               else ret tt) w0))).
    intros w0 Hdepth0. unfold bind at 1.
    assert ((trace w0
             ++ [Requested match k with
                           | Dolphin => DolphinBuilds.url
                           | Ishiiruka => IshiirukaBuilds.url
                           end])
            `prefix_of` trace (snd (init k p w0))) as Hinit.
    { unfold init. unfold bind at 1.
      pose proof (starts_with_fetch_version_table k w0 Hdepth0) as Hfetch.
      destruct (fetch_version_table (class_of k) w0) as [[t|e] w1];
        simpl in Hfetch; [|done].
      etrans; [exact Hfetch|].
      apply (grows_bind (lift (get_latest_download (class_of k) t))).
      { by apply grows_same. }
      intros link. apply grows_bind; [by apply grows_same|]. intros version.
      apply grows_bind; [apply grows_get_installed_version|].
      intros installed. by apply grows_same. }
    destruct (init k p w0) as [[builds|e] w1]; simpl in Hinit; [|done].
    etrans; [exact Hinit|].
    destruct (is_outdated builds); [|done].
    apply (grows_bind (print _)); [apply grows_print|]. intros _.
    apply grows_bind; [apply grows_print_latest_version|]. intros _.
    apply grows_bind; [apply grows_input|]. intros answer.
    destruct (String.eqb answer EmptyString);
      [apply grows_download_and_update | by apply grows_same]. }
  split.
  - intros Hname%ishiiruka_search_iff.
    unfold k in Hrun. by rewrite bool_decide_eq_true_2 in Hrun.
  - intros Hname. unfold k in Hrun.
    rewrite bool_decide_eq_false_2 in Hrun; [done|].
    by rewrite ishiiruka_search_iff.
Qed.

Lemma first_request_follows_binary_witness :
  ∃ header,
    ((∃ pre post, Worlds.ishiiruka_binary = pre ++ b "Ishiiruka" ++ post) →
     (trace (Worlds.serving Worlds.gallery_page Worlds.ishiiruka_binary)
      ++ [Printed header; Requested IshiirukaBuilds.url])
     `prefix_of`
     trace (snd (update_dolphin_if_necessary "Dolphin.exe"
                   (Worlds.serving Worlds.gallery_page
                      Worlds.ishiiruka_binary))))
    ∧ (¬ (∃ pre post, Worlds.ishiiruka_binary = pre ++ b "Ishiiruka" ++ post) →
       (trace (Worlds.serving Worlds.gallery_page Worlds.ishiiruka_binary)
        ++ [Printed header; Requested DolphinBuilds.url])
       `prefix_of`
       trace (snd (update_dolphin_if_necessary "Dolphin.exe"
                     (Worlds.serving Worlds.gallery_page
                        Worlds.ishiiruka_binary)))).
Proof.
  apply (first_request_follows_binary "Dolphin.exe"
           (Worlds.serving Worlds.gallery_page Worlds.ishiiruka_binary)
           Worlds.ishiiruka_binary).
  - reflexivity.
  - vm_compute. lia.
Defined.
